(** * Rayquasa: the threshold trading rule, its ledger and its backtest driver

    A shallow embedding of [stock_selector.py], [trading_engine.py],
    [stock_trading_algorithm.py] and of the classes [Portfolio] and
    [Backtester] of [backtest.py], followed by the properties of the
    ledger, of the signals, of the predictability score and of a run.

    Numbers.  The program computes with IEEE binary64 values (Python
    floats and numpy scalars).  They are embedded as [num]: an exact
    rational, an infinity or NaN, with the IEEE rules for the special
    values (a comparison with NaN is false, [x / 0] is an infinity or
    NaN, [inf - inf] is NaN).  Rounding, overflow and the sign of zero are
    not part of [num]: the properties stated on [num] are those that the
    rounding of each operation keeps (which test passes, which operand is
    the larger, [x - x = 0], [0 + x = x], [x / x = 1]).  What rounding
    does decide is evaluated on binary64 numbers themselves, in the module
    [Binary64].  The square root is a parameter.

    Containers.  A Python dict that is only looked up and updated is a
    [gmap]; the [stock_data] dict, which is iterated in insertion order,
    is an association list with distinct keys.  A pandas series is the
    list of its (timestamp, price) rows, with distinct timestamps;
    [pct_change] is taken without filling missing prices, and [std] is the
    sample standard deviation.

    State.  The methods that mutate an object return the object after the
    call; [Backtester.run] returns a value or raises. *)

From Stdlib Require Import ZArith QArith Qcanon Lia Lqa Sorted PrimFloat.
From stdpp Require Import gmap strings list fin_maps.

Local Open Scope Z_scope.

(** ** Numbers *)

Inductive num : Type :=
  | Fin (q : Qc)
  | PInf
  | NInf
  | NaN.

Global Instance num_eq_dec : EqDecision num.
Proof. solve_decision. Defined.

Module Num.

(** [z / 10^k]: the value of a decimal literal. *)
Definition dec (z : Z) (k : nat) : num :=
    Fin (Q2Qc (Qmake z (Pos.pow 10 (Pos.of_nat k)))).

Definition of_Z (z : Z) : num := Fin (Q2Qc (inject_Z z)).

Definition zero : num := of_Z 0.
Definition one : num := of_Z 1.

Definition isnan (x : num) : bool :=
    match x with NaN => true | _ => false end.

Definition isfinite (x : num) : bool :=
    match x with Fin _ => true | _ => false end.

Definition opp (x : num) : num :=
    match x with
    | Fin q => Fin (- q)%Qc
    | PInf => NInf
    | NInf => PInf
    | NaN => NaN
    end.

Definition add (x y : num) : num :=
    match x, y with
    | NaN, _ | _, NaN => NaN
    | Fin a, Fin b => Fin (a + b)%Qc
    | PInf, NInf | NInf, PInf => NaN
    | PInf, _ | _, PInf => PInf
    | NInf, _ | _, NInf => NInf
    end.

Definition sub (x y : num) : num := add x (opp y).

(** The infinity of the sign of [q], or NaN when [q] is zero. *)
Definition signed_inf (q : Qc) : num :=
    match (q ?= 0)%Qc with
    | Gt => PInf
    | Lt => NInf
    | Eq => NaN
    end.

Definition mul (x y : num) : num :=
    match x, y with
    | NaN, _ | _, NaN => NaN
    | Fin a, Fin b => Fin (a * b)%Qc
    | Fin a, PInf | PInf, Fin a => signed_inf a
    | Fin a, NInf | NInf, Fin a => signed_inf (- a)%Qc
    | PInf, PInf | NInf, NInf => PInf
    | PInf, NInf | NInf, PInf => NInf
    end.

(** numpy's [/]: a zero divisor gives an infinity, or NaN for [0 / 0]. *)
Definition div (x y : num) : num :=
    match x, y with
    | NaN, _ | _, NaN => NaN
    | Fin a, Fin b =>
        if decide (b = 0%Qc) then signed_inf a else Fin (a / b)%Qc
    | Fin _, _ => Fin 0%Qc
    | PInf, Fin b => if decide (b < 0)%Qc then NInf else PInf
    | NInf, Fin b => if decide (b < 0)%Qc then PInf else NInf
    | _, _ => NaN
    end.

Definition abs (x : num) : num :=
    match x with
    | Fin q => if decide (q < 0)%Qc then Fin (- q)%Qc else Fin q
    | PInf | NInf => PInf
    | NaN => NaN
    end.

(** [x <= y]; false as soon as one side is NaN. *)
Definition leb (x y : num) : bool :=
    match x, y with
    | NaN, _ | _, NaN => false
    | Fin a, Fin b => bool_decide (a ≤ b)%Qc
    | NInf, _ | _, PInf => true
    | _, _ => false
    end.

(** [x < y]; false as soon as one side is NaN. *)
Definition ltb (x y : num) : bool :=
    match x, y with
    | NaN, _ | _, NaN => false
    | Fin a, Fin b => bool_decide (a < b)%Qc
    | PInf, _ | _, NInf => false
    | _, _ => true
    end.

Definition geb (x y : num) : bool := leb y x.
Definition gtb (x y : num) : bool := ltb y x.

(** Python's [max(a, b)]: [b] when [b > a], else [a]. *)
Definition max (a b : num) : num := if gtb b a then b else a.

(** Python's [min(a, b)]: [b] when [b < a], else [a]. *)
Definition min (a b : num) : num := if ltb b a then b else a.

End Num.

Declare Scope num_scope.
Delimit Scope num_scope with num.
Bind Scope num_scope with num.
Infix "+" := Num.add : num_scope.
Infix "-" := Num.sub : num_scope.
Infix "*" := Num.mul : num_scope.
Infix "/" := Num.div : num_scope.
Infix "<=?" := Num.leb : num_scope.
Infix "<?" := Num.ltb : num_scope.
Infix ">=?" := Num.geb (at level 70) : num_scope.
Infix ">?" := Num.gtb (at level 70) : num_scope.

(** The threshold [1e-10] that both the ledger and the engine use. *)
Definition tiny : num := Num.dec 1 10.

(** ** The portfolio ledger ([backtest.py], class [Portfolio]) *)

Module Snapshot.
Record t : Type := mk {
    date : Z;
    cash : num;
    holdings_value : num;
    total_value : num;
    holdings : gmap string num
}.
End Snapshot.

Global Instance Snapshot_eq_dec : EqDecision Snapshot.t.
Proof. solve_decision. Defined.

Record Portfolio : Type := mkPortfolio {
  cash : num;
  holdings : gmap string num;
  history : list Snapshot.t
}.

Global Instance Portfolio_eq_dec : EqDecision Portfolio.
Proof. solve_decision. Defined.

(** [Portfolio.__init__] *)
Definition Portfolio_init (initial_cash : num) : Portfolio :=
  {| cash := initial_cash; holdings := ∅; history := [] |}.

(** [Portfolio.buy]: the returned boolean and the ledger after the call. *)
Definition buy (self : Portfolio) (symbol : string) (shares price : num)
  : bool * Portfolio :=
  let cost := (shares * price)%num in
  if (cost <=? cash self)%num then
    (true,
     {| cash := (cash self - cost)%num;
        holdings :=
          <[symbol := (default Num.zero (holdings self !! symbol) + shares)%num]>
            (holdings self);
        history := history self |})
  else (false, self).

(** [Portfolio.sell] *)
Definition sell (self : Portfolio) (symbol : string) (shares price : num)
  : bool * Portfolio :=
  match holdings self !! symbol with
  | Some held =>
      if (held >=? shares)%num then
        let proceeds := (shares * price)%num in
        let rest := (held - shares)%num in
        let holdings1 := <[symbol := rest]> (holdings self) in
        (true,
         {| cash := (cash self + proceeds)%num;
            holdings :=
              if (rest <? tiny)%num then delete symbol holdings1 else holdings1;
            history := history self |})
      else (false, self)
  | None => (false, self)
  end.

(** The sum of [Portfolio.get_value]: over the stored symbols, the shares
    times the symbol's price, 0 for a symbol without a price. *)
Definition holdings_total (holdings : gmap string num)
    (current_prices : gmap string num) : num :=
  map_fold
    (λ symbol shares acc,
       (acc + shares * default Num.zero (current_prices !! symbol))%num)
    Num.zero holdings.

(** [Portfolio.get_value] *)
Definition get_value (self : Portfolio) (current_prices : gmap string num)
  : num :=
  let holdings_value := holdings_total (holdings self) current_prices in
  (cash self + holdings_value)%num.

(** [Portfolio.record_state] *)
Definition record_state (self : Portfolio) (date : Z)
    (current_prices : gmap string num) : Portfolio :=
  let total_value := get_value self current_prices in
  let holdings_value := (total_value - cash self)%num in
  {| cash := cash self;
     holdings := holdings self;
     history :=
       history self ++
       [ {| Snapshot.date := date;
            Snapshot.cash := cash self;
            Snapshot.holdings_value := holdings_value;
            Snapshot.total_value := total_value;
            Snapshot.holdings := holdings self |} ] |}.

(** ** Price series

    A pandas series of prices indexed by date: its rows in index order. *)

Definition Series : Type := list (Z * num).

Definition values (prices : Series) : list num := prices.*2.

Definition index (prices : Series) : list Z := prices.*1.

(** [prices.iloc[i]], a negative [i] counting from the end; [None] stands
    for the [IndexError] of a position out of range. *)
Definition iloc (prices : Series) (i : Z) : option num :=
  let n := Z.of_nat (length prices) in
  if decide (0 ≤ i < n) then values prices !! Z.to_nat i
  else if decide (- n ≤ i < 0) then values prices !! Z.to_nat (n + i)
  else None.

(** ** The signal generator ([trading_engine.py]) *)

Inductive Signal : Type := BUY | SELL | HOLD.

Global Instance Signal_eq_dec : EqDecision Signal.
Proof. solve_decision. Defined.

Record TradingEngine : Type := mkTradingEngine {
  buy_threshold : num;
  sell_threshold : num;
  buy_amount : num;
  sell_amount : num
}.

(** The defaults of [TradingEngine.__init__]. *)
Definition TradingEngine_default : TradingEngine :=
  {| buy_threshold := Num.dec (-5) 2;
     sell_threshold := Num.dec 10 2;
     buy_amount := Num.of_Z 5;
     sell_amount := Num.of_Z 10 |}.

(** [TradingEngine.calculate_weekly_change].  The positions read are in
    range once the length test has passed, so the [None] of [iloc] is never
    the result here. *)
Definition calculate_weekly_change (prices : Series) : option num :=
  if decide (length prices < 2)%nat then None
  else
    current_price ← iloc prices (-1);
    week_ago_price ←
      (if decide (7 ≤ length prices)%nat then iloc prices (-7)
       else iloc prices 0);
    if Num.isnan week_ago_price || Num.isnan current_price
       || (Num.abs week_ago_price <? tiny)%num
    then None
    else Some ((current_price - week_ago_price) / week_ago_price)%num.

(** [TradingEngine.generate_signal] *)
Definition generate_signal (self : TradingEngine) (prices : Series)
  : Signal * num * option num :=
  match calculate_weekly_change prices with
  | None => (HOLD, Num.zero, None)
  | Some pct_change =>
      if (pct_change <=? buy_threshold self)%num then
        (BUY, buy_amount self, Some pct_change)
      else if (pct_change >=? sell_threshold self)%num then
        (SELL, sell_amount self, Some pct_change)
      else (HOLD, Num.zero, Some pct_change)
  end.

Module Trade.
Record t : Type := mk {
  signal : Signal;
  amount : num;
  shares : num;
  price : option num;
  weekly_change : option num
}.
End Trade.

Global Instance Trade_eq_dec : EqDecision Trade.t.
Proof. solve_decision. Defined.

(** The truth value of a numpy scalar: false for zero only. *)
Definition truthy (x : num) : bool :=
  match x with
  | Fin q => bool_decide (q ≠ 0%Qc)
  | _ => true
  end.

(** [TradingEngine.execute_trades]: the [trades] dict, in the order of
    [stock_data]. *)
Definition execute_trades (self : TradingEngine)
    (stock_data : list (string * Series)) : list (string * Trade.t) :=
  omap
    (λ '(symbol, prices),
       let '(signal, amount, pct_change) := generate_signal self prices in
       if decide (signal ≠ HOLD) then
         let current_price :=
           if decide (0 < length prices)%nat then iloc prices (-1) else None in
         let shares :=
           match current_price with
           | Some p =>
               if truthy p && (Num.abs p >? tiny)%num then (amount / p)%num
               else Num.zero
           | None => Num.zero
           end in
         Some (symbol,
               {| Trade.signal := signal;
                  Trade.amount := amount;
                  Trade.shares := shares;
                  Trade.price := current_price;
                  Trade.weekly_change := pct_change |})
       else None)
    stock_data.

(** ** The suitability filter ([stock_selector.py]) *)

Record StockSelector : Type := mkStockSelector {
  min_volatility : num;
  max_volatility : num;
  min_data_points : Z
}.

(** The defaults of [StockSelector.__init__]. *)
Definition StockSelector_default : StockSelector :=
  {| min_volatility := Num.dec 1 2;
     max_volatility := Num.dec 5 1;
     min_data_points := 30 |}.

(** [prices.pct_change()]: NaN for the first row, then [p_i / p_(i-1) - 1]. *)
Fixpoint pct_change_from (previous : num) (vs : list num) : list num :=
  match vs with
  | [] => []
  | v :: rest => (v / previous - Num.one)%num :: pct_change_from v rest
  end.

Definition pct_change (prices : Series) : list num :=
  match values prices with
  | [] => []
  | v :: rest => NaN :: pct_change_from v rest
  end.

(** [.dropna()] *)
Definition dropna (xs : list num) : list num :=
  filter (λ x, Num.isnan x = false) xs.

Definition sum (xs : list num) : num := foldl Num.add Num.zero xs.

Definition of_nat (n : nat) : num := Num.of_Z (Z.of_nat n).

(** The number of positions [i] with [returns[i+1] * returns[i] > 0]. *)
Fixpoint same_direction (returns : list num) : nat :=
  match returns with
  | a :: (b :: _) as rest =>
      ((if (b * a >? Num.zero)%num then 1 else 0) + same_direction rest)%nat
  | _ => 0%nat
  end.

Section WithSqrt.

(** The square root of numpy: a parameter of the model, which has no
    irrational number. *)
Variable np_sqrt : num → num.

(** [returns.std()] of pandas: the sample standard deviation (one degree
    of freedom taken off), NaN for fewer than two values. *)
Definition std (xs : list num) : num :=
  if decide (length xs ≤ 1)%nat then NaN
  else
    let avg := (sum xs / of_nat (length xs))%num in
    let sqr := (λ x, (avg - x) * (avg - x))%num <$> xs in
    np_sqrt (sum sqr / of_nat (length xs - 1))%num.

(** [StockSelector.calculate_volatility] *)
Definition calculate_volatility (prices : Series) : num :=
  if decide (length prices < 2)%nat then NaN
  else
    let returns := dropna (pct_change prices) in
    if decide (length returns = 0%nat) then NaN
    else (std returns * np_sqrt (Num.of_Z 252))%num.

(** The volatility score of [calculate_predictability_score]. *)
Definition volatility_score (self : StockSelector) (volatility : num) : num :=
  if (volatility <? min_volatility self)%num
     || (volatility >? max_volatility self)%num
  then Num.zero
  else
    let mid_point :=
      ((min_volatility self + max_volatility self) / Num.of_Z 2)%num in
    let distance_from_mid := Num.abs (volatility - mid_point)%num in
    let max_distance :=
      ((max_volatility self - min_volatility self) / Num.of_Z 2)%num in
    (Num.one - distance_from_mid / max_distance)%num.

(** The consistency score of [calculate_predictability_score], with both
    branches of the source. *)
Definition consistency_score (returns : list num) : num :=
  if decide (1 < length returns)%nat then
    (of_nat (same_direction returns) / of_nat (length returns - 1))%num
  else Num.dec 5 1.

(** [StockSelector.calculate_predictability_score] *)
Definition calculate_predictability_score (self : StockSelector)
    (prices : Series) : num :=
  if decide (Z.of_nat (length prices) < min_data_points self) then Num.zero
  else
    let volatility := calculate_volatility prices in
    if Num.isnan volatility then Num.zero
    else
      let returns := dropna (pct_change prices) in
      if decide (length returns < 2)%nat then Num.zero
      else
        (Num.dec 6 1 * volatility_score self volatility
         + Num.dec 4 1 * consistency_score returns)%num.

(** [StockSelector.is_suitable] *)
Definition is_suitable (self : StockSelector) (prices : Series) : bool :=
  if decide (Z.of_nat (length prices) < min_data_points self) then false
  else
    let volatility := calculate_volatility prices in
    if Num.isnan volatility then false
    else if (volatility <? min_volatility self)%num
            || (volatility >? max_volatility self)%num
    then false
    else (calculate_predictability_score self prices >? Num.dec 3 1)%num.

(** [StockSelector.filter_stocks] *)
Definition filter_stocks (self : StockSelector)
    (stock_data : list (string * Series)) : list string :=
  omap (λ '(symbol, prices),
          if is_suitable self prices then Some symbol else None)
       stock_data.

(** ** The algorithm ([stock_trading_algorithm.py]) *)

Record StockTradingAlgorithm : Type := mkStockTradingAlgorithm {
  selector : StockSelector;
  engine : TradingEngine
}.

Definition StockTradingAlgorithm_default : StockTradingAlgorithm :=
  {| selector := StockSelector_default; engine := TradingEngine_default |}.

(** [stock_data[symbol]] on the association list of a dict. *)
Definition getitem {A : Type} (d : list (string * A)) (symbol : string)
  : option A :=
  (λ found, found.2.2) <$> list_find (λ kv, kv.1 = symbol) d.

(** The ['trades'] entry of [StockTradingAlgorithm.run]; the driver reads
    nothing else of its result. *)
Definition algorithm_run (self : StockTradingAlgorithm)
    (stock_data : list (string * Series)) : list (string * Trade.t) :=
  let suitable_stocks := filter_stocks (selector self) stock_data in
  let filtered_stock_data :=
    omap (λ symbol, (λ prices, (symbol, prices)) <$> getitem stock_data symbol)
         suitable_stocks in
  execute_trades (engine self) filtered_stock_data.

End WithSqrt.

(** ** The backtest driver ([backtest.py], class [Backtester]) *)

Module LogEntry.
Record t : Type := mk {
  date : Z;
  symbol : string;
  action : Signal;
  shares : num;
  price : num;
  amount : num;
  weekly_change : option num
}.
End LogEntry.

Global Instance LogEntry_eq_dec : EqDecision LogEntry.t.
Proof. solve_decision. Defined.

Record Backtester : Type := mkBacktester {
  symbols : list string;
  weeks : nat;
  initial_cash : num;
  portfolio : Portfolio;
  algorithm : StockTradingAlgorithm;
  trade_log : list LogEntry.t
}.

(** [Backtester.__init__]; a negative number of weeks runs no week, as 0
    does. *)
Definition Backtester_init (symbols : list string) (weeks : nat)
    (initial_cash : num) : Backtester :=
  {| symbols := symbols;
     weeks := weeks;
     initial_cash := initial_cash;
     portfolio := Portfolio_init initial_cash;
     algorithm := StockTradingAlgorithm_default;
     trade_log := [] |}.

Module Results.
Record t : Type := mk {
  initial_value : num;
  final_value : num;
  total_return : num;
  total_return_pct : num;
  max_drawdown : num;
  total_trades : nat;
  buy_trades : nat;
  sell_trades : nat;
  portfolio_history : list Snapshot.t;
  trade_log : list LogEntry.t;
  final_holdings : gmap string num
}.
End Results.

Global Instance Results_eq_dec : EqDecision Results.t.
Proof. solve_decision. Defined.

Inductive exn : Type := ZeroDivisionError.

(** What a call does: it returns a value or raises. *)
Inductive outcome (A : Type) : Type :=
  | Returns (a : A)
  | Raises (e : exn).
Arguments Returns {A} a.
Arguments Raises {A} e.

Global Instance exn_eq_dec : EqDecision exn.
Proof. solve_decision. Defined.

Global Instance outcome_eq_dec {A : Type} `{EqDecision A} :
  EqDecision (outcome A).
Proof. solve_decision. Defined.

(** [sorted(set(...))] on dates: insertion into a strictly increasing
    list. *)
Fixpoint insert_date (d : Z) (ds : list Z) : list Z :=
  match ds with
  | [] => [d]
  | x :: rest =>
      if decide (d < x) then d :: ds
      else if decide (d = x) then ds
      else x :: insert_date d rest
  end.

Definition sorted_set (ds : list Z) : list Z := foldr insert_date [] ds.

(** [all_dates] of [Backtester.run] *)
Definition all_dates (stock_data : list (string * Series)) : list Z :=
  sorted_set (stock_data ≫= (λ kv, index kv.2)).

(** [prices.loc[date]] when [date in prices.index]: the row of that
    label. *)
Definition loc (prices : Series) (date : Z) : option num :=
  (λ found, found.2.2) <$> list_find (λ row, row.1 = date) prices.

(** The dict [{symbol: f(prices)}] over the series for which [f] gives a
    value; a later entry of the same symbol replaces an earlier one. *)
Definition price_dict (f : Series → option num)
    (stock_data : list (string * Series)) : gmap string num :=
  foldl (λ acc kv,
           match f kv.2 with
           | Some v => <[kv.1 := v]> acc
           | None => acc
           end)
        ∅ stock_data.

(** [window_data] of one week: for each symbol the rows dated up to
    [current_date], the symbols without such a row left out. *)
Definition window_data (stock_data : list (string * Series))
    (current_date : Z) : list (string * Series) :=
  omap (λ '(symbol, prices),
          let window := filter (λ row, row.1 ≤ current_date) prices in
          if decide (0 < length window)%nat then Some (symbol, window)
          else None)
       stock_data.

(** [trade['amount'] / price], the number of shares that both branches of
    the loop over the trades ask for. *)
Definition requested_shares (trade : Trade.t) (price : num) : num :=
  (Trade.amount trade / price)%num.

(** The body of the loop over [results['trades'].items()]. *)
Definition process_trade (current_date : Z)
    (current_prices : gmap string num)
    (state : Portfolio * list LogEntry.t) (item : string * Trade.t)
  : Portfolio * list LogEntry.t :=
  let '(portfolio, trade_log) := state in
  let '(symbol, trade) := item in
  match current_prices !! symbol with
  | None => state
  | Some price =>
      match Trade.signal trade with
      | BUY =>
          let shares := requested_shares trade price in
          let '(ok, portfolio') := buy portfolio symbol shares price in
          if ok then
            (portfolio',
             trade_log ++
             [ {| LogEntry.date := current_date;
                  LogEntry.symbol := symbol;
                  LogEntry.action := BUY;
                  LogEntry.shares := shares;
                  LogEntry.price := price;
                  LogEntry.amount := Trade.amount trade;
                  LogEntry.weekly_change := Trade.weekly_change trade |} ])
          else (portfolio', trade_log)
      | SELL =>
          let shares_to_sell := requested_shares trade price in
          match holdings portfolio !! symbol with
          | Some held =>
              let actual_shares := Num.min shares_to_sell held in
              let '(ok, portfolio') :=
                sell portfolio symbol actual_shares price in
              if ok then
                (portfolio',
                 trade_log ++
                 [ {| LogEntry.date := current_date;
                      LogEntry.symbol := symbol;
                      LogEntry.action := SELL;
                      LogEntry.shares := actual_shares;
                      LogEntry.price := price;
                      LogEntry.amount := (actual_shares * price)%num;
                      LogEntry.weekly_change := Trade.weekly_change trade |} ])
              else (portfolio', trade_log)
          | None => state
          end
      | HOLD => state
      end
  end.

(** The drawdown loop of [_calculate_results]: the running peak and the
    largest relative decline from it so far. *)
Definition drawdown_step (acc : num * num) (state : Snapshot.t) : num * num :=
  let '(max_value, max_drawdown) := acc in
  let max_value := Num.max max_value (Snapshot.total_value state) in
  let drawdown :=
    ((max_value - Snapshot.total_value state) / max_value)%num in
  (max_value, Num.max max_drawdown drawdown).

(** The loop over [self.portfolio.history], started at
    [(initial_value, 0)]. *)
Definition drawdown_loop (initial_value : num) (history : list Snapshot.t)
  : num * num :=
  foldl drawdown_step (initial_value, Num.zero) history.

Definition is_zero (x : num) : bool :=
  match x with
  | Fin q => bool_decide (q = 0%Qc)
  | _ => false
  end.

(** [Backtester._calculate_results].

    The first snapshot is taken before any trade, so its total is the
    Python float [initial_cash + 0], and the first pass of the drawdown
    loop divides [max_value - total_value] by [max_value], all of them that
    same float: a zero initial value raises [ZeroDivisionError] there, if
    [total_return] has not raised it before.  With a non-zero initial value
    every later quotient either has numpy operands (the cash is a numpy
    scalar from the first executed trade on) or repeats the first one. *)
Definition calculate_results (self : Backtester)
  : outcome (option Results.t) :=
  match history (portfolio self) with
  | [] => Returns None
  | first :: _ =>
      let initial_value := Snapshot.total_value first in
      let final_value :=
        Snapshot.total_value (List.last (history (portfolio self)) first) in
      if is_zero initial_value then Raises ZeroDivisionError
      else
        let total_return :=
          ((final_value - initial_value) / initial_value)%num in
        let total_return_pct := (total_return * Num.of_Z 100)%num in
        let max_drawdown :=
          (drawdown_loop initial_value (history (portfolio self))).2 in
        let buy_trades :=
          filter (λ t, LogEntry.action t = BUY) (trade_log self) in
        let sell_trades :=
          filter (λ t, LogEntry.action t = SELL) (trade_log self) in
        Returns (Some
          {| Results.initial_value := initial_value;
             Results.final_value := final_value;
             Results.total_return := total_return;
             Results.total_return_pct := total_return_pct;
             Results.max_drawdown := max_drawdown;
             Results.total_trades := length (trade_log self);
             Results.buy_trades := length buy_trades;
             Results.sell_trades := length sell_trades;
             Results.portfolio_history := history (portfolio self);
             Results.trade_log := trade_log self;
             Results.final_holdings := holdings (portfolio self) |})
  end.

Section Driver.

Variable np_sqrt : num → num.

(** One pass of the [while] loop of [Backtester.run], at [current_date]. *)
Definition week_step (algorithm : StockTradingAlgorithm)
    (stock_data : list (string * Series)) (current_date : Z)
    (state : Portfolio * list LogEntry.t) : Portfolio * list LogEntry.t :=
  let window := window_data stock_data current_date in
  match window with
  | [] => state
  | _ :: _ =>
      let trades := algorithm_run np_sqrt algorithm window in
      let current_prices :=
        price_dict
          (λ prices,
             if decide (0 < length prices)%nat then iloc prices (-1) else None)
          window in
      let '(portfolio, trade_log) :=
        foldl (process_trade current_date current_prices) state trades in
      (record_state portfolio current_date current_prices, trade_log)
  end.

(** The [while i < len(all_dates) and weeks_processed < self.weeks] loop;
    [remaining] is [self.weeks - weeks_processed]. *)
Fixpoint simulate (algorithm : StockTradingAlgorithm)
    (stock_data : list (string * Series)) (dates : list Z)
    (remaining : nat) (i : nat) (state : Portfolio * list LogEntry.t)
  : Portfolio * list LogEntry.t :=
  match remaining with
  | O => state
  | S remaining' =>
      match dates !! i with
      | None => state
      | Some current_date =>
          simulate algorithm stock_data dates remaining' (i + 7)
            (week_step algorithm stock_data current_date state)
      end
  end.

(** [Backtester.run] *)
Definition run (self : Backtester) (stock_data : list (string * Series))
  : outcome (option Results.t) :=
  match stock_data with
  | [] => Returns None
  | _ :: _ =>
      let dates := all_dates stock_data in
      if decide (length dates < 14)%nat then Returns None
      else
        match dates with
        | [] => Returns None
        | start_date :: _ =>
            let current_prices :=
              price_dict (λ prices, loc prices start_date) stock_data in
            let portfolio0 :=
              record_state (portfolio self) start_date current_prices in
            let '(portfolio', trade_log') :=
              simulate (algorithm self) stock_data dates (weeks self) 7
                       (portfolio0, trade_log self) in
            calculate_results
              {| symbols := symbols self;
                 weeks := weeks self;
                 initial_cash := initial_cash self;
                 portfolio := portfolio';
                 algorithm := algorithm self;
                 trade_log := trade_log' |}
        end
  end.

End Driver.


(** ** The rest of the engine and of the algorithm *)

Module TradeSummary.
Record t : Type := mk {
  total_buys : nat;
  total_sells : nat;
  buy_value : num;
  sell_value : num;
  net_position : num
}.
End TradeSummary.

Global Instance TradeSummary_eq_dec : EqDecision TradeSummary.t.
Proof. solve_decision. Defined.

(** [TradingEngine.get_trade_summary] *)
Definition get_trade_summary (self : TradingEngine)
    (trades : list (string * Trade.t)) : TradeSummary.t :=
  match trades with
  | [] =>
      {| TradeSummary.total_buys := 0;
         TradeSummary.total_sells := 0;
         TradeSummary.buy_value := Num.zero;
         TradeSummary.sell_value := Num.zero;
         TradeSummary.net_position := Num.zero |}
  | _ :: _ =>
      let buy_trades := filter (λ t, Trade.signal t = BUY) trades.*2 in
      let sell_trades := filter (λ t, Trade.signal t = SELL) trades.*2 in
      let buy_value := sum (Trade.amount <$> buy_trades) in
      let sell_value := sum (Trade.amount <$> sell_trades) in
      {| TradeSummary.total_buys := length buy_trades;
         TradeSummary.total_sells := length sell_trades;
         TradeSummary.buy_value := buy_value;
         TradeSummary.sell_value := sell_value;
         TradeSummary.net_position := (sell_value - buy_value)%num |}
  end.

Module AlgorithmResults.
Record t : Type := mk {
  suitable_stocks : list string;
  trades : list (string * Trade.t);
  summary : TradeSummary.t
}.
End AlgorithmResults.

Module Analysis.
Record t : Type := mk {
  symbol : string;
  suitable : bool;
  predictability_score : num;
  volatility : num;
  signal : Signal;
  amount : num;
  weekly_change : option num
}.
End Analysis.

Section Algorithm.

Variable np_sqrt : num → num.

(** [StockTradingAlgorithm.run], the whole of its result. *)
Definition StockTradingAlgorithm_run (self : StockTradingAlgorithm)
    (stock_data : list (string * Series)) : AlgorithmResults.t :=
  let suitable_stocks := filter_stocks np_sqrt (selector self) stock_data in
  let filtered_stock_data :=
    omap (λ symbol, (λ prices, (symbol, prices)) <$> getitem stock_data symbol)
         suitable_stocks in
  let trades := execute_trades (engine self) filtered_stock_data in
  let summary := get_trade_summary (engine self) trades in
  {| AlgorithmResults.suitable_stocks := suitable_stocks;
     AlgorithmResults.trades := trades;
     AlgorithmResults.summary := summary |}.

(** [StockTradingAlgorithm.analyze_stock] *)
Definition analyze_stock (self : StockTradingAlgorithm) (symbol : string)
    (prices : Series) : Analysis.t :=
  let is_suitable := is_suitable np_sqrt (selector self) prices in
  let predictability :=
    calculate_predictability_score np_sqrt (selector self) prices in
  let volatility := calculate_volatility np_sqrt prices in
  let '(signal, amount, pct_change) := generate_signal (engine self) prices in
  {| Analysis.symbol := symbol;
     Analysis.suitable := is_suitable;
     Analysis.predictability_score := predictability;
     Analysis.volatility := volatility;
     Analysis.signal := signal;
     Analysis.amount := amount;
     Analysis.weekly_change := pct_change |}.

End Algorithm.

(** ** The same operations on binary64 numbers

    The operations of the ledger, the weekly change and the volatility
    score, on the binary64 numbers of the kernel, whose [+], [-], [*] and
    [/] round as those of the program do.  The history of the ledger, which
    [buy] and [sell] leave alone, is left out. *)

Set Warnings "-inexact-float".

Module Binary64.

Local Open Scope float_scope.

Record Portfolio : Type := mkPortfolio {
  cash : float;
  holdings : gmap string float
}.

(** [Portfolio.buy] *)
Definition buy (self : Portfolio) (symbol : string) (shares price : float)
  : bool * Portfolio :=
  let cost := shares * price in
  if cost <=? cash self then
    (true,
     {| cash := cash self - cost;
        holdings :=
          <[symbol := default 0 (holdings self !! symbol) + shares]>
            (holdings self) |})
  else (false, self).

(** [Portfolio.sell] *)
Definition sell (self : Portfolio) (symbol : string) (shares price : float)
  : bool * Portfolio :=
  match holdings self !! symbol with
  | Some held =>
      if shares <=? held then
        let proceeds := shares * price in
        let rest := held - shares in
        let holdings1 := <[symbol := rest]> (holdings self) in
        (true,
         {| cash := cash self + proceeds;
            holdings :=
              if rest <? 1e-10 then delete symbol holdings1 else holdings1 |})
      else (false, self)
  | None => (false, self)
  end.

(** [Portfolio.get_value] *)
Definition get_value (self : Portfolio) (current_prices : gmap string float)
  : float :=
  let holdings_value :=
    map_fold
      (λ symbol shares acc,
         acc + shares * default 0 (current_prices !! symbol))
      0 (holdings self) in
  cash self + holdings_value.

(** [TradingEngine.calculate_weekly_change], on the prices of a series. *)
Definition calculate_weekly_change (prices : list float) : option float :=
  if decide (length prices < 2)%nat then None
  else
    current_price ← last prices;
    week_ago_price ←
      (if decide (7 ≤ length prices)%nat
       then prices !! (length prices - 7)%nat
       else head prices);
    if is_nan week_ago_price || is_nan current_price
       || (abs week_ago_price <? 1e-10)
    then None
    else Some ((current_price - week_ago_price) / week_ago_price).

(** The volatility score of [calculate_predictability_score]. *)
Definition volatility_score (min_volatility max_volatility volatility : float)
  : float :=
  if (volatility <? min_volatility) || (max_volatility <? volatility) then 0
  else
    let mid_point := (min_volatility + max_volatility) / 2 in
    let distance_from_mid := abs (volatility - mid_point) in
    let max_distance := (max_volatility - min_volatility) / 2 in
    1 - distance_from_mid / max_distance.

End Binary64.
(** * Definitions used by the statements *)

(** The position of the reference price: the seventh price from the end
    (the latest one being the first), or the earliest price of a series
    of fewer than 7. *)
Definition reference_position (prices : Series) : nat :=
  if decide (7 ≤ length prices)%nat then (length prices - 7)%nat else 0%nat.

(** [1e-10] as a rational. *)
Definition tiny_q : Qc := Q2Qc (1 # 10000000000).

(** A decimal factor [z / 10^k] as a rational. *)
Definition dec_q (z : Z) (k : nat) : Qc :=
  Q2Qc (Qmake z (Pos.pow 10 (Pos.of_nat k))).

(** The prices of a flat series at level [p], [n] points long, followed by
    one point at [factor * p]. *)
Definition flat_then (n : nat) (p factor : Qc) : list num :=
  replicate n (Fin p) ++ [Fin (factor * p)%Qc].

(** A series with the dates 0, 1, 2, ... *)
Definition daily (vs : list num) : Series :=
  imap (λ i v, (Z.of_nat i, v)) vs.

(** A square root to twelve decimal places, NaN below zero: an instance
    of the parameter [np_sqrt] for the evaluations. *)
Definition sqrt_12 (x : num) : num :=
  match x with
  | Fin q =>
      if decide (q < 0)%Qc then NaN
      else
        Fin (Q2Qc (Qmake (Z.sqrt (Qnum q * 10 ^ 24 / Zpos (Qden q)))
                         (10 ^ 12)))
  | PInf => PInf
  | NInf | NaN => NaN
  end.

(** 2520 observations at 100 followed by one at 0: a series that the
    default selector accepts (its volatility is [sqrt (252 / 2520)], about
    0.316) and whose latest price is zero. *)
Definition flat_then_zero : Series :=
  daily (replicate 2520 (Num.of_Z 100) ++ [Num.of_Z 0]).

(** Two returns share a sign: both above zero or both below zero. *)
Definition same_sign (a b : num) : bool :=
  ((Num.zero <? a)%num && (Num.zero <? b)%num)
  || ((a <? Num.zero)%num && (b <? Num.zero)%num).

(** The pairs of consecutive returns. *)
Definition consecutive_pairs (returns : list num) : list (num * num) :=
  zip returns (tail returns).

(** The prices of a series are finite and not zero. *)
Definition finite_nonzero (prices : Series) : Prop :=
  Forall (λ v, ∃ q : Qc, v = Fin q ∧ q ≠ 0%Qc) (values prices).

(** The backtester whose ledger has further snapshots. *)
Definition with_snapshots (self : Backtester) (further : list Snapshot.t)
  : Backtester :=
  {| symbols := symbols self;
     weeks := weeks self;
     initial_cash := initial_cash self;
     portfolio :=
       {| cash := cash (portfolio self);
          holdings := holdings (portfolio self);
          history := history (portfolio self) ++ further |};
     algorithm := algorithm self;
     trade_log := trade_log self |}.

(** The totals of a history. *)
Definition totals (history : list Snapshot.t) : list num :=
  Snapshot.total_value <$> history.

(** The totals never decrease from one snapshot to the next. *)
Definition non_decreasing (vs : list num) : Prop :=
  ∀ (i : nat) (a b : num),
    vs !! i = Some a → vs !! S i = Some b → (a <=? b)%num = true.

(** In the words of the specification: [m] is the highest total seen up
    to the snapshot [i]. *)
Definition running_peak (vs : list Qc) (i : nat) (m : Qc) : Prop :=
  (∃ j, (j ≤ i)%nat ∧ vs !! j = Some m)
  ∧ ∀ j v, (j ≤ i)%nat → vs !! j = Some v → (v ≤ m)%Qc.

(** [d] is the relative decline of the snapshot [i] from the running
    peak. *)
Definition decline_at (vs : list Qc) (i : nat) (d : Qc) : Prop :=
  ∃ m v, running_peak vs i m ∧ vs !! i = Some v ∧ d = ((m - v) / m)%Qc.

(** The larger of two rationals. *)
Definition qmax (a b : Qc) : Qc := if decide (a < b)%Qc then b else a.

(** The drawdown loop on the totals alone. *)
Definition drawdown_on_totals (acc : num * num) (vs : list num) : num * num :=
  foldl (λ acc v,
           let m := Num.max acc.1 v in
           (m, Num.max acc.2 ((m - v) / m)%num))
        acc vs.

(** A snapshot of an empty ledger holding [total] in cash. *)
Definition cash_snapshot (date total : Z) : Snapshot.t :=
  {| Snapshot.date := date;
     Snapshot.cash := Num.of_Z total;
     Snapshot.holdings_value := Num.zero;
     Snapshot.total_value := Num.of_Z total;
     Snapshot.holdings := ∅ |}.

(** A backtester after three weeks, with the totals 100, 120, 90, 110. *)
Definition drawdown_example : Backtester :=
  {| symbols := [];
     weeks := 3;
     initial_cash := Num.of_Z 100;
     portfolio :=
       {| cash := Num.of_Z 110;
          holdings := ∅;
          history :=
            [cash_snapshot 0 100; cash_snapshot 7 120;
             cash_snapshot 14 90; cash_snapshot 21 110] |};
     algorithm := StockTradingAlgorithm_default;
     trade_log := [] |}.

Definition drawdown_example_results : Results.t :=
  {| Results.initial_value := Num.of_Z 100;
     Results.final_value := Num.of_Z 110;
     Results.total_return := Num.dec 1 1;
     Results.total_return_pct := Num.of_Z 10;
     Results.max_drawdown := Num.dec 25 2;
     Results.total_trades := 0;
     Results.buy_trades := 0;
     Results.sell_trades := 0;
     Results.portfolio_history := history (portfolio drawdown_example);
     Results.trade_log := [];
     Results.final_holdings := ∅ |}.

(** The cash is a rational that is not negative, and every stored balance
    is a rational of at least [1e-10]. *)
Definition valid_ledger (self : Portfolio) : Prop :=
  (∃ c : Qc, cash self = Fin c ∧ (0 ≤ c)%Qc)
  ∧ ∀ symbol held, holdings self !! symbol = Some held →
      ∃ q : Qc, held = Fin q ∧ (tiny_q ≤ q)%Qc.

(** A call of the ledger with rational arguments. *)
Inductive Call : Type :=
  | CallBuy (symbol : string) (shares price : Qc)
  | CallSell (symbol : string) (shares price : Qc).

Definition apply_call (self : Portfolio) (call : Call) : Portfolio :=
  match call with
  | CallBuy symbol shares price =>
      (buy self symbol (Fin shares) (Fin price)).2
  | CallSell symbol shares price =>
      (sell self symbol (Fin shares) (Fin price)).2
  end.

(** A purchase of at least [1e-10] shares; a sale of a number of shares
    and at a price that are not negative. *)
Definition admissible (call : Call) : Prop :=
  match call with
  | CallBuy _ shares _ => (tiny_q ≤ shares)%Qc
  | CallSell _ shares price => (0 ≤ shares)%Qc ∧ (0 ≤ price)%Qc
  end.

(** The number of distinct timestamps over all the series. *)
Definition distinct_timestamps (stock_data : list (string * Series)) : nat :=
  size (list_to_set (C := gset Z) (stock_data ≫= (λ kv, index kv.2))).

(** Fourteen daily observations at 100, for one symbol. *)
Definition two_weeks : list (string * Series) :=
  [("A"%string, daily (replicate 14 (Num.of_Z 100)))].

(** Thirty-six daily observations of one symbol, rising slowly and
    dropping to 110 on the last day. *)
Definition five_weeks : list (string * Series) :=
  [("A"%string,
    daily (Num.of_Z <$>
      [100; 101; 102; 101; 103; 104; 105; 104; 106; 107; 108; 107;
       109; 110; 111; 110; 112; 113; 114; 113; 115; 116; 117; 116;
       118; 119; 120; 119; 121; 122; 123; 122; 124; 125; 126; 110]))].

(** The results of a call that returned some, and empty results for any
    other outcome. *)
Definition results_of (result : outcome (option Results.t)) : Results.t :=
  match result with
  | Returns (Some r) => r
  | _ =>
      {| Results.initial_value := NaN;
         Results.final_value := NaN;
         Results.total_return := NaN;
         Results.total_return_pct := NaN;
         Results.max_drawdown := NaN;
         Results.total_trades := 0;
         Results.buy_trades := 0;
         Results.sell_trades := 0;
         Results.portfolio_history := [];
         Results.trade_log := [];
         Results.final_holdings := ∅ |}
  end.

(** The results of the default backtest of [five_weeks] with 10000 in
    cash, evaluated. *)
Definition five_weeks_results : Results.t :=
  Eval vm_compute in
    results_of (run sqrt_12 (Backtester_init ["A"%string] 52 (Num.of_Z 10000))
                    five_weeks).


(** The results of the default backtest over 360 weeks of [flat_then_zero]
    with 10000 in cash, evaluated: the last week is the one of the zero
    price. *)
Definition flat_then_zero_results : Results.t :=
  Eval vm_compute in
    results_of (run sqrt_12 (Backtester_init ["A"%string] 360 (Num.of_Z 10000))
                    [("A"%string, flat_then_zero)]).
(** What a trade made of the series [prices] holds. *)
Definition trade_of (self : TradingEngine) (prices : Series) (trade : Trade.t)
  : Prop :=
  ∃ pct latest,
    calculate_weekly_change prices = Some pct
    ∧ last (values prices) = Some latest
    ∧ Trade.weekly_change trade = Some pct
    ∧ Trade.price trade = Some latest
    ∧ ((Trade.signal trade = BUY
        ∧ Trade.amount trade = buy_amount self
        ∧ (pct <=? buy_threshold self)%num = true)
       ∨ (Trade.signal trade = SELL
          ∧ Trade.amount trade = sell_amount self
          ∧ (pct <=? buy_threshold self)%num = false
          ∧ (pct >=? sell_threshold self)%num = true))
    ∧ Trade.shares trade
      = if truthy latest && (Num.abs latest >? tiny)%num
        then (Trade.amount trade / latest)%num
        else Num.zero.

(** Seven observations at 100 followed by one at [latest]. *)
Definition week_then (latest : Z) : Series :=
  daily (Num.of_Z <$> [100; 100; 100; 100; 100; 100; 100; latest]).

(** A drop of 6%, a rise of 12% and a rise of 3%. *)
Definition three_stocks : list (string * Series) :=
  [("BUY_STOCK"%string, week_then 94);
   ("SELL_STOCK"%string, week_then 112);
   ("HOLD_STOCK"%string, week_then 103)].

(** The last seven rows of a series, or all of them when it has fewer. *)
Definition last_week (prices : Series) : Series :=
  drop (length prices - 7) prices.

(** No debt and no short position: the cash is a rational that is not
    negative and every stored balance is a rational above zero. *)
Definition solvent (cash : num) (holdings : gmap string num) : Prop :=
  (∃ c : Qc, cash = Fin c ∧ (0 ≤ c)%Qc)
  ∧ ∀ symbol held, holdings !! symbol = Some held →
      ∃ q : Qc, held = Fin q ∧ (0 < q)%Qc.

Definition solvent_snapshot (state : Snapshot.t) : Prop :=
  solvent (Snapshot.cash state) (Snapshot.holdings state).

(** Every price of every series is a rational above zero. *)
Definition positive_prices (stock_data : list (string * Series)) : Prop :=
  ∀ symbol prices row,
    (symbol, prices) ∈ stock_data → row ∈ prices →
    ∃ q : Qc, row.2 = Fin q ∧ (0 < q)%Qc.

(** Every price of the dict is a rational above zero. *)
Definition positive_dict (current_prices : gmap string num) : Prop :=
  ∀ symbol v, current_prices !! symbol = Some v →
    ∃ q : Qc, v = Fin q ∧ (0 < q)%Qc.

(** The two amounts of the engine are rationals above zero. *)
Definition positive_amounts (self : TradingEngine) : Prop :=
  ∃ b s : Qc,
    buy_amount self = Fin b ∧ sell_amount self = Fin s
    ∧ (0 < b)%Qc ∧ (0 < s)%Qc.

(** An entry of the trade log of an engine: positive rational shares and
    price whose product is the amount; the amount of a purchase is
    [buy_amount], that of a sale is at most [sell_amount]. *)
Definition entry_of (self : TradingEngine) (entry : LogEntry.t) : Prop :=
  ∃ shares price amount : Qc,
    LogEntry.shares entry = Fin shares
    ∧ LogEntry.price entry = Fin price
    ∧ LogEntry.amount entry = Fin amount
    ∧ (0 < shares)%Qc ∧ (0 < price)%Qc ∧ (shares * price = amount)%Qc
    ∧ ((LogEntry.action entry = BUY ∧ buy_amount self = Fin amount)
       ∨ (LogEntry.action entry = SELL
          ∧ ∃ s : Qc, sell_amount self = Fin s ∧ (amount ≤ s)%Qc)).

(** The number of passes of the weekly loop: one for each of the
    positions 7, 14, ... of the dates, and at most [weeks]. *)
Definition weeks_run (weeks : nat) (dates : list Z) : nat :=
  Nat.min weeks ((length dates - 1) / 7).

(** What the loops of a run keep: the ledger is solvent, so is every
    snapshot, and every entry of the log is an entry of the engine. *)
Definition sound (algorithm : StockTradingAlgorithm)
    (state : Portfolio * list LogEntry.t) : Prop :=
  solvent (cash state.1) (holdings state.1)
  ∧ Forall solvent_snapshot (history state.1)
  ∧ Forall (entry_of (engine algorithm)) state.2.

(** The last snapshot holds the cash and the balances of the ledger. *)
Definition recorded (state : Portfolio * list LogEntry.t) : Prop :=
  ∃ snapshot,
    last (history state.1) = Some snapshot
    ∧ Snapshot.holdings snapshot = holdings state.1
    ∧ Snapshot.cash snapshot = cash state.1.

(** The data cut after [date]: every series without its rows dated after
    [date]. *)
Definition up_to (date : Z) (stock_data : list (string * Series))
  : list (string * Series) :=
  prod_map id (filter (λ row : Z * num, row.1 ≤ date)) <$> stock_data.

(** Twenty observations at 100 followed by one at 94, for one symbol: a
    drop of 6% in a series that is too short for the default selector. *)
Definition short_drop : list (string * Series) :=
  [("A"%string, daily (flat_then 20 (Qc_of_Z 100) (dec_q 94 2)))].
(** * Properties *)

(** ** Rational arithmetic

    Goals on [Qc] are sent to [lra], [nra] and [field] on [Q]. *)

Lemma Qc_eq_Qeq (x y : Qc) : x = y ↔ (this x == this y)%Q.
Proof. split; [intros ->; reflexivity | apply Qc_is_canon]. Qed.

Ltac qc_unfold :=
  repeat match goal with
  | H : @eq Qc _ _ |- _ => apply Qc_eq_Qeq in H
  | H : ¬ @eq Qc _ _ |- _ => rewrite Qc_eq_Qeq in H
  | |- @eq Qc _ _ => apply Qc_is_canon
  | |- ¬ @eq Qc _ _ => rewrite Qc_eq_Qeq
  end;
  unfold Qcle, Qclt, Qcminus, Qcdiv, Qcplus, Qcmult, Qcopp, Qcinv, Q2Qc in *;
  cbn [this] in *;
  repeat match goal with
  | H : context [Qred ?q] |- _ => setoid_rewrite (Qred_correct q) in H
  | |- context [Qred ?q] => setoid_rewrite (Qred_correct q)
  end;
  unfold Qdiv in *;
  repeat match goal with
  | H : context [Qinv (Qmake (Zpos ?n) ?d)] |- _ =>
      change (Qinv (Qmake (Zpos n) d)) with (Qmake (Zpos d) n) in H
  | |- context [Qinv (Qmake (Zpos ?n) ?d)] =>
      change (Qinv (Qmake (Zpos n) d)) with (Qmake (Zpos d) n)
  end.

Ltac qc_lra := qc_unfold; lra.
Ltac qc_nra := qc_unfold; nra.

(** A closed equation or comparison, decided by evaluation. *)
Ltac by_compute := apply (bool_decide_unpack _); vm_compute; exact I.

(** ** Arithmetic of [num] *)

Lemma add_fin (a b : Qc) : (Fin a + Fin b)%num = Fin (a + b)%Qc.
Proof. reflexivity. Qed.

Lemma sub_fin (a b : Qc) : (Fin a - Fin b)%num = Fin (a - b)%Qc.
Proof. reflexivity. Qed.

Lemma mul_fin (a b : Qc) : (Fin a * Fin b)%num = Fin (a * b)%Qc.
Proof. reflexivity. Qed.

Lemma ltb_fin (a b : Qc) : (Fin a <? Fin b)%num = bool_decide (a < b)%Qc.
Proof. reflexivity. Qed.

Lemma leb_fin (a b : Qc) : (Fin a <=? Fin b)%num = bool_decide (a ≤ b)%Qc.
Proof. reflexivity. Qed.

Lemma abs_fin (q : Qc) :
  Num.abs (Fin q) = Fin (if decide (q < 0)%Qc then - q else q)%Qc.
Proof. unfold Num.abs. by case_decide. Qed.

Lemma div_fin (a b : Qc) : b ≠ 0%Qc → (Fin a / Fin b)%num = Fin (a / b)%Qc.
Proof. intros Hb. simpl. by rewrite decide_False. Qed.

Lemma of_Z_1 : Num.one = Fin 1%Qc.
Proof. reflexivity. Qed.

Lemma of_Z_2 : Num.of_Z 2 = Fin (Q2Qc 2).
Proof. reflexivity. Qed.

Lemma mul_nan_l (x : num) : (NaN * x)%num = NaN.
Proof. by destruct x. Qed.

Lemma mul_nan_r (x : num) : (x * NaN)%num = NaN.
Proof. by destruct x. Qed.

Lemma add_comm (x y : num) : (x + y)%num = (y + x)%num.
Proof. destruct x, y; simpl; try done. f_equal. ring. Qed.

Lemma add_assoc (x y z : num) : (x + (y + z))%num = (x + y + z)%num.
Proof. destruct x, y, z; simpl; try done. f_equal. ring. Qed.

Lemma add_zero_r (x : num) : (x + Num.zero)%num = x.
Proof. destruct x; simpl; try done. f_equal. apply Qcplus_0_r. Qed.

Lemma tiny_eq : tiny = Fin tiny_q.
Proof. reflexivity. Qed.

Lemma tiny_q_pos : (0 < tiny_q)%Qc.
Proof. by_compute. Qed.

Lemma abs_not_tiny (p : Qc) :
  (tiny_q ≤ p)%Qc → (Num.abs (Fin p) <? tiny)%num = false.
Proof.
  intros Hp. pose proof tiny_q_pos as Ht.
  unfold Num.abs. rewrite decide_False by (apply Qcle_not_lt; qc_lra).
  rewrite tiny_eq. simpl. apply bool_decide_eq_false. by apply Qcle_not_lt.
Qed.

Lemma Qc_sign_cases (q : Qc) : (q < 0)%Qc ∨ q = 0%Qc ∨ (0 < q)%Qc.
Proof.
  destruct (Qclt_le_dec q 0%Qc) as [?|Hle]; [by left|].
  destruct (Qc_eq_dec q 0%Qc) as [?|Hne]; [by right; left|].
  right; right. apply Qcle_lt_or_eq in Hle as [?|?]; [done|congruence].
Qed.

Lemma signed_inf_pos (q : Qc) : (0 < q)%Qc → Num.signed_inf q = PInf.
Proof.
  intros Hq. unfold Num.signed_inf.
  destruct (q ?= 0)%Qc eqn:Hc; [| |done]; exfalso.
  - apply Qceq_alt in Hc. qc_lra.
  - apply Qclt_alt in Hc. qc_lra.
Qed.

Lemma signed_inf_neg (q : Qc) : (q < 0)%Qc → Num.signed_inf q = NInf.
Proof.
  intros Hq. unfold Num.signed_inf.
  destruct (q ?= 0)%Qc eqn:Hc; [|done|]; exfalso.
  - apply Qceq_alt in Hc. qc_lra.
  - apply Qcgt_alt in Hc. qc_lra.
Qed.

Lemma signed_inf_zero : Num.signed_inf 0%Qc = NaN.
Proof. reflexivity. Qed.

Lemma ltb_irrefl (x : num) : (x <? x)%num = false.
Proof.
  destruct x; try done. rewrite ltb_fin.
  apply bool_decide_eq_false_2. intros H. qc_lra.
Qed.

Lemma ltb_leb (x y : num) : (x <? y)%num = true → (x <=? y)%num = true.
Proof.
  destruct x, y; try done. rewrite ltb_fin, leb_fin.
  intros H%bool_decide_eq_true_1. apply bool_decide_eq_true_2. qc_lra.
Qed.

Lemma ltb_not_nan_r (x y : num) : (x <? y)%num = true → (y <=? y)%num = true.
Proof.
  destruct x, y; try done; intros _; rewrite leb_fin;
    apply bool_decide_eq_true_2; qc_lra.
Qed.

Lemma leb_trans (x y z : num) :
  (x <=? y)%num = true → (y <=? z)%num = true → (x <=? z)%num = true.
Proof.
  destruct x, y, z; try done. rewrite !leb_fin.
  intros H1%bool_decide_eq_true_1 H2%bool_decide_eq_true_1.
  apply bool_decide_eq_true_2. qc_lra.
Qed.

Lemma leb_antisym (x y : num) :
  (x <=? y)%num = true → (x <? y)%num = false → x = y.
Proof.
  destruct x as [a| | |], y as [b| | |]; try done.
  rewrite leb_fin, ltb_fin.
  intros H1%bool_decide_eq_true_1 H2%bool_decide_eq_false_1.
  f_equal. qc_lra.
Qed.

Lemma max_same (x : num) : Num.max x x = x.
Proof. unfold Num.max, Num.gtb. by rewrite ltb_irrefl. Qed.

Lemma max_of_leb (x y : num) : (x <=? y)%num = true → Num.max x y = y.
Proof.
  intros Hle. unfold Num.max, Num.gtb.
  destruct (x <? y)%num eqn:Hlt; [done|]. by apply leb_antisym.
Qed.

Lemma leb_max_l (x y : num) :
  (x <=? x)%num = true → (x <=? Num.max x y)%num = true.
Proof.
  intros Hx. unfold Num.max, Num.gtb.
  destruct (x <? y)%num eqn:Hlt; [by apply ltb_leb | done].
Qed.

Lemma max_not_nan (x y : num) :
  (x <=? x)%num = true → (Num.max x y <=? Num.max x y)%num = true.
Proof.
  intros Hx. unfold Num.max, Num.gtb.
  destruct (x <? y)%num eqn:Hlt; [by apply ltb_not_nan_r in Hlt | done].
Qed.

Lemma max_fin (a b : Qc) : Num.max (Fin a) (Fin b) = Fin (qmax a b).
Proof.
  unfold Num.max, Num.gtb, qmax. rewrite ltb_fin.
  by destruct (decide (a < b)%Qc);
    rewrite ?bool_decide_eq_true_2, ?bool_decide_eq_false_2 by done.
Qed.

Lemma qmax_l (a b : Qc) : (a ≤ qmax a b)%Qc.
Proof. unfold qmax. case_decide; qc_lra. Qed.

Lemma qmax_r (a b : Qc) : (b ≤ qmax a b)%Qc.
Proof. unfold qmax. case_decide; qc_lra. Qed.

Lemma qmax_cases (a b : Qc) : qmax a b = a ∨ qmax a b = b.
Proof. unfold qmax. case_decide; auto. Qed.

(** ** The ledger contract *)

Section LedgerContract.

Variables (self : Portfolio) (symbol : string) (shares price : num).

Lemma buy_success_iff :
    (buy self symbol shares price).1 = true
    ↔ (shares * price <=? cash self)%num = true.
Proof. unfold buy. destruct (_ <=? _)%num; simpl; split; done. Qed.

Lemma buy_failure_unchanged :
    (buy self symbol shares price).1 = false →
    (buy self symbol shares price).2 = self.
Proof. unfold buy. destruct (_ <=? _)%num; simpl; done. Qed.

End LedgerContract.

Section SellContract.

Variables (self : Portfolio) (symbol : string) (shares price : num).

Lemma sell_success_iff :
    (sell self symbol shares price).1 = true
    ↔ ∃ held, holdings self !! symbol = Some held
              ∧ (held >=? shares)%num = true.
Proof.
    unfold sell. destruct (holdings self !! symbol) as [held|] eqn:Hl.
    - destruct (held >=? shares)%num eqn:Hge; simpl.
      + split; [eauto | done].
      + split; [done | intros (h & [= <-] & ?); congruence].
    - simpl. split; [done | intros (h & ? & _); done].
Qed.

Lemma sell_failure_unchanged :
    (sell self symbol shares price).1 = false →
    (sell self symbol shares price).2 = self.
Proof.
    unfold sell. destruct (holdings self !! symbol) as [held|]; [|done].
    destruct (held >=? shares)%num; simpl; done.
Qed.

Lemma sell_success_state held :
    holdings self !! symbol = Some held →
    (held >=? shares)%num = true →
    let after := (sell self symbol shares price).2 in
    cash after = (cash self + shares * price)%num
    ∧ holdings after !! symbol =
        (if (held - shares <? tiny)%num then None else Some (held - shares)%num)
    ∧ (∀ other, other ≠ symbol → holdings after !! other = holdings self !! other)
    ∧ history after = history self.
Proof.
    intros Hl Hge. unfold sell. rewrite Hl, Hge. simpl.
    repeat split.
    - destruct (_ <? _)%num; by simplify_map_eq.
    - intros other Hne. destruct (_ <? _)%num; by simplify_map_eq.
Qed.

End SellContract.

Lemma buy_success_state self symbol shares price :
  (shares * price <=? cash self)%num = true →
  let after := (buy self symbol shares price).2 in
  cash after = (cash self - shares * price)%num
  ∧ holdings after !! symbol =
      Some (default Num.zero (holdings self !! symbol) + shares)%num
  ∧ (∀ other, other ≠ symbol → holdings after !! other = holdings self !! other)
  ∧ history after = history self.
Proof.
  intros Hle. unfold buy. rewrite Hle. simpl.
  repeat split; [by simplify_map_eq|].
  intros other Hne. by simplify_map_eq.
Qed.

(** C1.  [buy] succeeds exactly when [shares * price <= cash]; on success
    it takes the cost from the cash and adds the shares to the symbol's
    balance, starting from 0 when the symbol has no entry.  [sell] succeeds
    exactly when the symbol has an entry of at least [shares]; on success it
    adds [shares * price] to the cash, lowers the balance, and removes the
    entry when what remains is below [1e-10].  A call that fails returns
    false and leaves the ledger as it was. *)
Theorem ledger_contract :
  ∀ (self : Portfolio) (symbol : string) (shares price : num),
    let b := buy self symbol shares price in
    let s := sell self symbol shares price in
    (b.1 = true ↔ (shares * price <=? cash self)%num = true)
    ∧ (b.1 = true →
         cash b.2 = (cash self - shares * price)%num
         ∧ holdings b.2 !! symbol =
             Some (default Num.zero (holdings self !! symbol) + shares)%num
         ∧ (∀ other, other ≠ symbol →
              holdings b.2 !! other = holdings self !! other))
    ∧ (b.1 = false → b.2 = self)
    ∧ (s.1 = true ↔ ∃ held, holdings self !! symbol = Some held
                            ∧ (held >=? shares)%num = true)
    ∧ (∀ held, holdings self !! symbol = Some held → s.1 = true →
         cash s.2 = (cash self + shares * price)%num
         ∧ holdings s.2 !! symbol =
             (if (held - shares <? tiny)%num then None
              else Some (held - shares)%num)
         ∧ (∀ other, other ≠ symbol →
              holdings s.2 !! other = holdings self !! other))
    ∧ (s.1 = false → s.2 = self).
Proof.
  intros self symbol shares price b s. subst b s.
  split; [apply buy_success_iff|].
  split.
  { intros Hb. apply buy_success_iff in Hb.
    destruct (buy_success_state self symbol shares price Hb) as (?&?&?&?).
    done. }
  split; [apply buy_failure_unchanged|].
  split; [apply sell_success_iff|].
  split; [|apply sell_failure_unchanged].
  intros held Hl Hs. apply sell_success_iff in Hs as (h & Hh & Hge).
  assert (h = held) as -> by congruence.
  destruct (sell_success_state self symbol shares price held Hl Hge)
    as (?&?&?&?).
  done.
Qed.
(** ** The value of the holdings *)

Lemma holdings_total_empty (current_prices : gmap string num) :
  holdings_total ∅ current_prices = Num.zero.
Proof. unfold holdings_total. by rewrite map_fold_empty. Qed.

Lemma holdings_total_insert (holdings current_prices : gmap string num)
    (symbol : string) (shares : num) :
  holdings !! symbol = None →
  holdings_total (<[symbol := shares]> holdings) current_prices
  = (holdings_total holdings current_prices
     + shares * default Num.zero (current_prices !! symbol))%num.
Proof.
  intros Hfresh. unfold holdings_total.
  rewrite map_fold_insert_L; [done| |done].
  intros j1 j2 z1 z2 y _ _ _.
  rewrite <-!add_assoc. f_equal. apply add_comm.
Qed.

(** ** The ledger invariant *)

Lemma buy_valid (self : Portfolio) (symbol : string) (s p : Qc) :
  valid_ledger self → (tiny_q ≤ s)%Qc →
  valid_ledger (buy self symbol (Fin s) (Fin p)).2.
Proof.
  intros [(c & Hc & Hc0) Hheld] Hs. pose proof tiny_q_pos as Ht.
  unfold buy. rewrite Hc, mul_fin, leb_fin.
  destruct (bool_decide (s * p ≤ c)%Qc) eqn:Hle; cbn [snd];
    [|by split; [exists c|]].
  apply bool_decide_eq_true_1 in Hle. split.
  - exists (c - s * p)%Qc. rewrite sub_fin. split; [done|]. qc_lra.
  - cbn [holdings]. intros other held Hother.
    destruct (decide (other = symbol)) as [->|Hne].
    + rewrite lookup_insert_eq in Hother. injection Hother as <-.
      destruct (holdings self !! symbol) as [h|] eqn:Hh.
      * destruct (Hheld symbol h Hh) as (q & -> & Hq). simpl default.
        rewrite add_fin. exists (q + s)%Qc. split; [done|]. qc_lra.
      * simpl default. change Num.zero with (Fin 0%Qc). rewrite add_fin.
        exists (0 + s)%Qc. split; [done|]. qc_lra.
    + rewrite lookup_insert_ne in Hother by done. by apply (Hheld other).
Qed.

Lemma sell_valid (self : Portfolio) (symbol : string) (s p : Qc) :
  valid_ledger self → (0 ≤ s)%Qc → (0 ≤ p)%Qc →
  valid_ledger (sell self symbol (Fin s) (Fin p)).2.
Proof.
  intros [(c & Hc & Hc0) Hheld] Hs Hp.
  unfold sell. destruct (holdings self !! symbol) as [h|] eqn:Hh;
    [|by split; [exists c|]].
  destruct (Hheld symbol h Hh) as (q & -> & Hq).
  unfold Num.geb. rewrite leb_fin.
  destruct (bool_decide (s ≤ q)%Qc) eqn:Hle; cbn [snd];
    [|by split; [exists c|]].
  apply bool_decide_eq_true_1 in Hle. split.
  - exists (c + s * p)%Qc. cbn [cash]. rewrite Hc, mul_fin, add_fin.
    split; [done|]. qc_nra.
  - cbn [holdings]. rewrite sub_fin, tiny_eq, ltb_fin.
    intros other held Hother.
    destruct (decide (q - s < tiny_q)%Qc) as [Hdust|Hkept].
    + rewrite bool_decide_eq_true_2 in Hother by done.
      rewrite delete_insert_eq in Hother.
      apply lookup_delete_Some in Hother as [_ Hother].
      by apply (Hheld other).
    + rewrite bool_decide_eq_false_2 in Hother by done.
      destruct (decide (other = symbol)) as [->|Hne].
      * rewrite lookup_insert_eq in Hother. injection Hother as <-.
        exists (q - s)%Qc. split; [done|]. by apply Qcnot_lt_le.
      * rewrite lookup_insert_ne in Hother by done. by apply (Hheld other).
Qed.

Lemma apply_call_valid (self : Portfolio) (call : Call) :
  valid_ledger self → admissible call → valid_ledger (apply_call self call).
Proof.
  intros Hvalid Hcall. destruct call as [symbol s p|symbol s p]; simpl.
  - by apply buy_valid.
  - destruct Hcall. by apply sell_valid.
Qed.

Lemma calls_valid (calls : list Call) (self : Portfolio) :
  valid_ledger self → Forall admissible calls →
  valid_ledger (foldl apply_call self calls).
Proof.
  revert self. induction calls as [|call calls IH]; intros self Hvalid Hcalls;
    [done|].
  apply Forall_cons in Hcalls as [Hcall Hcalls]. simpl.
  apply IH; [by apply apply_call_valid | done].
Qed.



(** ** Selling and buying back *)

(** C3, as the code has it.  On a ledger whose cash is a rational that is
    not negative, a successful sale of [shares] at [price] followed by a
    purchase of the same shares at the same price is never refused, and it
    gives back the history and the balance of every other symbol exactly.
    The cash comes back as [(cash + shares * price) - shares * price] and
    the balance of the symbol as [(held - shares) + shares], or as [shares]
    itself when the sale removed the entry because [held - shares] was
    below [1e-10]: the earlier values up to the rounding of those
    operations, an error that grows with the amounts and is not bounded by
    [1e-9]. *)
Theorem sell_then_buy_back :
  ∀ (self : Portfolio) (symbol : string) (c h s p : Qc),
    cash self = Fin c → (0 ≤ c)%Qc →
    holdings self !! symbol = Some (Fin h) →
    (sell self symbol (Fin s) (Fin p)).1 = true →
    let sold := (sell self symbol (Fin s) (Fin p)).2 in
    let back := buy sold symbol (Fin s) (Fin p) in
    back.1 = true
    ∧ cash back.2 = (cash self + Fin s * Fin p - Fin s * Fin p)%num
    ∧ history back.2 = history self
    ∧ (∀ other, other ≠ symbol →
         holdings back.2 !! other = holdings self !! other)
    ∧ holdings back.2 !! symbol
      = Some (if (Fin h - Fin s <? tiny)%num then Fin s
              else (Fin h - Fin s + Fin s)%num).
Proof.
  intros self symbol c h s p Hc Hc0 Hh Hok sold back.
  apply sell_success_iff in Hok as (held & Hheld & Hge).
  assert (held = Fin h) as -> by congruence.
  destruct (sell_success_state self symbol (Fin s) (Fin p) (Fin h) Hh Hge)
    as (Hcash & Hsym & Hother & Hhist).
  fold sold in Hcash, Hsym, Hother, Hhist.
  assert ((Fin s * Fin p <=? cash sold)%num = true) as Hafford.
  { rewrite Hcash, Hc, mul_fin, add_fin, leb_fin.
    apply bool_decide_eq_true_2. qc_lra. }
  destruct (buy_success_state sold symbol (Fin s) (Fin p) Hafford)
    as (Hcash' & Hsym' & Hother' & Hhist').
  fold back in Hcash', Hsym', Hother', Hhist'.
  split; [by apply buy_success_iff|].
  split; [by rewrite Hcash', Hcash|].
  split; [by rewrite Hhist', Hhist|].
  split; [intros other Hne; by rewrite Hother', Hother|].
  rewrite Hsym', Hsym. f_equal.
  destruct (Fin h - Fin s <? tiny)%num; cbn [default from_option id].
  - change Num.zero with (Fin 0%Qc). rewrite add_fin. f_equal. ring.
  - reflexivity.
Qed.

Lemma sell_then_buy_back_witness :
  let self := {| cash := Num.of_Z 50;
                 holdings := {[ "A"%string := Num.dec 100000000005 11 ]};
                 history := [] |} in
  let sold := (sell self "A" Num.one (Num.of_Z 20)).2 in
  let back := buy sold "A" Num.one (Num.of_Z 20) in
  (0 ≤ Q2Qc (inject_Z 50))%Qc
  ∧ (sell self "A" Num.one (Num.of_Z 20)).1 = true
  ∧ holdings sold !! "A"%string = None
  ∧ back.1 = true
  ∧ holdings back.2 !! "A"%string = Some Num.one.
Proof.
  intros self sold back.
  assert (0 ≤ Q2Qc (inject_Z 50))%Qc as Hc0 by by_compute.
  assert ((sell self "A" Num.one (Num.of_Z 20)).1 = true) as Hok
    by by_compute.
  destruct (sell_then_buy_back self "A" (Q2Qc (inject_Z 50))
              (dec_q 100000000005 11) (Q2Qc (inject_Z 1))
              (Q2Qc (inject_Z 20)) eq_refl Hc0 eq_refl Hok)
    as (Hback & _).
  split; [exact Hc0|]. split; [exact Hok|]. split; [by_compute|].
  split; [exact Hback | by_compute].
Defined.

(** C3 as stated fails in two ways.  On a ledger with a negative cash the
    purchase is refused after the sale: with -5 in cash and one share, the
    sale of the share at the price 1 leaves -4 in cash and no entry, and
    the purchase of one share at the price 1 is refused, so the cash stays
    1 above what it was and the share is gone.  And on binary64 numbers
    the cash does not come back within [1e-9]: with
    134217720.12345679 in cash and 20 shares, selling 10 shares at the
    price 1 and buying them back gives 134217720.12345678, which is
    [1.49e-8] below. *)
Lemma sell_then_buy_back_fails :
  (let self := {| cash := Num.of_Z (-5);
                  holdings := {[ "A"%string := Num.one ]};
                  history := [] |} in
   let sold := sell self "A" Num.one Num.one in
   let back := buy sold.2 "A" Num.one Num.one in
   sold.1 = true
   ∧ back.1 = false
   ∧ cash back.2 = Num.of_Z (-4)
   ∧ holdings back.2 !! "A"%string = None)
  ∧ (let self := {| Binary64.cash := 134217720.12345679;
                    Binary64.holdings := {[ "A"%string := 20%float ]} |} in
     let sold := Binary64.sell self "A" 10 1 in
     let back := Binary64.buy sold.2 "A" 10 1 in
     sold.1 = true
     ∧ back.1 = true
     ∧ Binary64.holdings back.2 = Binary64.holdings self
     ∧ Binary64.cash back.2 = 134217720.12345678%float
     ∧ (1e-9 <? Binary64.cash self - Binary64.cash back.2)%float = true).
Proof.
  split.
  - repeat split; by_compute.
  - repeat split; vm_compute; reflexivity.
Qed.
(** ** The weekly change *)

Lemma length_values (prices : Series) : length (values prices) = length prices.
Proof. unfold values. by rewrite length_fmap. Qed.

Lemma iloc_last (prices : Series) :
  (0 < length prices)%nat → iloc prices (-1) = last (values prices).
Proof.
  intros Hn. unfold iloc.
  rewrite decide_False by lia. rewrite decide_True by lia.
  rewrite last_lookup, length_values. f_equal. lia.
Qed.

Lemma iloc_seventh_from_end (prices : Series) :
  (7 ≤ length prices)%nat →
  iloc prices (-7) = values prices !! (length prices - 7)%nat.
Proof.
  intros Hn. unfold iloc.
  rewrite decide_False by lia. rewrite decide_True by lia.
  f_equal. lia.
Qed.

Lemma iloc_first (prices : Series) :
  (0 < length prices)%nat → iloc prices 0 = head (values prices).
Proof.
  intros Hn. unfold iloc. rewrite decide_True by lia.
  by rewrite head_lookup.
Qed.

Lemma weekly_change_endpoints (prices : Series) :
  (2 ≤ length prices)%nat →
  ∃ latest earlier,
    last (values prices) = Some latest
    ∧ values prices !! reference_position prices = Some earlier.
Proof.
  intros Hn.
  destruct (last (values prices)) as [latest|] eqn:Hlast.
  2: { apply last_None in Hlast. apply (f_equal length) in Hlast.
       rewrite length_values in Hlast. simpl in Hlast. lia. }
  destruct (lookup_lt_is_Some_2 (values prices) (reference_position prices))
    as [earlier Hearlier].
  { rewrite length_values. unfold reference_position. case_decide; lia. }
  eauto.
Qed.

Lemma weekly_change_of_endpoints (prices : Series) (latest earlier : num) :
  (2 ≤ length prices)%nat →
  last (values prices) = Some latest →
  values prices !! reference_position prices = Some earlier →
  calculate_weekly_change prices =
    if Num.isnan earlier || Num.isnan latest || (Num.abs earlier <? tiny)%num
    then None
    else Some ((latest - earlier) / earlier)%num.
Proof.
  intros Hn Hlast Hearlier. unfold calculate_weekly_change.
  rewrite decide_False by lia.
  rewrite iloc_last, Hlast by lia. simpl.
  unfold reference_position in Hearlier.
  destruct (decide (7 ≤ length prices)%nat).
  - rewrite iloc_seventh_from_end, Hearlier by done. done.
  - rewrite iloc_first, head_lookup, Hearlier by lia. done.
Qed.

(** C4, as the code has it.  The weekly change of a series of fewer than 2
    points is null.  Otherwise the latest price is compared with the
    seventh price from the end, by position, when the series has at least 7
    points, and with the earliest price when it has fewer; the result is
    null when one of the two is NaN or the magnitude of the earlier one is
    below [1e-10], and [(latest - earlier) / earlier] in every other case,
    an infinite endpoint included. *)
Theorem weekly_change_by_position :
  ∀ prices : Series,
    ((length prices < 2)%nat → calculate_weekly_change prices = None)
    ∧ ((2 ≤ length prices)%nat →
       ∃ latest earlier,
         last (values prices) = Some latest
         ∧ values prices !! reference_position prices = Some earlier
         ∧ calculate_weekly_change prices =
             if Num.isnan earlier || Num.isnan latest
                || (Num.abs earlier <? tiny)%num
             then None
             else Some ((latest - earlier) / earlier)%num).
Proof.
  intros prices. split.
  - intros Hn. unfold calculate_weekly_change. by rewrite decide_True.
  - intros Hn.
    destruct (weekly_change_endpoints prices Hn) as (latest & earlier & H1 & H2).
    exists latest, earlier. repeat split; [done..|].
    by apply weekly_change_of_endpoints.
Qed.

(** C4 as stated fails on an infinite endpoint: the latest price of this
    series is not finite and its weekly change is not null. *)
Lemma weekly_change_infinite_latest :
  let prices : Series := [(0, Num.of_Z 100); (1, PInf)] in
  last (values prices) = Some PInf
  ∧ Num.isfinite PInf = false
  ∧ calculate_weekly_change prices = Some PInf.
Proof. repeat split; by_compute. Qed.
(** ** Signals on a flat series followed by one move *)

Lemma flat_then_length n p factor : length (flat_then n p factor) = S n.
Proof. unfold flat_then. rewrite length_app, length_replicate. simpl. lia. Qed.

(** The weekly change of a flat series followed by one move is the change
    from the flat level to the last point. *)
Lemma flat_then_weekly_change (prices : Series) (n : nat) (p factor : Qc) :
  (1 ≤ n)%nat → (tiny_q ≤ p)%Qc →
  values prices = flat_then n p factor →
  calculate_weekly_change prices
  = Some ((Fin (factor * p) - Fin p) / Fin p)%num.
Proof.
  intros Hn Hp Hv.
  assert (length prices = S n) as Hlen
    by (by rewrite <-length_values, Hv, flat_then_length).
  rewrite (weekly_change_of_endpoints prices (Fin (factor * p)%Qc) (Fin p)).
  - by rewrite abs_not_tiny by done.
  - lia.
  - rewrite Hv. unfold flat_then. by rewrite last_snoc.
  - rewrite Hv. unfold flat_then, reference_position.
    rewrite lookup_app_l by (rewrite length_replicate; case_decide; lia).
    apply lookup_replicate_2. case_decide; lia.
Qed.

(** Where that change lies, for the comparison with the thresholds. *)
Lemma flat_then_change (p factor : Qc) :
  (tiny_q ≤ p)%Qc →
  ((Fin (factor * p) - Fin p) / Fin p)%num = Fin (factor - 1)%Qc.
Proof.
  intros Hp. pose proof tiny_q_pos as Ht.
  assert (p ≠ 0%Qc) as Hp0 by (intros ->; qc_lra).
  rewrite sub_fin, div_fin by done. f_equal. by field.
Qed.



(** ** A zero latest price *)

Lemma weekly_change_zero_latest (prices : Series) (earlier : Qc) :
  (2 ≤ length prices)%nat →
  last (values prices) = Some (Fin 0%Qc) →
  values prices !! reference_position prices = Some (Fin earlier) →
  (tiny_q ≤ earlier)%Qc →
  calculate_weekly_change prices = Some (Num.of_Z (-1)).
Proof.
  intros Hn Hlast Href Hpos. pose proof tiny_q_pos as Ht.
  rewrite (weekly_change_of_endpoints prices _ _ Hn Hlast Href).
  rewrite abs_not_tiny by done. simpl.
  rewrite decide_False by (intros ->; qc_lra).
  unfold Num.of_Z. do 2 f_equal. assert (earlier ≠ 0%Qc) by (intros ->; qc_lra).
  qc_unfold. field. done.
Qed.

Lemma zero_latest_buy (prices : Series) (earlier : Qc) :
  (2 ≤ length prices)%nat →
  last (values prices) = Some (Fin 0%Qc) →
  values prices !! reference_position prices = Some (Fin earlier) →
  (tiny_q ≤ earlier)%Qc →
  generate_signal TradingEngine_default prices
  = (BUY, Num.of_Z 5, Some (Num.of_Z (-1))).
Proof.
  intros Hn Hlast Href Hpos. unfold generate_signal.
  by rewrite (weekly_change_zero_latest prices earlier).
Qed.

Lemma requested_shares_zero_price (trade : Trade.t) (amount : Qc) :
  Trade.amount trade = Fin amount → (0 < amount)%Qc →
  requested_shares trade (Fin 0%Qc) = PInf.
Proof.
  intros Ha Hpos. unfold requested_shares. rewrite Ha. simpl.
  unfold Num.signed_inf.
  destruct (amount ?= 0)%Qc eqn:Hc; [| |done].
  - apply Qceq_alt in Hc. exfalso. qc_lra.
  - apply Qclt_alt in Hc. exfalso. qc_lra.
Qed.

Lemma buy_at_zero_price (self : Portfolio) (symbol : string) :
  buy self symbol PInf (Fin 0%Qc) = (false, self).
Proof. unfold buy. cbn [Num.mul]. rewrite signed_inf_zero. done. Qed.

Lemma process_trade_zero_price (current_date : Z)
    (current_prices : gmap string num)
    (state : Portfolio * list LogEntry.t) (symbol : string)
    (trade : Trade.t) (amount : Qc) :
  current_prices !! symbol = Some (Fin 0%Qc) →
  Trade.signal trade = BUY →
  Trade.amount trade = Fin amount → (0 < amount)%Qc →
  process_trade current_date current_prices state (symbol, trade) = state.
Proof.
  intros Hprice Hsignal Hamount Hpos. destruct state as [portfolio log].
  unfold process_trade. rewrite Hprice, Hsignal.
  rewrite (requested_shares_zero_price trade amount) by done.
  by rewrite buy_at_zero_price.
Qed.

Lemma execute_trades_zero_latest (symbol : string) (prices : Series)
    (earlier : Qc) :
  (2 ≤ length prices)%nat →
  last (values prices) = Some (Fin 0%Qc) →
  values prices !! reference_position prices = Some (Fin earlier) →
  (tiny_q ≤ earlier)%Qc →
  execute_trades TradingEngine_default [(symbol, prices)]
  = [(symbol,
      {| Trade.signal := BUY;
         Trade.amount := Num.of_Z 5;
         Trade.shares := Num.zero;
         Trade.price := Some (Fin 0%Qc);
         Trade.weekly_change := Some (Num.of_Z (-1)) |})].
Proof.
  intros Hn Hlast Href Hpos. unfold execute_trades. simpl omap.
  rewrite (zero_latest_buy prices earlier) by done.
  rewrite decide_True by done. rewrite decide_True by lia.
  by rewrite iloc_last, Hlast by lia.
Qed.


(** ** The predictability score *)

Section Score.

Variable np_sqrt : num → num.
Variable self : StockSelector.

Lemma score_below_min_data_points (prices : Series) :
  Z.of_nat (length prices) < min_data_points self →
  calculate_predictability_score np_sqrt self prices = Num.zero.
Proof.
  intros Hlen. unfold calculate_predictability_score.
  by rewrite decide_True.
Qed.

Lemma score_nan_volatility (prices : Series) :
  Num.isnan (calculate_volatility np_sqrt prices) = true →
  calculate_predictability_score np_sqrt self prices = Num.zero.
Proof.
  intros Hnan. unfold calculate_predictability_score.
  case_decide; [done|]. by rewrite Hnan.
Qed.

Lemma volatility_few_returns (prices : Series) :
  (length (dropna (pct_change prices)) < 2)%nat →
  calculate_volatility np_sqrt prices = NaN.
Proof.
  intros Hfew. unfold calculate_volatility.
  case_decide; [done|]. case_decide; [done|].
  unfold std. rewrite decide_True by lia. apply mul_nan_l.
Qed.

Lemma score_few_returns (prices : Series) :
  (length (dropna (pct_change prices)) < 2)%nat →
  calculate_predictability_score np_sqrt self prices = Num.zero.
Proof.
  intros Hfew. apply score_nan_volatility.
  by rewrite volatility_few_returns.
Qed.

Lemma score_blend (prices : Series) :
  min_data_points self ≤ Z.of_nat (length prices) →
  Num.isnan (calculate_volatility np_sqrt prices) = false →
  let returns := dropna (pct_change prices) in
  (2 ≤ length returns)%nat
  ∧ calculate_predictability_score np_sqrt self prices
    = (Num.dec 6 1
         * volatility_score self (calculate_volatility np_sqrt prices)
       + Num.dec 4 1
         * (of_nat (same_direction returns) / of_nat (length returns - 1)))%num.
Proof.
  intros Hlen Hvol returns.
  assert (2 ≤ length returns)%nat as Hret.
  { destruct (decide (length returns < 2)%nat) as [Hfew|]; [|lia].
    apply volatility_few_returns in Hfew. by rewrite Hfew in Hvol. }
  split; [done|].
  unfold calculate_predictability_score.
  rewrite decide_False by lia. rewrite Hvol.
  fold returns. rewrite decide_False by lia.
  unfold consistency_score. by rewrite decide_True by lia.
Qed.

End Score.

(** *** The shape of the volatility score *)

Lemma volatility_score_outside (self : StockSelector) (v : num) :
  (v <? min_volatility self)%num = true
  ∨ (v >? max_volatility self)%num = true →
  volatility_score self v = Num.zero.
Proof.
  intros Hout. unfold volatility_score.
  destruct Hout as [-> | ->]; [done|]. by rewrite orb_true_r.
Qed.

Lemma volatility_score_inside (self : StockSelector) (v : num) :
  (v <? min_volatility self)%num = false →
  (v >? max_volatility self)%num = false →
  volatility_score self v
  = (Num.one
     - Num.abs (v - (min_volatility self + max_volatility self) / Num.of_Z 2)
       / ((max_volatility self - min_volatility self) / Num.of_Z 2))%num.
Proof. intros Hlo Hhi. unfold volatility_score. by rewrite Hlo, Hhi. Qed.

Lemma volatility_score_at (self : StockSelector) (m w v : Qc) :
  ((min_volatility self + max_volatility self) / Num.of_Z 2)%num = Fin m →
  ((max_volatility self - min_volatility self) / Num.of_Z 2)%num = Fin w →
  (0 < w)%Qc →
  (Fin v <? min_volatility self)%num = false →
  (Fin v >? max_volatility self)%num = false →
  volatility_score self (Fin v)
  = Fin (1 - (if decide (v - m < 0) then - (v - m) else v - m) / w)%Qc.
Proof.
  intros Hm Hw Hpos Hlo Hhi.
  rewrite volatility_score_inside, Hm, Hw by done.
  rewrite sub_fin, abs_fin, div_fin by (intros ->; qc_lra).
  by rewrite of_Z_1, sub_fin.
Qed.

Lemma volatility_score_midpoint (self : StockSelector) (m w : Qc) :
  ((min_volatility self + max_volatility self) / Num.of_Z 2)%num = Fin m →
  ((max_volatility self - min_volatility self) / Num.of_Z 2)%num = Fin w →
  (0 < w)%Qc →
  (Fin m <? min_volatility self)%num = false →
  (Fin m >? max_volatility self)%num = false →
  volatility_score self (Fin m) = Num.one.
Proof.
  intros Hm Hw Hpos Hlo Hhi.
  rewrite (volatility_score_at self m w m) by done.
  rewrite of_Z_1. f_equal.
  rewrite decide_False by (intros H; qc_lra).
  field. intros ->. qc_lra.
Qed.

Lemma volatility_score_decreases (self : StockSelector) (m w a b : Qc) :
  ((min_volatility self + max_volatility self) / Num.of_Z 2)%num = Fin m →
  ((max_volatility self - min_volatility self) / Num.of_Z 2)%num = Fin w →
  (0 < w)%Qc →
  (Fin a <? min_volatility self)%num = false →
  (Fin a >? max_volatility self)%num = false →
  (Fin b <? min_volatility self)%num = false →
  (Fin b >? max_volatility self)%num = false →
  (Num.abs (Fin a - Fin m) <=? Num.abs (Fin b - Fin m))%num = true →
  (volatility_score self (Fin b) <=? volatility_score self (Fin a))%num = true
  ∧ (volatility_score self (Fin a) <=? Num.one)%num = true.
Proof.
  intros Hm Hw Hpos Ha1 Ha2 Hb1 Hb2 Hcloser.
  rewrite (volatility_score_at self m w a), (volatility_score_at self m w b)
    by done.
  rewrite !sub_fin, !abs_fin, leb_fin in Hcloser.
  apply bool_decide_eq_true_1 in Hcloser.
  set (da := (if decide (a - m < 0) then - (a - m) else a - m)%Qc) in *.
  set (db := (if decide (b - m < 0) then - (b - m) else b - m)%Qc) in *.
  assert (0 ≤ da)%Qc as Hda by (subst da; case_decide; qc_lra).
  clearbody da db.
  assert ((da / w * w = da)%Qc) as Hxa by (field; intros ->; qc_lra).
  assert ((db / w * w = db)%Qc) as Hxb by (field; intros ->; qc_lra).
  set (xa := (da / w)%Qc) in *. set (xb := (db / w)%Qc) in *.
  clearbody xa xb.
  rewrite of_Z_1, !leb_fin.
  split; apply bool_decide_eq_true_2; qc_nra.
Qed.

(** *** The consistency score counts the pairs of one sign *)

Lemma fin_product_positive (a b : Qc) :
  bool_decide (0 < b * a)%Qc
  = bool_decide (0 < a)%Qc && bool_decide (0 < b)%Qc
    || bool_decide (a < 0)%Qc && bool_decide (b < 0)%Qc.
Proof.
  destruct (Qc_sign_cases a) as [Ha|[->|Ha]];
    destruct (Qc_sign_cases b) as [Hb|[->|Hb]];
    repeat match goal with
    | |- context [bool_decide ?P] =>
        first [ rewrite (bool_decide_eq_true_2 P) by qc_nra
              | rewrite (bool_decide_eq_false_2 P) by (intros ?; qc_nra) ]
    end; done.
Qed.

Lemma product_positive_same_sign (a b : num) :
  (b * a >? Num.zero)%num = same_sign a b.
Proof.
  unfold same_sign, Num.gtb, Num.zero, Num.of_Z.
  change (Q2Qc (inject_Z 0)) with 0%Qc.
  destruct a as [a| | |], b as [b| | |]; try done.
  - rewrite mul_fin, !ltb_fin. apply fin_product_positive.
  - simpl Num.mul. rewrite !ltb_fin.
    destruct (Qc_sign_cases a) as [Ha|[->|Ha]].
    + rewrite signed_inf_neg by done.
      rewrite (bool_decide_eq_false_2 (0 < a)%Qc) by (intros ?; qc_lra).
      simpl. by rewrite andb_false_r.
    + done.
    + rewrite signed_inf_pos by done.
      by rewrite (bool_decide_eq_true_2 (0 < a)%Qc).
  - simpl Num.mul. rewrite !ltb_fin.
    destruct (Qc_sign_cases a) as [Ha|[->|Ha]].
    + rewrite signed_inf_pos by qc_lra.
      rewrite (bool_decide_eq_false_2 (0 < a)%Qc) by (intros ?; qc_lra).
      by rewrite (bool_decide_eq_true_2 (a < 0)%Qc).
    + done.
    + rewrite signed_inf_neg by qc_lra.
      rewrite (bool_decide_eq_false_2 (a < 0)%Qc) by (intros ?; qc_lra).
      simpl. by rewrite andb_false_r.
  - rewrite mul_nan_l. simpl. by rewrite !andb_false_r.
  - simpl Num.mul. rewrite !ltb_fin.
    destruct (Qc_sign_cases b) as [Hb|[->|Hb]].
    + rewrite signed_inf_neg by done.
      by rewrite (bool_decide_eq_false_2 (0 < b)%Qc) by (intros ?; qc_lra).
    + done.
    + rewrite signed_inf_pos by done.
      by rewrite (bool_decide_eq_true_2 (0 < b)%Qc).
  - simpl Num.mul. rewrite !ltb_fin.
    destruct (Qc_sign_cases b) as [Hb|[->|Hb]].
    + rewrite signed_inf_pos by qc_lra.
      by rewrite (bool_decide_eq_true_2 (b < 0)%Qc).
    + done.
    + rewrite signed_inf_neg by qc_lra.
      by rewrite (bool_decide_eq_false_2 (b < 0)%Qc) by (intros ?; qc_lra).
Qed.

Lemma same_direction_counts_pairs (returns : list num) :
  same_direction returns
  = length (filter (λ ab, same_sign ab.1 ab.2 = true)
                   (consecutive_pairs returns)).
Proof.
  unfold consecutive_pairs.
  induction returns as [|a [|b rest] IH]; [done..|].
  change (same_direction (a :: b :: rest))
    with ((if (b * a >? Num.zero)%num then 1 else 0)
          + same_direction (b :: rest))%nat.
  rewrite IH, product_positive_same_sign.
  change (zip (a :: b :: rest) (tail (a :: b :: rest)))
    with ((a, b) :: zip (b :: rest) (tail (b :: rest))).
  rewrite filter_cons. simpl.
  destruct (same_sign a b); by rewrite ?decide_True, ?decide_False by done.
Qed.

(** *** How many returns a series has *)

Lemma pct_change_from_finite (p : Qc) (vs : list num) :
  p ≠ 0%Qc →
  Forall (λ v, ∃ q : Qc, v = Fin q ∧ q ≠ 0%Qc) vs →
  dropna (pct_change_from (Fin p) vs) = pct_change_from (Fin p) vs.
Proof.
  intros Hp Hvs. revert p Hp.
  induction Hvs as [|v vs (q & -> & Hq) _ IH]; intros p Hp; [done|].
  change (pct_change_from (Fin p) (Fin q :: vs))
    with ((Fin q / Fin p - Num.one)%num :: pct_change_from (Fin q) vs).
  rewrite div_fin by done.
  unfold dropna. rewrite filter_cons_True by done.
  f_equal. by apply IH.
Qed.

Lemma length_pct_change_from (previous : num) (vs : list num) :
  length (pct_change_from previous vs) = length vs.
Proof. revert previous. induction vs; intros; simpl; auto. Qed.

Lemma returns_of_finite_series (prices : Series) :
  finite_nonzero prices →
  length (dropna (pct_change prices)) = (length prices - 1)%nat.
Proof.
  unfold finite_nonzero, pct_change. rewrite <-(length_values prices).
  destruct (values prices) as [|v vs]; [done|].
  intros Hall. apply Forall_cons in Hall as [(q & -> & Hq) Hvs].
  unfold dropna. rewrite filter_cons_False by (simpl; congruence).
  fold (dropna (pct_change_from (Fin q) vs)).
  rewrite pct_change_from_finite, length_pct_change_from by done.
  simpl. lia.
Qed.

Lemma length_consecutive_pairs (returns : list num) :
  length (consecutive_pairs returns) = (length returns - 1)%nat.
Proof.
  unfold consecutive_pairs. rewrite length_zip_with.
  destruct returns as [|a rest]; [done|].
  change (tail (a :: rest)) with rest.
  change (length (a :: rest)) with (S (length rest)). lia.
Qed.


(** ** The maximum drawdown *)

Lemma drawdown_loop_snoc (initial_value : num) (history : list Snapshot.t)
    (state : Snapshot.t) :
  drawdown_loop initial_value (history ++ [state])
  = drawdown_step (drawdown_loop initial_value history) state.
Proof. unfold drawdown_loop. by rewrite foldl_app. Qed.

Lemma drawdown_loop_not_nan (initial_value : num) (history : list Snapshot.t) :
  let d := (drawdown_loop initial_value history).2 in
  (d <=? d)%num = true.
Proof.
  induction history as [|state history IH] using rev_ind; [done|].
  rewrite drawdown_loop_snoc.
  destruct (drawdown_loop initial_value history) as [m d].
  simpl in *. by apply max_not_nan.
Qed.

Lemma drawdown_loop_grows (initial_value : num)
    (history further : list Snapshot.t) :
  ((drawdown_loop initial_value history).2
   <=? (drawdown_loop initial_value (history ++ further)).2)%num = true.
Proof.
  induction further as [|state further IH] using rev_ind.
  - rewrite app_nil_r. apply drawdown_loop_not_nan.
  - rewrite app_assoc, drawdown_loop_snoc.
    pose proof (drawdown_loop_not_nan initial_value (history ++ further))
      as Hd.
    destruct (drawdown_loop initial_value (history ++ further)) as [m d].
    simpl in *. apply (leb_trans _ d); [done|]. by apply leb_max_l.
Qed.

(** *** No decline, no drawdown *)

Lemma self_decline (x : num) : Num.max Num.zero ((x - x) / x)%num = Num.zero.
Proof.
  unfold Num.max, Num.gtb. destruct x as [q| | |]; try done.
  rewrite sub_fin. destruct (decide (q = 0%Qc)) as [->|Hq]; [done|].
  rewrite div_fin by done. unfold Num.zero, Num.of_Z. rewrite ltb_fin.
  rewrite bool_decide_eq_false_2; [done|].
  replace ((q - q) / q)%Qc with 0%Qc by (qc_unfold; field; done).
  intros H. qc_lra.
Qed.

Lemma non_decreasing_tail (v : num) (vs : list num) :
  non_decreasing (v :: vs) → non_decreasing vs.
Proof. intros H i a b Ha Hb. by apply (H (S i)). Qed.

Lemma flat_loop (history : list Snapshot.t) (m : num) :
  match totals history with
  | first :: _ => first = m ∨ (m <=? first)%num = true
  | [] => True
  end →
  non_decreasing (totals history) →
  (foldl drawdown_step (m, Num.zero) history).2 = Num.zero.
Proof.
  revert m. induction history as [|state history IH]; intros m Hfirst Hup;
    [done|].
  simpl in Hfirst.
  change (foldl drawdown_step (m, Num.zero) (state :: history))
    with (foldl drawdown_step (drawdown_step (m, Num.zero) state) history).
  unfold drawdown_step at 2.
  assert (Num.max m (Snapshot.total_value state) = Snapshot.total_value state)
    as ->.
  { destruct Hfirst as [->|Hle]; [apply max_same | by apply max_of_leb]. }
  rewrite self_decline. apply IH.
  - destruct history as [|next history]; [done|]. simpl. right.
    by apply (Hup 0%nat).
  - by apply (non_decreasing_tail (Snapshot.total_value state)).
Qed.

Lemma non_decreasing_no_drawdown (first : Snapshot.t)
    (rest : list Snapshot.t) :
  non_decreasing (totals (first :: rest)) →
  (drawdown_loop (Snapshot.total_value first) (first :: rest)).2 = Num.zero.
Proof. intros Hup. apply flat_loop; [by left | done]. Qed.

(** *** The drawdown is the largest decline from the running peak *)

Lemma drawdown_loop_on_totals (acc : num * num) (history : list Snapshot.t) :
  foldl drawdown_step acc history = drawdown_on_totals acc (totals history).
Proof.
  unfold drawdown_on_totals, totals. revert acc.
  induction history as [|state history IH]; intros [m d]; [done|].
  simpl. by rewrite IH.
Qed.

Lemma running_peak_unique (vs : list Qc) (i : nat) (m m' : Qc) :
  running_peak vs i m → running_peak vs i m' → m = m'.
Proof.
  intros [(j & Hj & Hm) Hle] [(j' & Hj' & Hm') Hle'].
  pose proof (Hle j' m' Hj' Hm'). pose proof (Hle' j m Hj Hm). qc_lra.
Qed.

Lemma running_peak_app (vs : list Qc) (v : Qc) (i : nat) (m : Qc) :
  (i < length vs)%nat →
  running_peak (vs ++ [v]) i m ↔ running_peak vs i m.
Proof.
  intros Hi. unfold running_peak. split.
  - intros [(j & Hj & Hm) Hle]. split.
    + exists j. split; [done|]. by rewrite lookup_app_l in Hm by lia.
    + intros k x Hk Hx. apply (Hle k x Hk). by rewrite lookup_app_l by lia.
  - intros [(j & Hj & Hm) Hle]. split.
    + exists j. split; [done|]. by rewrite lookup_app_l by lia.
    + intros k x Hk Hx. apply (Hle k x Hk).
      by rewrite lookup_app_l in Hx by lia.
Qed.

Lemma decline_at_app (vs : list Qc) (v : Qc) (i : nat) (d : Qc) :
  (i < length vs)%nat →
  decline_at (vs ++ [v]) i d ↔ decline_at vs i d.
Proof.
  intros Hi. unfold decline_at. split.
  - intros (m & x & Hm & Hx & ->). exists m, x.
    rewrite running_peak_app in Hm by done.
    by rewrite lookup_app_l in Hx by lia.
  - intros (m & x & Hm & Hx & ->). exists m, x.
    rewrite running_peak_app by done.
    by rewrite lookup_app_l by lia.
Qed.

Lemma running_peak_snoc (vs : list Qc) (v m : Qc) :
  vs ≠ [] →
  running_peak vs (length vs - 1) m →
  running_peak (vs ++ [v]) (length vs) (qmax m v).
Proof.
  intros Hne [(j & Hj & Hm) Hle].
  assert (0 < length vs)%nat by (destruct vs; [done | simpl; lia]).
  split.
  - destruct (qmax_cases m v) as [-> | ->].
    + exists j. split; [lia|]. by rewrite lookup_app_l by lia.
    + exists (length vs). split; [done|].
      by rewrite lookup_app_r, Nat.sub_diag by lia.
  - intros k x Hk Hx. destruct (decide (k < length vs)%nat) as [Hlt|Hge].
    + rewrite lookup_app_l in Hx by done.
      pose proof (Hle k x ltac:(lia) Hx). pose proof (qmax_l m v). qc_lra.
    + assert (k = length vs) as -> by lia.
      rewrite lookup_app_r, Nat.sub_diag in Hx by lia.
      injection Hx as <-. apply qmax_r.
Qed.

Lemma drawdown_invariant (f : Qc) (tl : list Qc) :
  (0 < f)%Qc → Forall (λ v, 0 < v)%Qc tl →
  ∃ m d : Qc,
    drawdown_on_totals (Fin f, Num.zero) (Fin <$> tl) = (Fin m, Fin d)
    ∧ (0 < m)%Qc
    ∧ running_peak (f :: tl) (length tl) m
    ∧ (∃ i, (i ≤ length tl)%nat ∧ decline_at (f :: tl) i d)
    ∧ (∀ i x, (i ≤ length tl)%nat → decline_at (f :: tl) i x → (x ≤ d)%Qc).
Proof.
  intros Hf. induction tl as [|v tl IH] using rev_ind; intros Hpos.
  - exists f, 0%Qc.
    assert (running_peak [f] 0 f) as Hpeak.
    { split; [by exists 0%nat|].
      intros j x Hj Hx. assert (j = 0%nat) as -> by lia.
      injection Hx as <-. qc_lra. }
    assert (decline_at [f] 0 0%Qc) as Hdecl.
    { exists f, f. split; [done|]. split; [done|].
      assert (f ≠ 0%Qc) by (intros ->; qc_lra). qc_unfold. field. done. }
    split; [done|]. split; [done|]. split; [done|].
    split; [by exists 0%nat|].
    intros i x Hi (m & y & Hm & Hy & ->). simpl in Hi.
    assert (i = 0%nat) as -> by lia.
    injection Hy as <-. rewrite (running_peak_unique _ _ _ _ Hm Hpeak).
    assert (f ≠ 0%Qc) by (intros ->; qc_lra).
    replace ((f - f) / f)%Qc with 0%Qc by (qc_unfold; field; done).
    qc_lra.
  - apply Forall_app in Hpos as [Htl Hv]. apply Forall_singleton in Hv.
    destruct (IH Htl) as (m & d & Hloop & Hm & Hpeak & (i0 & Hi0 & Hd) & Hub).
    set (m' := qmax m v). set (dd := ((m' - v) / m')%Qc).
    assert (0 < m')%Qc as Hm'
      by (pose proof (qmax_l m v); subst m'; qc_lra).
    assert (m' ≠ 0%Qc) as Hm0 by (intros Hz; rewrite Hz in Hm'; qc_lra).
    assert (running_peak (f :: tl ++ [v]) (S (length tl)) m') as Hpeak'.
    { apply (running_peak_snoc (f :: tl) v m); [done|].
      simpl. by rewrite Nat.sub_0_r. }
    assert (decline_at (f :: tl ++ [v]) (S (length tl)) dd) as Hdd.
    { exists m', v. split; [done|]. split; [|done].
      change (f :: tl ++ [v]) with ((f :: tl) ++ [v]).
      by rewrite lookup_app_r, Nat.sub_diag by (simpl; lia). }
    exists m', (qmax d dd). rewrite length_app, Nat.add_1_r.
    split.
    { unfold drawdown_on_totals in *. rewrite fmap_app, foldl_app, Hloop.
      simpl. rewrite max_fin. fold m'. rewrite sub_fin, div_fin by done.
      fold dd. by rewrite max_fin. }
    split; [done|]. split; [done|]. split.
    + destruct (qmax_cases d dd) as [-> | ->].
      * exists i0. split; [lia|].
        change (f :: tl ++ [v]) with ((f :: tl) ++ [v]).
        apply decline_at_app; [simpl; lia | done].
      * by exists (S (length tl)).
    + intros i x Hi Hx. destruct (decide (i ≤ length tl)%nat) as [Hle|Hgt].
      * change (f :: tl ++ [v]) with ((f :: tl) ++ [v]) in Hx.
        apply decline_at_app in Hx; [|simpl; lia].
        pose proof (Hub i x Hle Hx). pose proof (qmax_l d dd). qc_lra.
      * assert (i = S (length tl)) as -> by lia.
        destruct Hx as (m1 & y & Hm1 & Hy & ->).
        destruct Hdd as (m2 & y2 & Hm2 & Hy2 & Hdd).
        rewrite (running_peak_unique _ _ _ _ Hm1 Hm2).
        assert (y = y2) as -> by congruence.
        rewrite <-Hdd. apply qmax_r.
Qed.

(** *** The drawdown of the results *)

Lemma calculate_results_Some (self : Backtester) (r : Results.t) :
  calculate_results self = Returns (Some r) →
  ∃ first rest,
    history (portfolio self) = first :: rest
    ∧ is_zero (Snapshot.total_value first) = false
    ∧ Results.initial_value r = Snapshot.total_value first
    ∧ Results.max_drawdown r
      = (drawdown_loop (Snapshot.total_value first) (first :: rest)).2.
Proof.
  unfold calculate_results.
  destruct (history (portfolio self)) as [|first rest] eqn:Hh; [done|].
  destruct (is_zero (Snapshot.total_value first)) eqn:Hz; [done|].
  intros [= <-]. by exists first, rest.
Qed.

Lemma drawdown_on_totals_cons (acc : num * num) (v : num) (vs : list num) :
  drawdown_on_totals acc (v :: vs)
  = drawdown_on_totals
      (Num.max acc.1 v,
       Num.max acc.2 ((Num.max acc.1 v - v) / Num.max acc.1 v)%num) vs.
Proof. reflexivity. Qed.

Lemma max_drawdown_largest_decline (self : Backtester) (r : Results.t)
    (vs : list Qc) :
  calculate_results self = Returns (Some r) →
  totals (history (portfolio self)) = Fin <$> vs →
  Forall (λ v, 0 < v)%Qc vs →
  ∃ d : Qc,
    Results.max_drawdown r = Fin d
    ∧ (∃ i, decline_at vs i d)
    ∧ (∀ i x, decline_at vs i x → (x ≤ d)%Qc).
Proof.
  intros Hr Hvs Hpos.
  apply calculate_results_Some in Hr as (first & rest & Hh & _ & _ & ->).
  rewrite Hh in Hvs. destruct vs as [|f tl]; [done|].
  injection Hvs as Hfirst Hrest.
  apply Forall_cons in Hpos as [Hf Htl].
  destruct (drawdown_invariant f tl Hf Htl)
    as (m & d & Hloop & _ & _ & (i & _ & Hd) & Hub).
  exists d. split; [|split; [by exists i|]].
  - unfold drawdown_loop. rewrite drawdown_loop_on_totals.
    change (totals (first :: rest))
      with (Snapshot.total_value first :: totals rest).
    rewrite Hfirst, Hrest, drawdown_on_totals_cons. simpl fst. simpl snd.
    rewrite max_same, self_decline. exact (f_equal snd Hloop).
  - intros j x Hx. apply (Hub j x); [|done].
    destruct Hx as (_ & y & _ & Hy & _).
    apply lookup_lt_Some in Hy. simpl in Hy. lia.
Qed.

Lemma max_drawdown_grows (self : Backtester) (further : list Snapshot.t)
    (r r' : Results.t) :
  calculate_results self = Returns (Some r) →
  calculate_results (with_snapshots self further) = Returns (Some r') →
  (Results.max_drawdown r <=? Results.max_drawdown r')%num = true.
Proof.
  intros Hr Hr'.
  apply calculate_results_Some in Hr as (first & rest & Hh & _ & _ & ->).
  apply calculate_results_Some in Hr' as (first' & rest' & Hh' & _ & _ & ->).
  simpl in Hh'. rewrite Hh in Hh'. injection Hh' as <- <-.
  apply (drawdown_loop_grows _ (first :: rest) further).
Qed.

Lemma max_drawdown_zero (self : Backtester) (r : Results.t) :
  calculate_results self = Returns (Some r) →
  non_decreasing (totals (history (portfolio self))) →
  Results.max_drawdown r = Num.zero.
Proof.
  intros Hr Hup.
  apply calculate_results_Some in Hr as (first & rest & Hh & _ & _ & ->).
  rewrite Hh in Hup. by apply non_decreasing_no_drawdown.
Qed.

(** C8.  The maximum drawdown of the results is the largest relative
    decline of the total value from its running peak, for a history of
    positive totals: it is the decline of some snapshot, and no snapshot
    has a larger one.  Appending snapshots to the history never lowers it,
    and it is 0 when the totals never decrease. *)
Theorem max_drawdown_properties :
  ∀ (self : Backtester) (r : Results.t),
    calculate_results self = Returns (Some r) →
    (∀ vs : list Qc,
       totals (history (portfolio self)) = Fin <$> vs →
       Forall (λ v, 0 < v)%Qc vs →
       ∃ d : Qc,
         Results.max_drawdown r = Fin d
         ∧ (∃ i, decline_at vs i d)
         ∧ (∀ i x, decline_at vs i x → (x ≤ d)%Qc))
    ∧ (∀ (further : list Snapshot.t) (r' : Results.t),
         calculate_results (with_snapshots self further) = Returns (Some r') →
         (Results.max_drawdown r <=? Results.max_drawdown r')%num = true)
    ∧ (non_decreasing (totals (history (portfolio self))) →
       Results.max_drawdown r = Num.zero).
Proof.
  intros self r Hr. split; [|split].
  - intros vs. by apply max_drawdown_largest_decline.
  - intros further r'. by apply max_drawdown_grows.
  - by apply max_drawdown_zero.
Qed.

Lemma max_drawdown_properties_witness :
  calculate_results drawdown_example = Returns (Some drawdown_example_results)
  ∧ (∃ d : Qc,
       Results.max_drawdown drawdown_example_results = Fin d
       ∧ (∃ i, decline_at [Qc_of_Z 100; Qc_of_Z 120; Qc_of_Z 90; Qc_of_Z 110]
                          i d)
       ∧ (∀ i x,
            decline_at [Qc_of_Z 100; Qc_of_Z 120; Qc_of_Z 90; Qc_of_Z 110]
                       i x →
            (x ≤ d)%Qc)).
Proof.
  assert (calculate_results drawdown_example
          = Returns (Some drawdown_example_results)) as Hr by by_compute.
  split; [exact Hr|].
  destruct (max_drawdown_properties drawdown_example drawdown_example_results
              Hr) as (Hlargest & _ & _).
  apply Hlargest.
  - by_compute.
  - repeat constructor; by_compute.
Defined.
(** ** The driver keeps the first snapshot *)

Lemma buy_history (self : Portfolio) (symbol : string) (shares price : num) :
  history (buy self symbol shares price).2 = history self.
Proof. unfold buy. by destruct (_ <=? _)%num. Qed.

Lemma sell_history (self : Portfolio) (symbol : string) (shares price : num) :
  history (sell self symbol shares price).2 = history self.
Proof.
  unfold sell. destruct (holdings self !! symbol) as [held|]; [|done].
  by destruct (held >=? shares)%num.
Qed.

Lemma process_trade_history (current_date : Z)
    (current_prices : gmap string num)
    (state : Portfolio * list LogEntry.t) (item : string * Trade.t) :
  history (process_trade current_date current_prices state item).1
  = history state.1.
Proof.
  destruct state as [portfolio log], item as [symbol trade].
  unfold process_trade.
  destruct (current_prices !! symbol) as [price|]; [|done].
  destruct (Trade.signal trade); [| |done].
  - pose proof (buy_history portfolio symbol
                  (requested_shares trade price) price) as Hb.
    destruct (buy portfolio symbol _ price) as [[] after]; exact Hb.
  - destruct (holdings portfolio !! symbol) as [held|]; [|done].
    pose proof (sell_history portfolio symbol
                  (Num.min (requested_shares trade price) held) price) as Hs.
    destruct (sell portfolio symbol _ price) as [[] after]; exact Hs.
Qed.

Lemma process_trades_history (current_date : Z)
    (current_prices : gmap string num) (trades : list (string * Trade.t))
    (state : Portfolio * list LogEntry.t) :
  history (foldl (process_trade current_date current_prices) state trades).1
  = history state.1.
Proof.
  revert state. induction trades as [|item trades IH]; intros state; [done|].
  simpl. by rewrite IH, process_trade_history.
Qed.

Section DriverHistory.

Variable np_sqrt : num → num.

Lemma week_step_history (algorithm : StockTradingAlgorithm)
    (stock_data : list (string * Series)) (current_date : Z)
    (state : Portfolio * list LogEntry.t) :
  ∃ added,
    history (week_step np_sqrt algorithm stock_data current_date state).1
    = history state.1 ++ added.
Proof.
  unfold week_step.
  destruct (window_data stock_data current_date) as [|w ws] eqn:Hw.
  { exists []. by rewrite app_nil_r. }
  set (trades := algorithm_run np_sqrt algorithm (w :: ws)).
  set (current_prices := price_dict _ (w :: ws)).
  pose proof (process_trades_history current_date current_prices trades state)
    as Hh.
  destruct (foldl _ state trades) as [portfolio log].
  simpl in *. rewrite Hh. eauto.
Qed.

Lemma simulate_history (algorithm : StockTradingAlgorithm)
    (stock_data : list (string * Series)) (dates : list Z)
    (remaining i : nat) (state : Portfolio * list LogEntry.t) :
  ∃ added,
    history (simulate np_sqrt algorithm stock_data dates remaining i state).1
    = history state.1 ++ added.
Proof.
  revert i state.
  induction remaining as [|remaining IH]; intros i state; simpl.
  { exists []. by rewrite app_nil_r. }
  destruct (dates !! i) as [current_date|].
  2: { exists []. by rewrite app_nil_r. }
  destruct (IH (i + 7)%nat
              (week_step np_sqrt algorithm stock_data current_date state))
    as [added2 H2].
  destruct (week_step_history algorithm stock_data current_date state)
    as [added1 H1].
  exists (added1 ++ added2). by rewrite H2, H1, app_assoc.
Qed.

End DriverHistory.

(** ** The outcomes of a run *)

Lemma get_value_init (initial_cash : num) (current_prices : gmap string num) :
  get_value (Portfolio_init initial_cash) current_prices = initial_cash.
Proof.
  unfold get_value, Portfolio_init. simpl.
  by rewrite holdings_total_empty, add_zero_r.
Qed.

Lemma calculate_results_nonzero (self : Backtester) (first : Snapshot.t)
    (rest : list Snapshot.t) :
  history (portfolio self) = first :: rest →
  is_zero (Snapshot.total_value first) = false →
  ∃ r, calculate_results self = Returns (Some r)
       ∧ Results.initial_value r = Snapshot.total_value first
       ∧ Results.portfolio_history r = first :: rest
       ∧ Results.trade_log r = trade_log self.
Proof.
  intros Hh Hz. unfold calculate_results. rewrite Hh, Hz.
  eexists. split; [reflexivity|]. done.
Qed.

Lemma calculate_results_zero (self : Backtester) (first : Snapshot.t)
    (rest : list Snapshot.t) :
  history (portfolio self) = first :: rest →
  is_zero (Snapshot.total_value first) = true →
  calculate_results self = Raises ZeroDivisionError.
Proof. intros Hh Hz. unfold calculate_results. by rewrite Hh, Hz. Qed.

Section RunOutcomes.

Variable np_sqrt : num → num.

Lemma run_insufficient (self : Backtester)
    (stock_data : list (string * Series)) :
  (length (all_dates stock_data) < 14)%nat →
  run np_sqrt self stock_data = Returns None.
Proof.
  intros Hfew. unfold run. destruct stock_data as [|kv rest]; [done|].
  by rewrite decide_True.
Qed.

Lemma run_reaches_results (names : list string) (n : nat)
    (initial_cash : num) (stock_data : list (string * Series)) :
  (14 ≤ length (all_dates stock_data))%nat →
  ∃ (final : Backtester) (first : Snapshot.t) (rest : list Snapshot.t),
    run np_sqrt (Backtester_init names n initial_cash) stock_data
    = calculate_results final
    ∧ history (portfolio final) = first :: rest
    ∧ Snapshot.total_value first = initial_cash
    ∧ Snapshot.cash first = initial_cash
    ∧ Snapshot.holdings first = ∅
    ∧ (n = 0%nat → rest = []).
Proof.
  intros Hmany. unfold run.
  destruct stock_data as [|kv others] eqn:Hdata; [simpl in Hmany; lia|].
  rewrite <-Hdata in *. rewrite decide_False by lia.
  destruct (all_dates stock_data) as [|start_date dates] eqn:Hdates;
    [simpl in Hmany; lia|].
  set (current_prices := price_dict _ stock_data).
  cbn [weeks algorithm trade_log portfolio symbols Backtester_init].
  set (portfolio0 := record_state _ start_date current_prices).
  pose proof (simulate_history np_sqrt StockTradingAlgorithm_default
                stock_data (start_date :: dates) n 7 (portfolio0, []))
    as [added Hadded].
  assert (n = 0%nat →
          simulate np_sqrt StockTradingAlgorithm_default stock_data
            (start_date :: dates) n 7 (portfolio0, [])
          = (portfolio0, [])) as Hnone by (by intros ->).
  cbn [weeks algorithm trade_log portfolio symbols Backtester_init].
  fold portfolio0.
  destruct (simulate np_sqrt StockTradingAlgorithm_default stock_data
              (start_date :: dates) n 7 (portfolio0, []))
    as [portfolio' log'].
  simpl in Hadded. rewrite get_value_init in Hadded.
  eexists _, _, added. split; [reflexivity|].
  split; [exact Hadded|]. split; [done|]. split; [done|]. split; [done|].
  intros Hw. specialize (Hnone Hw). injection Hnone as -> _.
  simpl in Hadded. destruct added; [done|]. discriminate Hadded.
Qed.

Lemma run_returns_results (symbols : list string) (weeks : nat)
    (initial_cash : num) (stock_data : list (string * Series)) :
  (14 ≤ length (all_dates stock_data))%nat →
  is_zero initial_cash = false →
  ∃ r,
    run np_sqrt (Backtester_init symbols weeks initial_cash) stock_data
    = Returns (Some r)
    ∧ Results.initial_value r = initial_cash
    ∧ (1 ≤ length (Results.portfolio_history r))%nat
    ∧ (weeks = 0%nat → length (Results.portfolio_history r) = 1%nat).
Proof.
  intros Hmany Hz.
  destruct (run_reaches_results symbols weeks initial_cash stock_data Hmany)
    as (final & first & rest & -> & Hh & Hfirst & _ & _ & Hweeks).
  rewrite <-Hfirst in Hz.
  destruct (calculate_results_nonzero final first rest Hh Hz)
    as (r & -> & Hinit & Hhist & _).
  exists r. split; [done|]. split; [by rewrite Hinit|].
  rewrite Hhist. split; [simpl; lia|].
  intros Hw. by rewrite (Hweeks Hw).
Qed.

Lemma run_zero_cash (symbols : list string) (weeks : nat)
    (initial_cash : num) (stock_data : list (string * Series)) :
  (14 ≤ length (all_dates stock_data))%nat →
  is_zero initial_cash = true →
  run np_sqrt (Backtester_init symbols weeks initial_cash) stock_data
  = Raises ZeroDivisionError.
Proof.
  intros Hmany Hz.
  destruct (run_reaches_results symbols weeks initial_cash stock_data Hmany)
    as (final & first & rest & -> & Hh & Hfirst & _).
  rewrite <-Hfirst in Hz. by apply (calculate_results_zero final first rest).
Qed.

End RunOutcomes.

(** ** The dates of a run *)

Lemma elem_of_insert_date (x d : Z) (ds : list Z) :
  x ∈ insert_date d ds ↔ x = d ∨ x ∈ ds.
Proof.
  induction ds as [|y ds IH]; simpl.
  - rewrite list_elem_of_singleton, elem_of_nil. tauto.
  - destruct (decide (d < y)); [by rewrite elem_of_cons|].
    destruct (decide (d = y)) as [->|Hne].
    + rewrite elem_of_cons. tauto.
    + rewrite !elem_of_cons, IH. tauto.
Qed.

Lemma insert_date_sorted (d : Z) (ds : list Z) :
  StronglySorted Z.lt ds → StronglySorted Z.lt (insert_date d ds).
Proof.
  induction 1 as [|y ds Hsorted IH Hall]; simpl.
  - repeat constructor.
  - repeat case_decide.
    + constructor; [by constructor|]. constructor; [done|].
      eapply Forall_impl; [exact Hall|]. intros z Hz. simpl in Hz. lia.
    + by constructor.
    + constructor; [done|]. apply Forall_forall. intros z Hz.
      apply elem_of_insert_date in Hz as [->|Hz]; [lia|].
      by apply (proj1 (Forall_forall _ _) Hall).
Qed.

Lemma sorted_set_sorted (ds : list Z) : StronglySorted Z.lt (sorted_set ds).
Proof.
  unfold sorted_set. induction ds as [|d ds IH]; simpl; [constructor|].
  by apply insert_date_sorted.
Qed.

Lemma elem_of_sorted_set (x : Z) (ds : list Z) : x ∈ sorted_set ds ↔ x ∈ ds.
Proof.
  unfold sorted_set. induction ds as [|d ds IH]; simpl; [done|].
  rewrite elem_of_insert_date, elem_of_cons, IH. done.
Qed.

Lemma sorted_NoDup (ds : list Z) : StronglySorted Z.lt ds → NoDup ds.
Proof.
  induction 1 as [|y ds Hsorted IH Hall]; constructor; [|done].
  intros Hin. apply (proj1 (Forall_forall _ _) Hall) in Hin. lia.
Qed.

Lemma all_dates_distinct (stock_data : list (string * Series)) :
  length (all_dates stock_data) = distinct_timestamps stock_data.
Proof.
  unfold all_dates, distinct_timestamps.
  set (ds := stock_data ≫= _).
  rewrite <-(size_list_to_set (C := gset Z) (sorted_set ds))
    by apply sorted_NoDup, sorted_set_sorted.
  f_equal. apply set_eq. intros x.
  by rewrite !elem_of_list_to_set, elem_of_sorted_set.
Qed.

(** C7, as the code has it.  A run returns nothing exactly when the series
    hold fewer than 14 distinct timestamps, the empty map included.  The
    test for an empty history never fires, because the first snapshot is
    recorded before the loop: with at least 14 distinct timestamps and an
    initial cash that is not zero the run returns results, whatever the
    series, the number of weeks and the outcome of each trade, and a run of
    0 weeks returns results built from the first snapshot alone. *)
Theorem run_outcomes :
  ∀ (np_sqrt : num → num) (names : list string) (n : nat)
    (initial_cash : num) (stock_data : list (string * Series)),
    let result :=
      run np_sqrt (Backtester_init names n initial_cash) stock_data in
    length (all_dates stock_data) = distinct_timestamps stock_data
    ∧ (result = Returns None ↔ (distinct_timestamps stock_data < 14)%nat)
    ∧ ((14 ≤ distinct_timestamps stock_data)%nat →
       is_zero initial_cash = false →
       ∃ r, result = Returns (Some r)
            ∧ (1 ≤ length (Results.portfolio_history r))%nat
            ∧ (n = 0%nat → length (Results.portfolio_history r) = 1%nat)).
Proof.
  intros np_sqrt names n initial_cash stock_data result.
  pose proof (all_dates_distinct stock_data) as Hlen.
  split; [done|]. rewrite <-Hlen. split.
  - split; [|by apply run_insufficient].
    intros Hnone.
    destruct (decide (length (all_dates stock_data) < 14)%nat) as [|Hmany];
      [done|].
    exfalso. subst result.
    destruct (is_zero initial_cash) eqn:Hz.
    + rewrite run_zero_cash in Hnone by (done || lia). discriminate Hnone.
    + destruct (run_returns_results np_sqrt names n initial_cash stock_data)
        as (r & Hr & _); [lia | done |].
      rewrite Hr in Hnone. discriminate Hnone.
  - intros Hmany Hz.
    destruct (run_returns_results np_sqrt names n initial_cash stock_data
                Hmany Hz) as (r & Hr & _ & Hone & Hjust).
    by exists r.
Qed.

(** C7 as stated fails for a run of 0 weeks: over 14 distinct timestamps
    no snapshot beyond the first one is recorded, and the run returns
    results instead of failing. *)
Lemma run_of_no_week :
  let result :=
    run sqrt_12 (Backtester_init ["A"%string] 0 (Num.of_Z 10000)) two_weeks in
  distinct_timestamps two_weeks = 14%nat
  ∧ ∃ r, result = Returns (Some r)
         ∧ length (Results.portfolio_history r) = 1%nat.
Proof.
  intros result. split; [by_compute|].
  exists (results_of result). split; by_compute.
Qed.

(** With at least 14 distinct timestamps and a zero initial cash the run
    raises: this is outside C7 as amended. *)
Lemma run_of_zero_cash :
  run sqrt_12 (Backtester_init ["A"%string] 52 Num.zero) two_weeks
  = Raises ZeroDivisionError.
Proof. by_compute. Qed.

(** ** The initial value *)

(** C9.  The results of a run give the initial cash as the initial value:
    the first snapshot of the history holds no symbol, and its cash and
    its total are the initial cash, whatever the series are; the value of
    a ledger without holdings is its cash under every price dict. *)
Theorem initial_value_is_initial_cash :
  ∀ (np_sqrt : num → num) (names : list string) (n : nat)
    (initial_cash : num) (stock_data : list (string * Series))
    (r : Results.t),
    run np_sqrt (Backtester_init names n initial_cash) stock_data
    = Returns (Some r) →
    Results.initial_value r = initial_cash
    ∧ (∃ first,
         head (Results.portfolio_history r) = Some first
         ∧ Snapshot.holdings first = ∅
         ∧ Snapshot.cash first = initial_cash
         ∧ Snapshot.total_value first = initial_cash)
    ∧ ∀ current_prices : gmap string num,
        get_value (Portfolio_init initial_cash) current_prices = initial_cash.
Proof.
  intros np_sqrt names n initial_cash stock_data r Hrun.
  destruct (decide (length (all_dates stock_data) < 14)%nat) as [Hfew|Hmany].
  { rewrite run_insufficient in Hrun by done. discriminate Hrun. }
  destruct (run_reaches_results np_sqrt names n initial_cash stock_data)
    as (final & first & rest & Hfinal & Hh & Htotal & Hcash & Hempty & _);
    [lia|].
  rewrite Hfinal in Hrun.
  unfold calculate_results in Hrun. rewrite Hh in Hrun.
  destruct (is_zero (Snapshot.total_value first)); [discriminate Hrun|].
  injection Hrun as <-. simpl. split; [done|].
  split; [by exists first | apply get_value_init].
Qed.

Lemma initial_value_is_initial_cash_witness :
  run sqrt_12 (Backtester_init ["A"%string] 52 (Num.of_Z 10000)) five_weeks
  = Returns (Some five_weeks_results)
  ∧ Results.total_trades five_weeks_results = 1%nat
  ∧ Results.initial_value five_weeks_results = Num.of_Z 10000.
Proof.
  assert (run sqrt_12 (Backtester_init ["A"%string] 52 (Num.of_Z 10000))
              five_weeks
          = Returns (Some five_weeks_results)) as Hrun by by_compute.
  split; [exact Hrun|]. split; [reflexivity|].
  exact (proj1 (initial_value_is_initial_cash sqrt_12 ["A"%string] 52
                  (Num.of_Z 10000) five_weeks five_weeks_results Hrun)).
Defined.

(** ** The tests of the repository, on the model *)

(** [test_backtest.py], [TestPortfolio]. *)
Example test_buy :
  let portfolio := Portfolio_init (Num.of_Z 10000) in
  let first := buy portfolio "AAPL" (Num.of_Z 10) (Num.of_Z 100) in
  let second := buy first.2 "MSFT" (Num.of_Z 100) (Num.of_Z 200) in
  first.1 = true
  ∧ cash first.2 = Num.of_Z 9000
  ∧ holdings first.2 !! "AAPL"%string = Some (Num.of_Z 10)
  ∧ second.1 = false
  ∧ cash second.2 = Num.of_Z 9000
  ∧ holdings second.2 !! "MSFT"%string = None.
Proof. repeat split; by_compute. Qed.

Example test_sell :
  let portfolio := Portfolio_init (Num.of_Z 10000) in
  let bought := (buy portfolio "AAPL" (Num.of_Z 10) (Num.of_Z 100)).2 in
  let first := sell bought "AAPL" (Num.of_Z 5) (Num.of_Z 110) in
  let second := sell first.2 "AAPL" (Num.of_Z 10) (Num.of_Z 110) in
  first.1 = true
  ∧ holdings first.2 !! "AAPL"%string = Some (Num.of_Z 5)
  ∧ cash first.2 = Num.of_Z (9000 + 5 * 110)
  ∧ second.1 = false.
Proof. repeat split; by_compute. Qed.

Example test_get_value :
  let portfolio := Portfolio_init (Num.of_Z 10000) in
  let one := (buy portfolio "AAPL" (Num.of_Z 10) (Num.of_Z 100)).2 in
  let two := (buy one "MSFT" (Num.of_Z 20) (Num.of_Z 50)).2 in
  let current_prices : gmap string num :=
    {[ "AAPL"%string := Num.of_Z 110; "MSFT"%string := Num.of_Z 60 ]} in
  get_value two current_prices = Num.of_Z (8000 + 10 * 110 + 20 * 60).
Proof. by_compute. Qed.

Example test_record_state :
  let portfolio := Portfolio_init (Num.of_Z 10000) in
  let bought := (buy portfolio "AAPL" (Num.of_Z 10) (Num.of_Z 100)).2 in
  let current_prices : gmap string num := {[ "AAPL"%string := Num.of_Z 100 ]} in
  (λ s, (Snapshot.cash s, Snapshot.total_value s))
    <$> history (record_state bought 0 current_prices)
  = [(Num.of_Z 9000, Num.of_Z 10000)].
Proof. by_compute. Qed.

(** [test_trading_algorithm.py], [TestTradingEngine]. *)
Example test_calculate_weekly_change :
  calculate_weekly_change
    (daily (Num.of_Z <$> [100; 101; 102; 103; 104; 105; 106; 107]))
  = Some (Num.of_Z (107 - 101) / Num.of_Z 101)%num.
Proof. by_compute. Qed.

Example test_weekly_change_with_insufficient_data :
  calculate_weekly_change (daily [Num.of_Z 100]) = None.
Proof. by_compute. Qed.

Example test_generate_signals :
  let flat last := daily (Num.of_Z <$> [100; 100; 100; 100; 100; 100; 100; last]) in
  (generate_signal TradingEngine_default (flat 94)).1
  = (BUY, Num.of_Z 5)
  ∧ (generate_signal TradingEngine_default (flat 112)).1
    = (SELL, Num.of_Z 10)
  ∧ (generate_signal TradingEngine_default (flat 103)).1
    = (HOLD, Num.of_Z 0).
Proof. repeat split; by_compute. Qed.

Example test_execute_trades :
  let flat last := daily (Num.of_Z <$> [100; 100; 100; 100; 100; 100; 100; last]) in
  (execute_trades TradingEngine_default
     [("BUY_STOCK"%string, flat 94); ("SELL_STOCK"%string, flat 112);
      ("HOLD_STOCK"%string, flat 103)]).*1
  = ["BUY_STOCK"%string; "SELL_STOCK"%string].
Proof. by_compute. Qed.

(** [test_trading_algorithm.py], [TestStockSelector]. *)
Example test_volatility_with_insufficient_data :
  calculate_volatility sqrt_12 (daily [Num.of_Z 100]) = NaN.
Proof. by_compute. Qed.

Example test_is_suitable_with_insufficient_data :
  is_suitable sqrt_12 StockSelector_default
    (daily (Num.of_Z <$> [100; 101; 102])) = false.
Proof. by_compute. Qed.

(** [test_backtest.py], [TestBacktester]. *)
Example test_backtest_with_insufficient_data :
  run sqrt_12 (Backtester_init ["STOCK_A"%string] 12 (Num.of_Z 10000))
      [("STOCK_A"%string, daily (Num.of_Z <$> [100; 101; 102; 103; 104]))]
  = Returns None.
Proof. by_compute. Qed.
(** ** The trades of the engine *)

Lemma weekly_change_Some_length (prices : Series) (pct : num) :
  calculate_weekly_change prices = Some pct → (2 ≤ length prices)%nat.
Proof.
  unfold calculate_weekly_change. case_decide; [done|]. intros _. lia.
Qed.

Lemma generate_signal_cases (self : TradingEngine) (prices : Series) :
  (calculate_weekly_change prices = None
   ∧ generate_signal self prices = (HOLD, Num.zero, None))
  ∨ ∃ pct, calculate_weekly_change prices = Some pct
      ∧ (((pct <=? buy_threshold self)%num = true
          ∧ generate_signal self prices = (BUY, buy_amount self, Some pct))
         ∨ ((pct <=? buy_threshold self)%num = false
            ∧ (pct >=? sell_threshold self)%num = true
            ∧ generate_signal self prices
              = (SELL, sell_amount self, Some pct))
         ∨ ((pct <=? buy_threshold self)%num = false
            ∧ (pct >=? sell_threshold self)%num = false
            ∧ generate_signal self prices = (HOLD, Num.zero, Some pct))).
Proof.
  unfold generate_signal.
  destruct (calculate_weekly_change prices) as [pct|]; [|by left].
  right. exists pct. split; [done|].
  destruct (pct <=? buy_threshold self)%num; [by left|].
  destruct (pct >=? sell_threshold self)%num; right; [by left | by right].
Qed.

(** The trade that [execute_trades] makes of one series, if any. *)
Lemma execute_trades_cons (self : TradingEngine) (symbol : string)
    (prices : Series) (rest : list (string * Series)) :
  execute_trades self ((symbol, prices) :: rest)
  = match generate_signal self prices with
    | (HOLD, _, _) => execute_trades self rest
    | (signal, amount, pct_change) =>
        let current_price :=
          if decide (0 < length prices)%nat then iloc prices (-1) else None in
        (symbol,
         {| Trade.signal := signal;
            Trade.amount := amount;
            Trade.shares :=
              match current_price with
              | Some p =>
                  if truthy p && (Num.abs p >? tiny)%num then (amount / p)%num
                  else Num.zero
              | None => Num.zero
              end;
            Trade.price := current_price;
            Trade.weekly_change := pct_change |})
        :: execute_trades self rest
    end.
Proof.
  unfold execute_trades. simpl omap.
  destruct (generate_signal self prices) as [[signal amount] pct_change].
  by destruct signal.
Qed.

Lemma trade_of_signal (self : TradingEngine) (prices : Series)
    (signal : Signal) (amount : num) (pct_change : option num) :
  generate_signal self prices = (signal, amount, pct_change) →
  signal ≠ HOLD →
  trade_of self prices
    (let current_price :=
       if decide (0 < length prices)%nat then iloc prices (-1) else None in
     {| Trade.signal := signal;
        Trade.amount := amount;
        Trade.shares :=
          match current_price with
          | Some p =>
              if truthy p && (Num.abs p >? tiny)%num then (amount / p)%num
              else Num.zero
          | None => Num.zero
          end;
        Trade.price := current_price;
        Trade.weekly_change := pct_change |}).
Proof.
  intros Hsig Hne.
  destruct (generate_signal_cases self prices)
    as [[_ Hhold] | (pct & Hpct & Hcases)];
    [rewrite Hhold in Hsig; congruence|].
  pose proof (weekly_change_Some_length prices pct Hpct) as Hlen.
  destruct (weekly_change_endpoints prices Hlen) as (latest & _ & Hlast & _).
  rewrite decide_True by lia. rewrite iloc_last, Hlast by lia. simpl.
  exists pct, latest.
  destruct Hcases as [(Hle & Hb) | [(Hle & Hge & Hs) | (_ & _ & Hh)]];
    [rewrite Hb in Hsig | rewrite Hs in Hsig | rewrite Hh in Hsig];
    injection Hsig as <- <- <-; [| |done]; simpl.
  - repeat (split; [done|]). split; [|done]. by left.
  - repeat (split; [done|]). split; [|done]. by right.
Qed.

Lemma execute_trades_sublist (self : TradingEngine)
    (stock_data : list (string * Series)) :
  (execute_trades self stock_data).*1 `sublist_of` stock_data.*1.
Proof.
  induction stock_data as [|[symbol prices] rest IH]; [done|].
  rewrite execute_trades_cons.
  destruct (generate_signal self prices) as [[[] amount] pct_change]; simpl;
    by constructor.
Qed.

Lemma execute_trades_elem (self : TradingEngine)
    (stock_data : list (string * Series)) (symbol : string) (trade : Trade.t) :
  (symbol, trade) ∈ execute_trades self stock_data →
  ∃ prices, (symbol, prices) ∈ stock_data ∧ trade_of self prices trade.
Proof.
  induction stock_data as [|[key prices] rest IH]; [by intros ?%elem_of_nil|].
  rewrite execute_trades_cons.
  destruct (generate_signal self prices) as [[signal amount] pct_change]
    eqn:Hsig.
  assert ((symbol, trade) ∈ execute_trades self rest →
          ∃ series, (symbol, series) ∈ (key, prices) :: rest
                    ∧ trade_of self series trade) as Hrest.
  { intros Hin. destruct (IH Hin) as (series & Hs & Ht).
    exists series. split; [by right | done]. }
  destruct signal; [| |done]; simpl;
    (intros [Heq|Hin]%elem_of_cons; [|by apply Hrest]);
    injection Heq as -> ->; exists prices; (split; [by left|]);
    by apply (trade_of_signal self prices _ amount pct_change).
Qed.

(** X1.  [execute_trades] keeps the order of the symbols and makes at most
    one trade per entry of [stock_data].  A trade is never a HOLD; its
    price is the latest price of the series and its weekly change is the
    one of the series, neither of them null; a BUY carries [buy_amount]
    and a SELL carries [sell_amount]. *)
Theorem execute_trades_entries :
  ∀ (self : TradingEngine) (stock_data : list (string * Series)),
    (execute_trades self stock_data).*1 `sublist_of` stock_data.*1
    ∧ ∀ (symbol : string) (trade : Trade.t),
        (symbol, trade) ∈ execute_trades self stock_data →
        Trade.signal trade ≠ HOLD
        ∧ ∃ prices, (symbol, prices) ∈ stock_data
                    ∧ trade_of self prices trade.
Proof.
  intros self stock_data. split; [apply execute_trades_sublist|].
  intros symbol trade Hin.
  destruct (execute_trades_elem self stock_data symbol trade Hin)
    as (prices & Hdata & Htrade).
  split; [|by exists prices].
  destruct Htrade as (pct & latest & _ & _ & _ & _ & [(-> & _)|(-> & _)] & _);
    done.
Qed.

(** ** The summary of the trades *)

Lemma sum_snoc (xs : list num) (x : num) : sum (xs ++ [x]) = (sum xs + x)%num.
Proof. unfold sum. by rewrite foldl_app. Qed.

Lemma of_nat_S (n : nat) : of_nat (S n) = (of_nat n + Num.one)%num.
Proof.
  unfold of_nat, Num.one, Num.of_Z. rewrite add_fin. f_equal.
  rewrite Nat2Z.inj_succ. unfold Z.succ. qc_unfold.
  rewrite inject_Z_plus. reflexivity.
Qed.

Lemma sum_constant (xs : list num) (b : Qc) :
  Forall (λ x, x = Fin b) xs → sum xs = (of_nat (length xs) * Fin b)%num.
Proof.
  induction xs as [|x xs IH] using rev_ind; intros Hall.
  - unfold sum, of_nat, Num.of_Z. simpl. unfold Num.zero, Num.of_Z.
    f_equal. qc_unfold. ring.
  - apply Forall_app in Hall as [Hxs Hx]. inversion Hx as [|? ? Hx' _]; subst.
    rewrite sum_snoc, IH by done.
    rewrite length_app, Nat.add_1_r, of_nat_S.
    unfold of_nat, Num.one, Num.of_Z. rewrite !mul_fin, !add_fin, mul_fin.
    f_equal. qc_unfold. ring.
Qed.

Lemma execute_trades_signals (self : TradingEngine)
    (stock_data : list (string * Series)) :
  Forall (λ trade,
            (Trade.signal trade = BUY ∧ Trade.amount trade = buy_amount self)
            ∨ (Trade.signal trade = SELL
               ∧ Trade.amount trade = sell_amount self))
         (execute_trades self stock_data).*2.
Proof.
  apply Forall_forall. intros trade Hin.
  apply list_elem_of_fmap in Hin as ([symbol trade'] & -> & Hin).
  destruct (execute_trades_elem self stock_data symbol trade' Hin)
    as (prices & _ & pct & latest & _ & _ & _ & _ & Hcases & _).
  simpl. destruct Hcases as [(? & ? & _)|(? & ? & _)]; auto.
Qed.

Lemma buys_and_sells (self : TradingEngine) (trades : list Trade.t) :
  Forall (λ trade,
            (Trade.signal trade = BUY ∧ Trade.amount trade = buy_amount self)
            ∨ (Trade.signal trade = SELL
               ∧ Trade.amount trade = sell_amount self))
         trades →
  let buys := filter (λ t, Trade.signal t = BUY) trades in
  let sells := filter (λ t, Trade.signal t = SELL) trades in
  (length buys + length sells = length trades)%nat
  ∧ Forall (λ x, x = buy_amount self) (Trade.amount <$> buys)
  ∧ Forall (λ x, x = sell_amount self) (Trade.amount <$> sells).
Proof.
  induction 1 as [|trade trades Htrade Hall IH]; [done|].
  destruct IH as (Hlen & Hbuys & Hsells).
  destruct Htrade as [[Hsig Ha]|[Hsig Ha]].
  - rewrite filter_cons_True, (filter_cons_False (λ t, Trade.signal t = SELL))
      by (done || congruence).
    simpl. split; [lia|]. split; [by constructor | done].
  - rewrite (filter_cons_False (λ t, Trade.signal t = BUY)), filter_cons_True
      by (done || congruence).
    simpl. split; [lia|]. split; [done | by constructor].
Qed.

(** X3.  The summary of the trades that [execute_trades] makes: the
    purchases and the sales are all the trades; every purchase carries
    [buy_amount] and every sale [sell_amount], so that [buy_value] is the
    sum of [total_buys] times the number [buy_amount] and [sell_value] the
    sum of [total_sells] times the number [sell_amount]; the net position
    is their difference. *)
Theorem summary_of_executed_trades :
  ∀ (self : TradingEngine) (stock_data : list (string * Series)),
    let trades := execute_trades self stock_data in
    let summary := get_trade_summary self trades in
    (TradeSummary.total_buys summary + TradeSummary.total_sells summary
     = length trades)%nat
    ∧ TradeSummary.buy_value summary
      = sum (replicate (TradeSummary.total_buys summary) (buy_amount self))
    ∧ TradeSummary.sell_value summary
      = sum (replicate (TradeSummary.total_sells summary) (sell_amount self))
    ∧ TradeSummary.net_position summary
      = (TradeSummary.sell_value summary
         - TradeSummary.buy_value summary)%num.
Proof.
  intros self stock_data trades summary.
  pose proof (execute_trades_signals self stock_data) as Hall.
  fold trades in Hall.
  destruct (buys_and_sells self trades.*2 Hall) as (Hlen & Hbuys & Hsells).
  rewrite length_fmap in Hlen.
  assert (∀ (amounts : list num) (x : num),
            Forall (λ y, y = x) amounts →
            amounts = replicate (length amounts) x) as Hsame.
  { intros amounts x Hx. symmetry. apply replicate_as_Forall.
    split; [done|]. eapply Forall_impl; [exact Hx|]. by intros y ->. }
  apply Hsame in Hbuys, Hsells. rewrite !length_fmap in Hbuys, Hsells.
  subst summary. unfold get_trade_summary.
  destruct trades as [|first rest] eqn:Htrades.
  - cbn. split; [done|]. split; [done|]. split; [done|]. by_compute.
  - rewrite <-Htrades in *. clear Htrades.
    cbn [TradeSummary.total_buys TradeSummary.total_sells
         TradeSummary.buy_value TradeSummary.sell_value
         TradeSummary.net_position].
    split; [done|]. split; [by rewrite Hbuys at 1|].
    split; [by rewrite Hsells at 1 | done].
Qed.

(** ** What the signal reads *)

Lemma last_week_length (prices : Series) :
  length (last_week prices) = Nat.min 7 (length prices).
Proof. unfold last_week. rewrite length_drop. lia. Qed.

Lemma last_drop {A : Type} (l : list A) (n : nat) :
  (n < length l)%nat → last (drop n l) = last l.
Proof.
  intros Hn. rewrite !last_lookup, lookup_drop, length_drop. f_equal. lia.
Qed.

Lemma weekly_change_last_week (prices : Series) :
  calculate_weekly_change (last_week prices) = calculate_weekly_change prices.
Proof.
  destruct (decide (length prices ≤ 7)%nat) as [Hshort|Hlong].
  { unfold last_week. replace (length prices - 7)%nat with 0%nat by lia.
    by rewrite drop_0. }
  pose proof (last_week_length prices) as Hlen.
  rewrite Nat.min_l in Hlen by lia.
  assert (last (values (last_week prices)) = last (values prices)) as Hlast.
  { unfold last_week, values. rewrite fmap_drop.
    apply last_drop. rewrite length_fmap. lia. }
  assert (values (last_week prices) !! 0%nat
          = values prices !! (length prices - 7)%nat) as Hfirst.
  { unfold last_week, values. rewrite fmap_drop, lookup_drop.
    by rewrite Nat.add_0_r. }
  unfold calculate_weekly_change.
  rewrite (decide_False (P := (length (last_week prices) < 2)%nat)) by lia.
  rewrite (decide_False (P := (length prices < 2)%nat)) by lia.
  rewrite (decide_True (P := (7 ≤ length (last_week prices))%nat)) by lia.
  rewrite (decide_True (P := (7 ≤ length prices)%nat)) by lia.
  rewrite !iloc_seventh_from_end by lia.
  rewrite (iloc_last (last_week prices)) by lia.
  rewrite (iloc_last prices) by lia.
  by rewrite Hlen, Nat.sub_diag, Hlast, Hfirst.
Qed.

Lemma generate_signal_last_week (self : TradingEngine) (prices : Series) :
  generate_signal self (last_week prices) = generate_signal self prices.
Proof. unfold generate_signal. by rewrite weekly_change_last_week. Qed.

Lemma latest_last_week (prices : Series) :
  (if decide (0 < length (last_week prices))%nat
   then iloc (last_week prices) (-1) else None)
  = (if decide (0 < length prices)%nat then iloc prices (-1) else None).
Proof.
  pose proof (last_week_length prices) as Hlen.
  destruct (decide (0 < length prices)%nat) as [Hpos|Hzero].
  - rewrite decide_True by lia. rewrite !iloc_last by lia.
    unfold last_week, values. rewrite fmap_drop.
    apply last_drop. rewrite length_fmap. lia.
  - rewrite decide_False by lia. done.
Qed.

(** X4.  The engine reads at most the last seven rows of a series: the
    trades made of the series cut down to their last seven rows are the
    trades made of the whole series. *)
Theorem execute_trades_last_week :
  ∀ (self : TradingEngine) (stock_data : list (string * Series)),
    execute_trades self (prod_map id last_week <$> stock_data)
    = execute_trades self stock_data.
Proof.
  intros self stock_data.
  induction stock_data as [|[symbol prices] rest IH]; [done|].
  rewrite fmap_cons. unfold prod_map at 1. cbn [fst snd id].
  rewrite !execute_trades_cons, IH, generate_signal_last_week.
  by rewrite latest_last_week.
Qed.

(** ** The decision and the latest price *)

Lemma change_grows_with_latest (e l l' : Qc) :
  (0 < e)%Qc → (l' ≤ l)%Qc →
  ((Fin l' - Fin e) / Fin e <=? (Fin l - Fin e) / Fin e)%num = true.
Proof.
  intros He Hl.
  assert (e ≠ 0%Qc) as He0 by (intros ->; qc_lra).
  rewrite !sub_fin, !div_fin, leb_fin by done.
  apply bool_decide_eq_true_2.
  assert (((l - e) / e * e = l - e)%Qc) as Hx by by field.
  assert (((l' - e) / e * e = l' - e)%Qc) as Hx' by by field.
  set (x := ((l - e) / e)%Qc) in *. set (x' := ((l' - e) / e)%Qc) in *.
  clearbody x x'. qc_nra.
Qed.

Lemma signal_of_change (self : TradingEngine) (prices : Series) (pct : num) :
  calculate_weekly_change prices = Some pct →
  (generate_signal self prices).1.1
  = if (pct <=? buy_threshold self)%num then BUY
    else if (pct >=? sell_threshold self)%num then SELL else HOLD.
Proof.
  intros Hpct. unfold generate_signal. rewrite Hpct.
  destruct (pct <=? buy_threshold self)%num; [done|].
  by destruct (pct >=? sell_threshold self)%num.
Qed.

(** X5.  The decision follows the latest price.  Take two series of at
    least two rows with the same reference price, a rational of at least
    [1e-10] (the seventh price from the end, or the first of a shorter
    series), and rational latest prices.  If the series with the higher
    latest price gives BUY, so does the one with the lower; if the series
    with the lower latest price gives SELL, so does the one with the
    higher.  The thresholds may be any numbers. *)
Theorem signal_follows_latest_price :
  ∀ (self : TradingEngine) (lower higher : Series) (e l l' : Qc),
    (2 ≤ length lower)%nat → (2 ≤ length higher)%nat →
    values lower !! reference_position lower = Some (Fin e) →
    values higher !! reference_position higher = Some (Fin e) →
    last (values lower) = Some (Fin l') →
    last (values higher) = Some (Fin l) →
    (tiny_q ≤ e)%Qc → (l' ≤ l)%Qc →
    ((generate_signal self higher).1.1 = BUY →
     (generate_signal self lower).1.1 = BUY)
    ∧ ((generate_signal self lower).1.1 = SELL →
       (generate_signal self higher).1.1 = SELL).
Proof.
  intros self lower higher e l l' Hn Hn' He He' Hl' Hl Hguard Hle.
  pose proof tiny_q_pos as Htiny.
  assert (0 < e)%Qc as Hpos by qc_lra.
  pose proof (change_grows_with_latest e l l' Hpos Hle) as Hchange.
  assert (calculate_weekly_change lower
          = Some ((Fin l' - Fin e) / Fin e)%num) as Hlower.
  { rewrite (weekly_change_of_endpoints lower (Fin l') (Fin e)) by done.
    by rewrite abs_not_tiny by done. }
  assert (calculate_weekly_change higher
          = Some ((Fin l - Fin e) / Fin e)%num) as Hhigher.
  { rewrite (weekly_change_of_endpoints higher (Fin l) (Fin e)) by done.
    by rewrite abs_not_tiny by done. }
  rewrite (signal_of_change self lower _ Hlower).
  rewrite (signal_of_change self higher _ Hhigher).
  set (pct' := ((Fin l' - Fin e) / Fin e)%num) in *.
  set (pct := ((Fin l - Fin e) / Fin e)%num) in *.
  destruct (pct <=? buy_threshold self)%num eqn:Hbuy.
  - rewrite (leb_trans pct' pct _ Hchange Hbuy). done.
  - split; [by destruct (pct >=? sell_threshold self)%num|].
    destruct (pct' <=? buy_threshold self)%num; [done|].
    destruct (pct' >=? sell_threshold self)%num eqn:Hsell; [|done].
    intros _. unfold Num.geb in *.
    by rewrite (leb_trans _ pct' pct Hsell Hchange).
Qed.

Lemma signal_follows_latest_price_witness :
  (generate_signal TradingEngine_default (week_then 94)).1.1 = BUY
  ∧ (generate_signal TradingEngine_default (week_then 90)).1.1 = BUY.
Proof.
  assert ((generate_signal TradingEngine_default (week_then 94)).1.1 = BUY)
    as Hhigher by by_compute.
  split; [exact Hhigher|].
  refine (proj1 (signal_follows_latest_price TradingEngine_default
                   (week_then 90) (week_then 94)
                   (Q2Qc (inject_Z 100)) (Q2Qc (inject_Z 94))
                   (Q2Qc (inject_Z 90)) _ _ _ _ _ _ _ _) Hhigher).
  - vm_compute. lia.
  - vm_compute. lia.
  - reflexivity.
  - reflexivity.
  - reflexivity.
  - reflexivity.
  - by_compute.
  - by_compute.
Defined.

(** ** The algorithm: selection, then trades *)

Lemma getitem_elem {A : Type} (d : list (string * A)) (symbol : string)
    (v : A) :
  NoDup d.*1 → (symbol, v) ∈ d → getitem d symbol = Some v.
Proof.
  unfold getitem. induction d as [|[k w] d IH]; intros Hnd Hin.
  { by apply elem_of_nil in Hin. }
  rewrite fmap_cons in Hnd. apply NoDup_cons in Hnd as [Hk Hnd].
  cbn [list_find]. cbn [fst]. apply elem_of_cons in Hin as [Heq|Hin].
  - injection Heq as -> ->. by rewrite decide_True.
  - rewrite decide_False.
    2: { intros ->. apply Hk. apply list_elem_of_fmap. by exists (symbol, v). }
    specialize (IH Hnd Hin).
    destruct (list_find (λ kv, kv.1 = symbol) d) as [[i found]|]; [|done].
    simpl in *. done.
Qed.

Lemma getitem_Some {A : Type} (d : list (string * A)) (symbol : string)
    (v : A) :
  getitem d symbol = Some v → (symbol, v) ∈ d.
Proof.
  unfold getitem. intros Hget.
  destruct (list_find (λ kv, kv.1 = symbol) d) as [[i [k w]]|] eqn:Hfind;
    [|done].
  apply list_find_Some in Hfind as (Hi & Hk & _).
  simpl in *. injection Hget as <-. subst k.
  by apply list_elem_of_lookup_2 in Hi.
Qed.

Section Selection.

Variable np_sqrt : num → num.
Variable self : StockSelector.

Lemma filter_stocks_cons (symbol : string) (prices : Series)
    (rest : list (string * Series)) :
  filter_stocks np_sqrt self ((symbol, prices) :: rest)
  = if is_suitable np_sqrt self prices
    then symbol :: filter_stocks np_sqrt self rest
    else filter_stocks np_sqrt self rest.
Proof.
  unfold filter_stocks. cbn [omap list_omap].
  by destruct (is_suitable np_sqrt self prices).
Qed.

Lemma filter_stocks_keys (stock_data : list (string * Series)) :
  filter_stocks np_sqrt self stock_data
  = (filter (λ kv, is_suitable np_sqrt self kv.2 = true) stock_data).*1.
Proof.
  induction stock_data as [|[symbol prices] rest IH]; [done|].
  rewrite filter_stocks_cons, filter_cons. cbn [snd].
  destruct (is_suitable np_sqrt self prices).
  - rewrite decide_True by done. by rewrite fmap_cons, IH.
  - rewrite decide_False by done. done.
Qed.

Lemma elem_of_filter_stocks (stock_data : list (string * Series))
    (symbol : string) :
  symbol ∈ filter_stocks np_sqrt self stock_data
  ↔ ∃ prices, (symbol, prices) ∈ stock_data
              ∧ is_suitable np_sqrt self prices = true.
Proof.
  rewrite filter_stocks_keys, list_elem_of_fmap. split.
  - intros ([k prices] & -> & Hin). apply list_elem_of_filter in Hin as [? ?].
    by exists prices.
  - intros (prices & Hin & Hs). exists (symbol, prices). split; [done|].
    by apply list_elem_of_filter.
Qed.

Lemma filtered_stock_data (stock_data part : list (string * Series)) :
  NoDup stock_data.*1 → part ⊆ stock_data →
  omap (λ symbol, (λ prices, (symbol, prices)) <$> getitem stock_data symbol)
       (filter_stocks np_sqrt self part)
  = filter (λ kv, is_suitable np_sqrt self kv.2 = true) part.
Proof.
  intros Hnd. induction part as [|[symbol prices] rest IH]; intros Hsub;
    [done|].
  assert (rest ⊆ stock_data) as Hrest.
  { intros kv Hkv. apply Hsub. by apply elem_of_cons; right. }
  rewrite filter_stocks_cons, filter_cons. cbn [snd].
  destruct (is_suitable np_sqrt self prices).
  - rewrite decide_True by done. cbn [omap list_omap].
    rewrite (getitem_elem stock_data symbol prices Hnd)
      by (apply Hsub; by apply elem_of_cons; left).
    cbn [fmap option_fmap option_map]. f_equal. by apply IH.
  - rewrite decide_False by done. by apply IH.
Qed.

End Selection.

Lemma algorithm_run_trades (np_sqrt : num → num)
    (self : StockTradingAlgorithm) (stock_data : list (string * Series)) :
  AlgorithmResults.trades (StockTradingAlgorithm_run np_sqrt self stock_data)
  = algorithm_run np_sqrt self stock_data.
Proof. reflexivity. Qed.

Lemma algorithm_run_filter (np_sqrt : num → num)
    (self : StockTradingAlgorithm) (stock_data : list (string * Series)) :
  NoDup stock_data.*1 →
  algorithm_run np_sqrt self stock_data
  = execute_trades (engine self)
      (filter (λ kv, is_suitable np_sqrt (selector self) kv.2 = true)
              stock_data).
Proof.
  intros Hnd. unfold algorithm_run. by rewrite filtered_stock_data.
Qed.

Lemma execute_trades_keys (self : TradingEngine)
    (stock_data : list (string * Series)) :
  (execute_trades self stock_data).*1 `sublist_of` stock_data.*1.
Proof.
  induction stock_data as [|[symbol prices] rest IH]; [done|].
  rewrite execute_trades_cons, fmap_cons. cbn [fst].
  destruct (generate_signal self prices) as [[[] amount] pct_change].
  - rewrite fmap_cons. by apply sublist_skip.
  - rewrite fmap_cons. by apply sublist_skip.
  - by apply sublist_cons.
Qed.

(** X6.  [StockTradingAlgorithm.run] on a dict of series: the suitable
    symbols are the keys of the series that [is_suitable] accepts, in the
    order of the dict; the trades are the trades that the engine makes of
    those series alone, so every traded symbol is a suitable one and the
    trades follow the order of the suitable symbols; the summary is the
    summary of those trades. *)
Theorem run_trades_the_suitable_stocks :
  ∀ (np_sqrt : num → num) (self : StockTradingAlgorithm)
    (stock_data : list (string * Series)),
    NoDup stock_data.*1 →
    let results := StockTradingAlgorithm_run np_sqrt self stock_data in
    let suitable :=
      filter (λ kv, is_suitable np_sqrt (selector self) kv.2 = true)
             stock_data in
    AlgorithmResults.suitable_stocks results = suitable.*1
    ∧ AlgorithmResults.trades results = execute_trades (engine self) suitable
    ∧ (AlgorithmResults.trades results).*1
        `sublist_of` AlgorithmResults.suitable_stocks results
    ∧ AlgorithmResults.summary results
      = get_trade_summary (engine self)
          (execute_trades (engine self) suitable).
Proof.
  intros np_sqrt self stock_data Hnd results suitable.
  assert (AlgorithmResults.trades results
          = execute_trades (engine self) suitable) as Htrades.
  { subst results. rewrite algorithm_run_trades. by apply algorithm_run_filter. }
  assert (AlgorithmResults.suitable_stocks results = suitable.*1) as Hs.
  { apply filter_stocks_keys. }
  split; [done|]. split; [done|]. split.
  - rewrite Htrades, Hs. apply execute_trades_keys.
  - change (AlgorithmResults.summary results)
      with (get_trade_summary (engine self) (AlgorithmResults.trades results)).
    by rewrite Htrades.
Qed.

Lemma run_trades_the_suitable_stocks_witness :
  let stock_data := [("A"%string, flat_then_zero); ("B"%string, week_then 94)] in
  let results :=
    StockTradingAlgorithm_run sqrt_12 StockTradingAlgorithm_default
      stock_data in
  NoDup stock_data.*1
  ∧ AlgorithmResults.suitable_stocks results = ["A"%string]
  ∧ (AlgorithmResults.trades results).*1 = ["A"%string].
Proof.
  intros stock_data results.
  assert (NoDup stock_data.*1) as Hnd by by_compute.
  destruct (run_trades_the_suitable_stocks sqrt_12
              StockTradingAlgorithm_default stock_data Hnd)
    as (Hs & Ht & _).
  fold results in Hs, Ht.
  split; [exact Hnd|]. split.
  - rewrite Hs. by_compute.
  - rewrite Ht. by_compute.
Defined.

(** ** Counting *)

Lemma inject_le (a b : Z) :
  a ≤ b → (Q2Qc (inject_Z a) ≤ Q2Qc (inject_Z b))%Qc.
Proof. intros Hab. qc_unfold. by rewrite <-Zle_Qle. Qed.

(** ** What the filter lets through *)

Lemma length_dropna (xs : list num) : (length (dropna xs) ≤ length xs)%nat.
Proof. unfold dropna. apply length_filter. Qed.

Lemma returns_fewer_than_rows (prices : Series) :
  (2 ≤ length (dropna (pct_change prices)))%nat → (3 ≤ length prices)%nat.
Proof.
  unfold pct_change. rewrite <-(length_values prices).
  destruct (values prices) as [|v vs]; [simpl; lia|].
  unfold dropna. rewrite filter_cons_False by (simpl; congruence).
  intros Hret.
  pose proof (length_dropna (pct_change_from v vs)) as Hle.
  rewrite length_pct_change_from in Hle. unfold dropna in Hle.
  simpl length. lia.
Qed.

Lemma is_suitable_true (np_sqrt : num → num) (self : StockSelector)
    (prices : Series) :
  is_suitable np_sqrt self prices = true →
  min_data_points self ≤ Z.of_nat (length prices)
  ∧ Num.isnan (calculate_volatility np_sqrt prices) = false
  ∧ (calculate_volatility np_sqrt prices <? min_volatility self)%num = false
  ∧ (calculate_volatility np_sqrt prices >? max_volatility self)%num = false
  ∧ (calculate_predictability_score np_sqrt self prices >? Num.dec 3 1)%num
    = true.
Proof.
  unfold is_suitable. case_decide as Hlen; [done|].
  destruct (Num.isnan _); [done|].
  destruct (_ <? min_volatility self)%num; [done|].
  destruct (_ >? max_volatility self)%num; [done|].
  intros Hscore. split; [lia|]. done.
Qed.

(** X8.  What the filter lets through, for a band of rational bounds.
    Every symbol that [filter_stocks] returns is a key of the input whose
    series has at least [min_data_points] rows and at least three, a
    rational volatility inside the band (both edges included) and a score
    above 0.3.  So a series of fewer than three rows is never selected,
    whatever [min_data_points] is. *)
Theorem filter_stocks_lets_through :
  ∀ (np_sqrt : num → num) (self : StockSelector) (lo hi : Qc)
    (stock_data : list (string * Series)) (symbol : string),
    min_volatility self = Fin lo → max_volatility self = Fin hi →
    symbol ∈ filter_stocks np_sqrt self stock_data →
    ∃ (prices : Series) (v : Qc),
      (symbol, prices) ∈ stock_data
      ∧ min_data_points self ≤ Z.of_nat (length prices)
      ∧ (3 ≤ length prices)%nat
      ∧ calculate_volatility np_sqrt prices = Fin v
      ∧ (lo ≤ v)%Qc ∧ (v ≤ hi)%Qc
      ∧ (calculate_predictability_score np_sqrt self prices >? Num.dec 3 1)%num
        = true.
Proof.
  intros np_sqrt self lo hi stock_data symbol Hlo Hhi Hin.
  apply elem_of_filter_stocks in Hin as (prices & Hin & Hs).
  apply is_suitable_true in Hs as (Hlen & Hnan & Hmin & Hmax & Hscore).
  destruct (score_blend np_sqrt self prices Hlen Hnan) as [Hret _].
  apply returns_fewer_than_rows in Hret.
  rewrite Hlo in Hmin. rewrite Hhi in Hmax. unfold Num.gtb in Hmax.
  destruct (calculate_volatility np_sqrt prices) as [v| | |] eqn:Hv;
    [|done..].
  rewrite ltb_fin in Hmin, Hmax.
  apply bool_decide_eq_false in Hmin, Hmax.
  exists prices, v. repeat split; try done; by apply Qcnot_lt_le.
Qed.

Lemma filter_stocks_lets_through_witness :
  "A"%string
    ∈ filter_stocks sqrt_12 StockSelector_default
        [("A"%string, flat_then_zero)]
  ∧ ∃ (prices : Series) (v : Qc),
      (3 ≤ length prices)%nat
      ∧ calculate_volatility sqrt_12 prices = Fin v
      ∧ (dec_q 1 2 ≤ v)%Qc ∧ (v ≤ dec_q 5 1)%Qc.
Proof.
  assert ("A"%string
            ∈ filter_stocks sqrt_12 StockSelector_default
                [("A"%string, flat_then_zero)]) as Hin by by_compute.
  split; [exact Hin|].
  destruct (filter_stocks_lets_through sqrt_12 StockSelector_default
              (dec_q 1 2) (dec_q 5 1) [("A"%string, flat_then_zero)]
              "A"%string) as (prices & v & _ & _ & H3 & Hv & Hlo & Hhi & _).
  - by_compute.
  - by_compute.
  - exact Hin.
  - exists prices, v. exact (conj H3 (conj Hv (conj Hlo Hhi))).
Defined.

(** ** A price that never moves *)

Lemma pct_change_from_constant (p : Qc) (n : nat) :
  p ≠ 0%Qc →
  pct_change_from (Fin p) (replicate n (Fin p)) = replicate n (Fin 0%Qc).
Proof.
  intros Hp. induction n as [|n IH]; [done|].
  cbn [replicate pct_change_from]. rewrite IH. f_equal.
  rewrite div_fin by done. rewrite of_Z_1, sub_fin. f_equal.
  qc_unfold. field. exact Hp.
Qed.

Lemma pct_change_from_zero (n : nat) :
  dropna (pct_change_from (Fin 0%Qc) (replicate n (Fin 0%Qc))) = [].
Proof. induction n as [|n IH]; [done|]. exact IH. Qed.

Lemma dropna_zeros (n : nat) :
  dropna (replicate n (Fin 0%Qc)) = replicate n (Fin 0%Qc).
Proof.
  induction n as [|n IH]; [done|].
  cbn [replicate]. unfold dropna in *. rewrite filter_cons_True by done.
  by rewrite IH.
Qed.

Lemma sum_zeros (n : nat) : sum (replicate n (Fin 0%Qc)) = Fin 0%Qc.
Proof.
  rewrite (sum_constant _ 0%Qc), length_replicate
    by (apply Forall_forall; intros x Hx; by apply elem_of_replicate in Hx as [-> _]).
  unfold of_nat, Num.of_Z. rewrite mul_fin. f_equal. ring.
Qed.

Lemma zero_over_count (m : nat) :
  (1 ≤ m)%nat → (Fin 0%Qc / of_nat m)%num = Fin 0%Qc.
Proof.
  intros Hm. unfold of_nat, Num.of_Z.
  assert (1 ≤ Q2Qc (inject_Z (Z.of_nat m)))%Qc as Hd
    by (apply (inject_le 1); lia).
  rewrite div_fin by (intros Hz; rewrite Hz in Hd; qc_lra).
  f_equal. unfold Qcdiv. ring.
Qed.

Section Constant.

Variable np_sqrt : num → num.
Hypothesis sqrt_zero : np_sqrt (Fin 0%Qc) = Fin 0%Qc.

Lemma std_zeros (n : nat) :
  (2 ≤ n)%nat → std np_sqrt (replicate n (Fin 0%Qc)) = Fin 0%Qc.
Proof.
  intros Hn. unfold std. rewrite length_replicate.
  rewrite decide_False by lia.
  rewrite sum_zeros, zero_over_count by lia.
  rewrite fmap_replicate.
  change ((Fin 0 - Fin 0) * (Fin 0 - Fin 0))%num with (Fin 0%Qc).
  by rewrite sum_zeros, zero_over_count by lia.
Qed.

Lemma constant_volatility (prices : Series) (p s : Qc) :
  values prices = replicate (length prices) (Fin p) →
  np_sqrt (Num.of_Z 252) = Fin s →
  calculate_volatility np_sqrt prices = NaN
  ∨ calculate_volatility np_sqrt prices = Fin 0%Qc.
Proof.
  intros Hvalues Hs. unfold calculate_volatility.
  case_decide as Hlen; [by left|].
  unfold pct_change. rewrite Hvalues.
  destruct (length prices) as [|n] eqn:Hn; [lia|].
  cbn [replicate]. unfold dropna. rewrite filter_cons_False by (simpl; congruence).
  fold (dropna (pct_change_from (Fin p) (replicate n (Fin p)))).
  destruct (decide (p = 0%Qc)) as [->|Hp].
  { rewrite pct_change_from_zero. left. by rewrite decide_True. }
  rewrite pct_change_from_constant, dropna_zeros by done.
  rewrite length_replicate. case_decide; [by left|].
  destruct (decide (n = 1%nat)) as [->|Hn1].
  { left. reflexivity. }
  right. rewrite std_zeros by lia. rewrite Hs, mul_fin. f_equal. ring.
Qed.

End Constant.

(** X9.  A price that never moves.  When the square root of 0 is 0 and
    that of 252 is a rational, and the lower edge of the band is a
    rational above 0, a series whose prices are all the same rational is
    never suitable, however long it is: its volatility is 0 or NaN. *)
Theorem constant_series_never_suitable :
  ∀ (np_sqrt : num → num) (self : StockSelector) (lo s p : Qc)
    (prices : Series),
    np_sqrt (Fin 0%Qc) = Fin 0%Qc → np_sqrt (Num.of_Z 252) = Fin s →
    min_volatility self = Fin lo → (0 < lo)%Qc →
    values prices = replicate (length prices) (Fin p) →
    is_suitable np_sqrt self prices = false.
Proof.
  intros np_sqrt self lo s p prices Hzero Hs Hlo Hpos Hvalues.
  unfold is_suitable. case_decide; [done|].
  destruct (constant_volatility np_sqrt Hzero prices p s Hvalues Hs)
    as [-> | ->]; [done|].
  cbn [Num.isnan]. rewrite Hlo, ltb_fin.
  by rewrite bool_decide_eq_true_2.
Qed.

Lemma constant_series_never_suitable_witness :
  let prices := daily (replicate 40 (Num.of_Z 100)) in
  (40 ≤ length prices)%nat
  ∧ is_suitable sqrt_12 StockSelector_default prices = false.
Proof.
  intros prices. split; [vm_compute; lia|].
  apply (constant_series_never_suitable sqrt_12 StockSelector_default
           (dec_q 1 2) (Q2Qc (15874507866387 # 1000000000000))
           (Qc_of_Z 100) prices).
  - by_compute.
  - by_compute.
  - by_compute.
  - by_compute.
  - by_compute.
Defined.

(** ** The analysis of one stock and the run *)

Lemma elem_of_execute_trades (self : TradingEngine)
    (stock_data : list (string * Series)) (symbol : string)
    (trade : Trade.t) :
  (symbol, trade) ∈ execute_trades self stock_data
  ↔ ∃ prices, (symbol, prices) ∈ stock_data
      ∧ (generate_signal self prices).1.1 ≠ HOLD
      ∧ Trade.signal trade = (generate_signal self prices).1.1
      ∧ Trade.amount trade = (generate_signal self prices).1.2
      ∧ Trade.weekly_change trade = (generate_signal self prices).2
      ∧ Trade.price trade
        = (if decide (0 < length prices)%nat then iloc prices (-1) else None)
      ∧ Trade.shares trade
        = match Trade.price trade with
          | Some p =>
              if truthy p && (Num.abs p >? tiny)%num
              then (Trade.amount trade / p)%num
              else Num.zero
          | None => Num.zero
          end.
Proof.
  unfold execute_trades. rewrite list_elem_of_omap. split.
  - intros ([k prices] & Hin & Hmake). exists prices.
    destruct (generate_signal self prices) as [[signal amount] pct_change].
    case_decide as Hsignal; [|done].
    injection Hmake as -> <-. done.
  - intros (prices & Hin & Hsignal & H1 & H2 & H3 & H4 & H5).
    exists (symbol, prices). split; [done|].
    destruct (generate_signal self prices) as [[signal amount] pct_change].
    cbn [fst snd] in *. rewrite decide_True by done.
    do 2 f_equal. destruct trade as [a b c d e]. cbn in *.
    subst a b e d. by subst c.
Qed.

Lemma one_series_per_symbol {A : Type} (d : list (string * A))
    (symbol : string) (v w : A) :
  NoDup d.*1 → (symbol, v) ∈ d → (symbol, w) ∈ d → v = w.
Proof.
  intros Hnd Hv Hw.
  pose proof (getitem_elem d symbol v Hnd Hv) as H1.
  pose proof (getitem_elem d symbol w Hnd Hw) as H2.
  congruence.
Qed.

(** X10.  [analyze_stock] tells what [run] does with a stock of its dict:
    the symbol is among the suitable stocks exactly when the analysis
    finds it suitable; a trade that [run] makes of it carries the signal,
    the amount and the weekly change of the analysis, and the symbol is
    suitable and the signal is not HOLD; and [run] does make a trade of a
    suitable stock whose signal is not HOLD. *)
Theorem analysis_agrees_with_run :
  ∀ (np_sqrt : num → num) (self : StockTradingAlgorithm)
    (stock_data : list (string * Series)) (symbol : string)
    (prices : Series),
    NoDup stock_data.*1 → (symbol, prices) ∈ stock_data →
    let analysis := analyze_stock np_sqrt self symbol prices in
    let results := StockTradingAlgorithm_run np_sqrt self stock_data in
    (symbol ∈ AlgorithmResults.suitable_stocks results
     ↔ Analysis.suitable analysis = true)
    ∧ (∀ trade, (symbol, trade) ∈ AlgorithmResults.trades results →
         Analysis.suitable analysis = true
         ∧ Analysis.signal analysis ≠ HOLD
         ∧ Trade.signal trade = Analysis.signal analysis
         ∧ Trade.amount trade = Analysis.amount analysis
         ∧ Trade.weekly_change trade = Analysis.weekly_change analysis)
    ∧ (Analysis.suitable analysis = true →
       Analysis.signal analysis ≠ HOLD →
       ∃ trade, (symbol, trade) ∈ AlgorithmResults.trades results).
Proof.
  intros np_sqrt self stock_data symbol prices Hnd Hin analysis results.
  assert (Analysis.suitable analysis
          = is_suitable np_sqrt (selector self) prices) as Hsuitable.
  { subst analysis. unfold analyze_stock.
    by destruct (generate_signal (engine self) prices) as [[? ?] ?]. }
  assert (Analysis.signal analysis = (generate_signal (engine self) prices).1.1
          ∧ Analysis.amount analysis
            = (generate_signal (engine self) prices).1.2
          ∧ Analysis.weekly_change analysis
            = (generate_signal (engine self) prices).2) as (Hs & Ha & Hw).
  { subst analysis. unfold analyze_stock.
    by destruct (generate_signal (engine self) prices) as [[? ?] ?]. }
  assert (AlgorithmResults.trades results
          = execute_trades (engine self)
              (filter (λ kv, is_suitable np_sqrt (selector self) kv.2 = true)
                      stock_data)) as Htrades.
  { subst results. rewrite algorithm_run_trades. by apply algorithm_run_filter. }
  rewrite Hsuitable, Hs, Ha, Hw, Htrades. split; [|split].
  - change (AlgorithmResults.suitable_stocks results)
      with (filter_stocks np_sqrt (selector self) stock_data).
    rewrite elem_of_filter_stocks. split.
    + intros (prices' & Hin' & Hsuit).
      by rewrite (one_series_per_symbol stock_data symbol prices prices').
    + intros Hsuit. by exists prices.
  - intros trade Htrade.
    apply elem_of_execute_trades
      in Htrade as (prices' & Hin' & Hsig & H1 & H2 & H3 & _).
    apply list_elem_of_filter in Hin' as [Hsuit Hin'].
    rewrite (one_series_per_symbol stock_data symbol prices prices') by done.
    done.
  - intros Hsuit Hsig.
    eexists {| Trade.signal := _; Trade.amount := _; Trade.shares := _;
               Trade.price := _; Trade.weekly_change := _ |}.
    apply elem_of_execute_trades. exists prices.
    split; [by apply list_elem_of_filter|]. cbn.
    split; [done|]. repeat split; reflexivity.
Qed.

Lemma analysis_agrees_with_run_witness :
  let stock_data :=
    [("A"%string, flat_then_zero); ("B"%string, week_then 94)] in
  let analysis :=
    analyze_stock sqrt_12 StockTradingAlgorithm_default "A"%string
      flat_then_zero in
  let results :=
    StockTradingAlgorithm_run sqrt_12 StockTradingAlgorithm_default
      stock_data in
  NoDup stock_data.*1
  ∧ ("A"%string, flat_then_zero) ∈ stock_data
  ∧ Analysis.suitable analysis = true
  ∧ "A"%string ∈ AlgorithmResults.suitable_stocks results.
Proof.
  intros stock_data analysis results.
  assert (NoDup stock_data.*1) as Hnd by by_compute.
  assert (("A"%string, flat_then_zero) ∈ stock_data) as Hin
    by (apply elem_of_cons; by left).
  assert (Analysis.suitable analysis = true) as Hs by by_compute.
  destruct (analysis_agrees_with_run sqrt_12 StockTradingAlgorithm_default
              stock_data "A"%string flat_then_zero Hnd Hin) as ((_ & H) & _).
  exact (conj Hnd (conj Hin (conj Hs (H Hs)))).
Defined.

(** ** Buying and selling back *)



(** ** The value reads the prices of the held symbols *)

Lemma holdings_total_ext (holdings prices1 prices2 : gmap string num) :
  (∀ symbol, is_Some (holdings !! symbol) →
     default Num.zero (prices1 !! symbol)
     = default Num.zero (prices2 !! symbol)) →
  holdings_total holdings prices1 = holdings_total holdings prices2.
Proof.
  induction holdings as [|symbol shares holdings Hfresh IH] using map_ind;
    intros Hagree.
  { by rewrite !holdings_total_empty. }
  rewrite !holdings_total_insert by done.
  rewrite IH, (Hagree symbol); [done| |].
  - rewrite lookup_insert_eq. by eexists.
  - intros other Hother. apply Hagree.
    rewrite lookup_insert_ne; [done|]. intros <-.
    rewrite Hfresh in Hother. by destruct Hother.
Qed.

(** X12.  [get_value] reads the prices of the held symbols only, and a
    held symbol without a price counts as one priced at 0: two price dicts
    that give every held symbol the same price, a missing price standing
    for 0, give the ledger the same value. *)
Theorem get_value_reads_held_prices :
  ∀ (self : Portfolio) (prices1 prices2 : gmap string num),
    (∀ symbol, is_Some (holdings self !! symbol) →
       default Num.zero (prices1 !! symbol)
       = default Num.zero (prices2 !! symbol)) →
    get_value self prices1 = get_value self prices2.
Proof.
  intros self prices1 prices2 Hagree. unfold get_value.
  by rewrite (holdings_total_ext _ prices1 prices2).
Qed.

Lemma get_value_reads_held_prices_witness :
  let self := {| cash := Num.of_Z 50;
                 holdings := {[ "A"%string := Num.of_Z 2 ]};
                 history := [] |} in
  get_value self {[ "A"%string := Num.of_Z 10; "B"%string := Num.of_Z 7 ]}
  = get_value self {[ "A"%string := Num.of_Z 10; "C"%string := Num.of_Z 0 ]}.
Proof.
  intros self. apply get_value_reads_held_prices.
  intros symbol [held Hheld].
  destruct (decide (symbol = "A"%string)) as [->|Hne]; [by_compute|].
  exfalso. subst self. cbn [holdings] in Hheld.
  by rewrite lookup_singleton_ne in Hheld.
Defined.

(** ** What a run returns *)

Lemma last_List_last {A : Type} (l : list A) (x d : A) :
  last (x :: l) = Some (List.last (x :: l) d).
Proof.
  revert x. induction l as [|y l IH]; intros x; [done|].
  rewrite last_cons_cons. apply IH.
Qed.

Lemma run_Some (np_sqrt : num → num) (self : Backtester)
    (stock_data : list (string * Series)) (r : Results.t) :
  run np_sqrt self stock_data = Returns (Some r) →
  ∃ start_date later final log,
    all_dates stock_data = start_date :: later
    ∧ (14 ≤ length (all_dates stock_data))%nat
    ∧ simulate np_sqrt (algorithm self) stock_data (start_date :: later)
        (weeks self) 7
        (record_state (portfolio self) start_date
           (price_dict (λ prices, loc prices start_date) stock_data),
         trade_log self)
      = (final, log)
    ∧ Results.portfolio_history r = history final
    ∧ Results.trade_log r = log
    ∧ Results.final_holdings r = holdings final
    ∧ Results.total_trades r = length log
    ∧ Results.buy_trades r
      = length (filter (λ t, LogEntry.action t = BUY) log)
    ∧ Results.sell_trades r
      = length (filter (λ t, LogEntry.action t = SELL) log)
    ∧ last (Snapshot.total_value <$> history final)
      = Some (Results.final_value r).
Proof.
  unfold run. destruct stock_data as [|kv others] eqn:Hdata; [done|].
  rewrite <-Hdata. clear Hdata.
  case_decide as Hlen; [done|].
  destruct (all_dates stock_data) as [|start_date later] eqn:Hdates; [done|].
  destruct (simulate _ _ _ _ _ _ _) as [final log] eqn:Hsim.
  unfold calculate_results. cbn [portfolio trade_log].
  destruct (history final) as [|first rest] eqn:Hh; [done|].
  destruct (is_zero _); [done|].
  intros [= <-]. exists start_date, later, final, log.
  cbn [Results.portfolio_history Results.trade_log Results.final_holdings
       Results.total_trades Results.buy_trades Results.sell_trades
       Results.final_value].
  rewrite Hh. split; [done|]. split; [simpl in Hlen; simpl; lia|].
  do 7 (split; [done|]).
  rewrite fmap_last, (last_List_last rest first first). done.
Qed.

(** ** No debt and no short position *)

Lemma quotient_positive (a p : Qc) : (0 < a)%Qc → (0 < p)%Qc → (0 < a / p)%Qc.
Proof.
  intros Ha Hp.
  assert ((a / p * p = a)%Qc) as Hx by (field; intros ->; qc_lra).
  set (x := (a / p)%Qc) in *. clearbody x. qc_nra.
Qed.

Lemma quotient_times (a p : Qc) : (0 < p)%Qc → (a / p * p = a)%Qc.
Proof. intros Hp. field. intros ->. qc_lra. Qed.

Lemma window_data_positive (stock_data : list (string * Series))
    (current_date : Z) :
  positive_prices stock_data →
  positive_prices (window_data stock_data current_date).
Proof.
  intros Hpos symbol window row Hin Hrow.
  unfold window_data in Hin. apply list_elem_of_omap in Hin
    as ([k prices] & Hin & Hmake).
  case_decide; [|done]. injection Hmake as <- <-.
  apply list_elem_of_filter in Hrow as [_ Hrow].
  by apply (Hpos k prices row).
Qed.

Lemma price_dict_positive (f : Series → option num)
    (stock_data : list (string * Series)) :
  (∀ prices v, f prices = Some v → ∃ row, row ∈ prices ∧ row.2 = v) →
  positive_prices stock_data →
  positive_dict (price_dict f stock_data).
Proof.
  intros Hf. unfold price_dict.
  assert (∀ acc, positive_dict acc → positive_prices stock_data →
            positive_dict
              (foldl (λ acc kv,
                        match f kv.2 with
                        | Some v => <[kv.1 := v]> acc
                        | None => acc
                        end) acc stock_data)) as Hgen.
  { induction stock_data as [|[k prices] rest IH]; intros acc Hacc Hpos;
      [done|].
    cbn [foldl fst snd]. apply IH.
    - destruct (f prices) as [v|] eqn:Hv; [|done].
      intros symbol w Hw.
      destruct (decide (symbol = k)) as [->|Hne].
      + rewrite lookup_insert_eq in Hw. injection Hw as <-.
        destruct (Hf prices v Hv) as (row & Hrow & <-).
        apply (Hpos k prices row); [|done]. by apply elem_of_cons; left.
      + rewrite lookup_insert_ne in Hw by done. by apply (Hacc symbol).
    - intros symbol ps row Hin. apply (Hpos symbol ps row).
      by apply elem_of_cons; right. }
  intros Hpos. apply Hgen; [|done]. intros symbol v Hv.
  by rewrite lookup_empty in Hv.
Qed.

Lemma latest_price_row (prices : Series) (v : num) :
  (if decide (0 < length prices)%nat then iloc prices (-1) else None)
  = Some v →
  ∃ row, row ∈ prices ∧ row.2 = v.
Proof.
  case_decide as Hlen; [|done]. rewrite iloc_last by done.
  intros Hlast. apply last_Some_elem_of in Hlast.
  unfold values in Hlast. apply list_elem_of_fmap in Hlast as (row & -> & Hrow).
  by exists row.
Qed.

Lemma loc_row (prices : Series) (date : Z) (v : num) :
  loc prices date = Some v → ∃ row, row ∈ prices ∧ row.2 = v.
Proof.
  unfold loc. intros Hloc.
  destruct (list_find (λ row, row.1 = date) prices) as [[i row]|] eqn:Hfind;
    [|done].
  apply list_find_Some in Hfind as (Hi & _ & _).
  injection Hloc as <-. exists row. split; [|done].
  by apply list_elem_of_lookup_2 in Hi.
Qed.

Section Sound.

Variable np_sqrt : num → num.
Variable algorithm : StockTradingAlgorithm.
Hypothesis amounts : positive_amounts (engine algorithm).

Lemma process_trade_sound (current_date : Z)
    (current_prices : gmap string num)
    (state : Portfolio * list LogEntry.t) (symbol : string)
    (trade : Trade.t) :
  positive_dict current_prices →
  (Trade.signal trade = BUY
   ∧ Trade.amount trade = buy_amount (engine algorithm))
  ∨ (Trade.signal trade = SELL
     ∧ Trade.amount trade = sell_amount (engine algorithm)) →
  sound algorithm state →
  sound algorithm (process_trade current_date current_prices state (symbol, trade)).
Proof.
  intros Hprices Htrade Hsound.
  pose proof tiny_q_pos as Htiny.
  destruct amounts as (b & s & Hb & Hs & Hb0 & Hs0).
  destruct state as [portfolio log].
  destruct Hsound as (((c & Hc & Hc0) & Hheld) & Hhistory & Hlog).
  cbn [fst snd] in *.
  unfold process_trade.
  destruct (current_prices !! symbol) as [price|] eqn:Hprice.
  2: { by split; [split; [exists c|]|]. }
  destruct (Hprices symbol price Hprice) as (p & -> & Hp).
  assert (p ≠ 0%Qc) as Hp0 by (intros ->; qc_lra).
  destruct Htrade as [[-> Ha]|[-> Ha]].
  - unfold requested_shares. rewrite Ha, Hb, div_fin by done.
    pose proof (quotient_positive b p Hb0 Hp) as Hshares.
    pose proof (quotient_times b p Hp) as Hcost.
    unfold buy. rewrite Hc, mul_fin, leb_fin, Hcost.
    case_bool_decide as Hafford.
    2: { split; [|done]. split; [by exists c | done]. }
    unfold sound. cbn [fst snd cash holdings history].
    split; [|split; [done|]].
    + split.
      * rewrite sub_fin. eexists. split; [done|]. qc_lra.
      * intros other held Hother.
        destruct (decide (other = symbol)) as [->|Hne].
        -- rewrite lookup_insert_eq in Hother. injection Hother as <-.
           destruct (holdings portfolio !! symbol) as [h|] eqn:Hh.
           ++ destruct (Hheld symbol h Hh) as (q & -> & Hq).
              cbn [default from_option id]. rewrite add_fin.
              eexists. split; [done|]. qc_lra.
           ++ cbn [default from_option id].
              change Num.zero with (Fin 0%Qc). rewrite add_fin.
              eexists. split; [done|]. qc_lra.
        -- rewrite lookup_insert_ne in Hother by done.
           by apply (Hheld other).
    + apply Forall_app. split; [done|]. apply Forall_singleton.
      exists (b / p)%Qc, p, b. cbn. repeat split; try done.
      by left.
  - unfold requested_shares. rewrite Ha, Hs, div_fin by done.
    pose proof (quotient_positive s p Hs0 Hp) as Hshares.
    pose proof (quotient_times s p Hp) as Hcost.
    destruct (holdings portfolio !! symbol) as [held|] eqn:Hh.
    2: { by split; [split; [exists c|]|]. }
    destruct (Hheld symbol held Hh) as (h & -> & Hh0).
    assert (∃ a : Qc, Num.min (Fin (s / p)) (Fin h) = Fin a
                      ∧ (0 < a)%Qc ∧ (a ≤ h)%Qc ∧ (a ≤ s / p)%Qc)
      as (a & -> & Ha0 & Hah & Has).
    { unfold Num.min. rewrite ltb_fin. case_bool_decide.
      - exists h. split; [done|]. split; [done|]. split; qc_lra.
      - exists (s / p)%Qc. split; [done|]. split; [done|]. split; qc_lra. }
    unfold sell. rewrite Hh. unfold Num.geb. rewrite leb_fin.
    rewrite bool_decide_eq_true_2 by done.
    unfold sound. cbn [fst snd cash holdings history].
    rewrite Hc, mul_fin, add_fin, sub_fin, tiny_eq, ltb_fin.
    assert (a * p ≤ s)%Qc as Hproceeds.
    { set (x := (s / p)%Qc) in *. clearbody x. qc_nra. }
    assert (0 < a * p)%Qc as Hpos by qc_nra.
    split; [|split; [done|]].
    + split.
      * eexists. split; [done|]. qc_lra.
      * intros other held Hother. case_bool_decide as Hdust.
        -- rewrite delete_insert_eq in Hother.
           apply lookup_delete_Some in Hother as [_ Hother].
           by apply (Hheld other).
        -- destruct (decide (other = symbol)) as [->|Hne].
           ++ rewrite lookup_insert_eq in Hother. injection Hother as <-.
              eexists. split; [done|]. qc_lra.
           ++ rewrite lookup_insert_ne in Hother by done.
              by apply (Hheld other).
    + apply Forall_app. split; [done|]. apply Forall_singleton.
      exists a, p, (a * p)%Qc. cbn. repeat split; try done.
      right. split; [done|]. by exists s.
Qed.

Lemma process_trades_sound (current_date : Z)
    (current_prices : gmap string num) (trades : list (string * Trade.t))
    (state : Portfolio * list LogEntry.t) :
  positive_dict current_prices →
  Forall (λ trade,
            (Trade.signal trade = BUY
             ∧ Trade.amount trade = buy_amount (engine algorithm))
            ∨ (Trade.signal trade = SELL
               ∧ Trade.amount trade = sell_amount (engine algorithm)))
         trades.*2 →
  sound algorithm state →
  sound algorithm (foldl (process_trade current_date current_prices) state trades).
Proof.
  intros Hprices. revert state.
  induction trades as [|[symbol trade] trades IH]; intros state Hall Hsound;
    [done|].
  rewrite fmap_cons in Hall. apply Forall_cons in Hall as [Htrade Hall].
  cbn [foldl]. apply IH; [done|]. by apply process_trade_sound.
Qed.

Lemma record_state_sound (state : Portfolio * list LogEntry.t) (date : Z)
    (current_prices : gmap string num) :
  sound algorithm state → sound algorithm (record_state state.1 date current_prices, state.2).
Proof.
  intros (Hsolvent & Hhistory & Hlog). split; [done|]. split; [|done].
  cbn [fst history record_state]. apply Forall_app. split; [done|].
  by apply Forall_singleton.
Qed.

Lemma week_step_sound (stock_data : list (string * Series))
    (current_date : Z) (state : Portfolio * list LogEntry.t) :
  positive_prices stock_data → sound algorithm state →
  sound algorithm (week_step np_sqrt algorithm stock_data current_date state).
Proof.
  intros Hpos Hsound. unfold week_step.
  pose proof (window_data_positive stock_data current_date Hpos) as Hwindow.
  destruct (window_data stock_data current_date) as [|w ws]; [done|].
  set (current_prices := price_dict _ (w :: ws)).
  assert (positive_dict current_prices) as Hprices.
  { apply price_dict_positive; [|done]. apply latest_price_row. }
  pose proof (process_trades_sound current_date current_prices
                (algorithm_run np_sqrt algorithm (w :: ws)) state Hprices
                (execute_trades_signals _ _) Hsound) as Hafter.
  destruct (foldl _ state _) as [portfolio log].
  by apply (record_state_sound (portfolio, log)).
Qed.

Lemma simulate_sound (stock_data : list (string * Series)) (dates : list Z)
    (remaining i : nat) (state : Portfolio * list LogEntry.t) :
  positive_prices stock_data → sound algorithm state →
  sound algorithm (simulate np_sqrt algorithm stock_data dates remaining i state).
Proof.
  intros Hpos. revert i state.
  induction remaining as [|remaining IH]; intros i state Hsound; [done|].
  cbn [simulate]. destruct (dates !! i) as [current_date|]; [|done].
  apply IH. by apply week_step_sound.
Qed.

End Sound.

Lemma run_sound (np_sqrt : num → num) (self : Backtester)
    (stock_data : list (string * Series)) (r : Results.t) :
  positive_amounts (engine (algorithm self)) →
  positive_prices stock_data →
  sound (algorithm self) (portfolio self, trade_log self) →
  run np_sqrt self stock_data = Returns (Some r) →
  Forall solvent_snapshot (Results.portfolio_history r)
  ∧ Forall (entry_of (engine (algorithm self))) (Results.trade_log r)
  ∧ ∀ symbol held, Results.final_holdings r !! symbol = Some held →
      ∃ q : Qc, held = Fin q ∧ (0 < q)%Qc.
Proof.
  intros Hamounts Hpos Hsound Hrun.
  apply run_Some in Hrun
    as (start_date & later & final & log & _ & _ & Hsim & -> & -> & -> & _).
  set (current_prices := price_dict _ stock_data) in Hsim.
  pose proof (record_state_sound (algorithm self)
                (portfolio self, trade_log self) start_date current_prices
                Hsound) as Hstart.
  pose proof (simulate_sound np_sqrt (algorithm self) Hamounts stock_data
                (start_date :: later) (weeks self) 7 _ Hpos Hstart)
    as Hfinal.
  cbn [fst snd] in Hfinal. rewrite Hsim in Hfinal.
  destruct Hfinal as ((_ & Hheld) & Hhistory & Hlog). done.
Qed.

Lemma positive_prices_check (stock_data : list (string * Series)) :
  forallb (λ kv : string * Series,
             forallb (λ row : Z * num, (Num.zero <? row.2)%num
                                       && Num.isfinite row.2) kv.2)
          stock_data = true →
  positive_prices stock_data.
Proof.
  intros Hcheck symbol prices row Hin Hrow.
  rewrite forallb_forall in Hcheck.
  apply list_elem_of_In in Hin. specialize (Hcheck _ Hin). cbn [snd] in Hcheck.
  rewrite forallb_forall in Hcheck.
  apply list_elem_of_In in Hrow. specialize (Hcheck _ Hrow).
  apply andb_prop in Hcheck as [Hpos Hfin].
  destruct (row.2) as [q| | |]; [|done..].
  exists q. split; [done|].
  change Num.zero with (Fin 0%Qc) in Hpos. rewrite ltb_fin in Hpos.
  by apply bool_decide_eq_true_1 in Hpos.
Qed.

Lemma fresh_backtester_sound (names : list string) (n : nat) (c : Qc) :
  (0 ≤ c)%Qc →
  let self := Backtester_init names n (Fin c) in
  sound (algorithm self) (portfolio self, trade_log self).
Proof.
  intros Hc self. split; [|by split].
  split; [by exists c|]. intros symbol held Hheld.
  cbn in Hheld. by rewrite lookup_empty in Hheld.
Qed.

Lemma default_amounts : positive_amounts TradingEngine_default.
Proof.
  exists (Qc_of_Z 5), (Qc_of_Z 10).
  split; [by_compute|]. split; [by_compute|]. split; by_compute.
Qed.



(** ** The trade log of a run *)

Lemma process_trade_log (current_date : Z)
    (current_prices : gmap string num)
    (state : Portfolio * list LogEntry.t) (symbol : string)
    (trade : Trade.t) :
  ∃ added,
    (process_trade current_date current_prices state (symbol, trade)).2
    = state.2 ++ added
    ∧ Forall (λ entry,
                (LogEntry.action entry = BUY ∨ LogEntry.action entry = SELL)
                ∧ LogEntry.date entry = current_date
                ∧ LogEntry.symbol entry = symbol) added.
Proof.
  destruct state as [portfolio log]. unfold process_trade.
  assert (∃ added,
            log = log ++ added
            ∧ Forall (λ entry,
                (LogEntry.action entry = BUY ∨ LogEntry.action entry = SELL)
                ∧ LogEntry.date entry = current_date
                ∧ LogEntry.symbol entry = symbol) added) as Hsame.
  { exists []. by rewrite app_nil_r. }
  destruct (current_prices !! symbol) as [price|]; [|done].
  destruct (Trade.signal trade); [| |done].
  - destruct (buy portfolio symbol _ price) as [[] after]; [|done].
    eexists. split; [reflexivity|]. apply Forall_singleton. cbn. auto.
  - destruct (holdings portfolio !! symbol) as [held|]; [|done].
    destruct (sell portfolio symbol _ price) as [[] after]; [|done].
    eexists. split; [reflexivity|]. apply Forall_singleton. cbn. auto.
Qed.

Lemma process_trades_log (current_date : Z)
    (current_prices : gmap string num) (trades : list (string * Trade.t))
    (state : Portfolio * list LogEntry.t) :
  ∃ added,
    (foldl (process_trade current_date current_prices) state trades).2
    = state.2 ++ added
    ∧ Forall (λ entry,
                (LogEntry.action entry = BUY ∨ LogEntry.action entry = SELL)
                ∧ LogEntry.date entry = current_date
                ∧ LogEntry.symbol entry ∈ trades.*1) added.
Proof.
  revert state. induction trades as [|[symbol trade] trades IH]; intros state.
  { exists []. by rewrite app_nil_r. }
  cbn [foldl].
  destruct (process_trade_log current_date current_prices state symbol trade)
    as (added1 & H1 & Hall1).
  destruct (IH (process_trade current_date current_prices state
                  (symbol, trade))) as (added2 & H2 & Hall2).
  exists (added1 ++ added2). rewrite H2, H1, app_assoc. split; [done|].
  apply Forall_app. split.
  - eapply Forall_impl; [exact Hall1|]. intros entry (? & ? & ->).
    rewrite fmap_cons. split; [done|]. split; [done|]. by apply elem_of_cons; left.
  - eapply Forall_impl; [exact Hall2|]. intros entry (? & ? & ?).
    rewrite fmap_cons. split; [done|]. split; [done|]. by apply elem_of_cons; right.
Qed.

Lemma algorithm_run_keys (np_sqrt : num → num)
    (algorithm : StockTradingAlgorithm) (stock_data : list (string * Series))
    (symbol : string) :
  symbol ∈ (algorithm_run np_sqrt algorithm stock_data).*1 →
  symbol ∈ stock_data.*1.
Proof.
  unfold algorithm_run. intros Hin.
  apply (sublist_subseteq _ _ (execute_trades_keys _ _)) in Hin.
  apply list_elem_of_fmap in Hin as ([k prices] & -> & Hin).
  apply list_elem_of_omap in Hin as (name & _ & Hget).
  destruct (getitem stock_data name) as [found|] eqn:Hfound; [|done].
  injection Hget as <- <-. apply getitem_Some in Hfound.
  apply list_elem_of_fmap. by exists (name, found).
Qed.

Lemma window_data_keys (stock_data : list (string * Series))
    (current_date : Z) (symbol : string) :
  symbol ∈ (window_data stock_data current_date).*1 → symbol ∈ stock_data.*1.
Proof.
  intros Hin. apply list_elem_of_fmap in Hin as ([k window] & -> & Hin).
  unfold window_data in Hin.
  apply list_elem_of_omap in Hin as ([name prices] & Hin & Hmake).
  case_decide; [|done]. injection Hmake as <- _.
  apply list_elem_of_fmap. by exists (name, prices).
Qed.

Section Log.

Variable np_sqrt : num → num.
Variable algorithm : StockTradingAlgorithm.
Variable stock_data : list (string * Series).

Lemma week_step_log (current_date : Z) (state : Portfolio * list LogEntry.t) :
  ∃ added,
    (week_step np_sqrt algorithm stock_data current_date state).2
    = state.2 ++ added
    ∧ Forall (λ entry,
                (LogEntry.action entry = BUY ∨ LogEntry.action entry = SELL)
                ∧ LogEntry.date entry = current_date
                ∧ LogEntry.symbol entry ∈ stock_data.*1) added.
Proof.
  unfold week_step.
  pose proof (window_data_keys stock_data current_date) as Hkeys.
  destruct (window_data stock_data current_date) as [|w ws].
  { exists []. by rewrite app_nil_r. }
  set (current_prices := price_dict _ (w :: ws)).
  destruct (process_trades_log current_date current_prices
              (algorithm_run np_sqrt algorithm (w :: ws)) state)
    as (added & Hlog & Hall).
  destruct (foldl _ state _) as [portfolio log]. cbn [snd] in *.
  exists added. split; [done|].
  eapply Forall_impl; [exact Hall|]. intros entry (? & ? & Hsym).
  split; [done|]. split; [done|].
  by apply Hkeys, (algorithm_run_keys np_sqrt algorithm).
Qed.

Lemma simulate_log (dates : list Z) (remaining i : nat)
    (state : Portfolio * list LogEntry.t) :
  ∃ added,
    (simulate np_sqrt algorithm stock_data dates remaining i state).2
    = state.2 ++ added
    ∧ Forall (λ entry,
                (LogEntry.action entry = BUY ∨ LogEntry.action entry = SELL)
                ∧ LogEntry.date entry ∈ dates
                ∧ LogEntry.symbol entry ∈ stock_data.*1) added.
Proof.
  revert i state. induction remaining as [|remaining IH]; intros i state.
  { exists []. by rewrite app_nil_r. }
  cbn [simulate]. destruct (dates !! i) as [current_date|] eqn:Hdate.
  2: { exists []. by rewrite app_nil_r. }
  destruct (week_step_log current_date state) as (added1 & H1 & Hall1).
  destruct (IH (i + 7)%nat
              (week_step np_sqrt algorithm stock_data current_date state))
    as (added2 & H2 & Hall2).
  exists (added1 ++ added2). rewrite H2, H1, app_assoc. split; [done|].
  apply Forall_app. split; [|done].
  eapply Forall_impl; [exact Hall1|]. intros entry (? & -> & ?).
  split; [done|]. split; [|done]. by apply list_elem_of_lookup_2 in Hdate.
Qed.

End Log.

Lemma buys_and_sells_of_log (log : list LogEntry.t) :
  Forall (λ entry,
            LogEntry.action entry = BUY ∨ LogEntry.action entry = SELL) log →
  (length (filter (λ t, LogEntry.action t = BUY) log)
   + length (filter (λ t, LogEntry.action t = SELL) log)
   = length log)%nat.
Proof.
  induction 1 as [|entry log Hentry Hall IH]; [done|].
  destruct Hentry as [Ha|Ha].
  - rewrite filter_cons_True, (filter_cons_False (λ t, LogEntry.action t = SELL))
      by (done || congruence).
    simpl. lia.
  - rewrite (filter_cons_False (λ t, LogEntry.action t = BUY)), filter_cons_True
      by (done || congruence).
    simpl. lia.
Qed.

(** X15.  The trade log of the results is the log that the backtester had
    with the entries of the run appended; every appended entry is a
    purchase or a sale, dated by one of the dates of the data, of one of
    the symbols of the data.  From an empty log, the number of trades is
    the length of the log and the sum of the numbers of purchases and
    sales. *)
Theorem trade_log_of_run :
  ∀ (np_sqrt : num → num) (self : Backtester)
    (stock_data : list (string * Series)) (r : Results.t),
    run np_sqrt self stock_data = Returns (Some r) →
    (∃ added,
       Results.trade_log r = trade_log self ++ added
       ∧ Forall (λ entry,
                   (LogEntry.action entry = BUY
                    ∨ LogEntry.action entry = SELL)
                   ∧ LogEntry.date entry ∈ all_dates stock_data
                   ∧ LogEntry.symbol entry ∈ stock_data.*1) added)
    ∧ Results.total_trades r = length (Results.trade_log r)
    ∧ (trade_log self = [] →
       Results.total_trades r
       = (Results.buy_trades r + Results.sell_trades r)%nat).
Proof.
  intros np_sqrt self stock_data r Hrun.
  apply run_Some in Hrun
    as (start_date & later & final & log & Hdates & _ & Hsim & _ & -> & _
        & -> & -> & -> & _).
  destruct (simulate_log np_sqrt (algorithm self) stock_data
              (start_date :: later) (weeks self) 7
              (record_state (portfolio self) start_date
                 (price_dict (λ prices, loc prices start_date) stock_data),
               trade_log self)) as (added & Hlog & Hall).
  rewrite Hsim in Hlog. cbn [snd] in Hlog. rewrite <-Hdates in Hall.
  split; [by exists added|]. split; [done|].
  intros Hempty. rewrite Hempty in Hlog. cbn [app] in Hlog. subst log.
  symmetry. apply buys_and_sells_of_log.
  eapply Forall_impl; [exact Hall|]. by intros entry (? & _).
Qed.

Lemma trade_log_of_run_witness :
  run sqrt_12 (Backtester_init ["A"%string] 52 (Num.of_Z 10000)) five_weeks
  = Returns (Some five_weeks_results)
  ∧ Results.total_trades five_weeks_results = 1%nat
  ∧ Results.total_trades five_weeks_results
    = length (Results.trade_log five_weeks_results).
Proof.
  assert (run sqrt_12 (Backtester_init ["A"%string] 52 (Num.of_Z 10000))
              five_weeks
          = Returns (Some five_weeks_results)) as Hrun by by_compute.
  split; [exact Hrun|]. split; [reflexivity|].
  exact (proj1 (proj2 (trade_log_of_run sqrt_12
                         (Backtester_init ["A"%string] 52 (Num.of_Z 10000))
                         five_weeks five_weeks_results Hrun))).
Defined.

(** ** The snapshots of a run *)

Lemma window_of_a_date (stock_data : list (string * Series)) (d : Z) :
  d ∈ all_dates stock_data → window_data stock_data d ≠ [].
Proof.
  unfold all_dates. rewrite elem_of_sorted_set, list_elem_of_bind.
  intros ([symbol prices] & Hd & Hin) Hempty.
  cbn [snd] in Hd. unfold index in Hd.
  apply list_elem_of_fmap in Hd as (row & -> & Hrow).
  assert ((symbol, filter (λ r, r.1 ≤ row.1) prices)
            ∈ window_data stock_data row.1) as Hwindow.
  { unfold window_data. apply list_elem_of_omap.
    exists (symbol, prices). split; [done|].
    rewrite decide_True; [done|].
    assert (row ∈ filter (λ r, r.1 ≤ row.1) prices) as Hkept
      by (apply list_elem_of_filter; split; [lia | done]).
    apply list_elem_of_lookup_1 in Hkept as [j Hj].
    apply lookup_lt_Some in Hj.
    exact (Nat.le_lt_trans _ _ _ (Nat.le_0_l j) Hj). }
  rewrite Hempty in Hwindow. by apply elem_of_nil in Hwindow.
Qed.

Section Snapshots.

Variable np_sqrt : num → num.
Variable algorithm : StockTradingAlgorithm.
Variable stock_data : list (string * Series).

Lemma week_step_snapshot (current_date : Z)
    (state : Portfolio * list LogEntry.t) :
  window_data stock_data current_date ≠ [] →
  ∃ snapshot,
    history (week_step np_sqrt algorithm stock_data current_date state).1
    = history state.1 ++ [snapshot]
    ∧ Snapshot.date snapshot = current_date.
Proof.
  intros Hwindow. unfold week_step.
  destruct (window_data stock_data current_date) as [|w ws]; [done|].
  set (trades := algorithm_run np_sqrt algorithm (w :: ws)).
  set (current_prices := price_dict _ (w :: ws)).
  pose proof (process_trades_history current_date current_prices trades state)
    as Hh.
  destruct (foldl _ state trades) as [portfolio log].
  cbn [fst history record_state] in *. rewrite Hh. by eexists.
Qed.

Lemma simulate_snapshots (dates : list Z) (remaining i : nat)
    (state : Portfolio * list LogEntry.t) :
  (∀ d, d ∈ dates → window_data stock_data d ≠ []) →
  ∃ added,
    history (simulate np_sqrt algorithm stock_data dates remaining i state).1
    = history state.1 ++ added
    ∧ length added = Nat.min remaining ((length dates + 6 - i) / 7)
    ∧ ∀ k snapshot, added !! k = Some snapshot →
        dates !! (i + 7 * k)%nat = Some (Snapshot.date snapshot).
Proof.
  intros Hwindow. revert i state.
  induction remaining as [|remaining IH]; intros i state.
  { exists []. rewrite app_nil_r. split; [done|]. split; [done|].
    intros k snapshot Hk. by rewrite lookup_nil in Hk. }
  cbn [simulate]. destruct (dates !! i) as [current_date|] eqn:Hdate.
  2: { apply lookup_ge_None in Hdate.
       exists []. rewrite app_nil_r. split; [done|]. split.
       - replace ((length dates + 6 - i) / 7)%nat with 0%nat; [simpl; lia|].
         symmetry. apply Nat.div_small. lia.
       - intros k snapshot Hk. by rewrite lookup_nil in Hk. }
  pose proof (lookup_lt_Some _ _ _ Hdate) as Hi.
  destruct (week_step_snapshot current_date state) as (snapshot & H1 & Hd).
  { apply Hwindow. by apply list_elem_of_lookup_2 in Hdate. }
  destruct (IH (i + 7)%nat
              (week_step np_sqrt algorithm stock_data current_date state))
    as (added & H2 & Hlen & Hdates).
  exists (snapshot :: added). rewrite H2, H1, <-app_assoc.
  split; [done|]. split.
  - cbn [length]. rewrite Hlen.
    replace (length dates + 6 - i)%nat
      with (length dates + 6 - (i + 7) + 1 * 7)%nat by lia.
    rewrite Nat.div_add by lia. lia.
  - intros [|k] snap Hk.
    + injection Hk as <-. rewrite Hd. by rewrite Nat.mul_0_r, Nat.add_0_r.
    + cbn in Hk. specialize (Hdates k snap Hk).
      replace (i + 7 * S k)%nat with (i + 7 + 7 * k)%nat by lia. done.
Qed.

Lemma record_state_recorded (self : Portfolio) (log : list LogEntry.t)
    (date : Z) (current_prices : gmap string num) :
  recorded (record_state self date current_prices, log).
Proof.
  eexists. cbn [fst history record_state]. rewrite last_snoc. done.
Qed.

Lemma week_step_recorded (current_date : Z)
    (state : Portfolio * list LogEntry.t) :
  recorded state →
  recorded (week_step np_sqrt algorithm stock_data current_date state).
Proof.
  intros Hstate. unfold week_step.
  destruct (window_data stock_data current_date) as [|w ws]; [done|].
  destruct (foldl _ state _) as [portfolio log].
  apply record_state_recorded.
Qed.

Lemma simulate_recorded (dates : list Z) (remaining i : nat)
    (state : Portfolio * list LogEntry.t) :
  recorded state →
  recorded (simulate np_sqrt algorithm stock_data dates remaining i state).
Proof.
  revert i state. induction remaining as [|remaining IH]; intros i state Hs;
    [done|].
  cbn [simulate]. destruct (dates !! i); [|done].
  by apply IH, week_step_recorded.
Qed.

Lemma simulate_more (dates : list Z) (n m i : nat)
    (state : Portfolio * list LogEntry.t) :
  simulate np_sqrt algorithm stock_data dates (n + m) i state
  = simulate np_sqrt algorithm stock_data dates m (i + 7 * n)
      (simulate np_sqrt algorithm stock_data dates n i state).
Proof.
  revert i state. induction n as [|n IH]; intros i state.
  { cbn [simulate Nat.add]. by rewrite Nat.mul_0_r, Nat.add_0_r. }
  cbn [simulate Nat.add]. destruct (dates !! i) as [d|] eqn:Hd.
  - rewrite IH. f_equal. lia.
  - destruct m as [|m]; [done|]. cbn [simulate].
    apply lookup_ge_None in Hd.
    rewrite (proj2 (lookup_ge_None dates (i + 7 * S n)%nat)) by lia. done.
Qed.

End Snapshots.

(** X16.  The snapshots of a run.  The results hold the snapshots that the
    ledger had, then one snapshot for the first date and one for each pass
    of the weekly loop: [1 + min (weeks, (n - 1) div 7)] snapshots for [n]
    distinct dates, the snapshot number [k] being dated by the date at
    position [7 k] in the sorted dates.  No pass of the loop is skipped:
    at each of those dates some series has a row. *)
Theorem snapshots_of_run :
  ∀ (np_sqrt : num → num) (self : Backtester)
    (stock_data : list (string * Series)) (r : Results.t),
    run np_sqrt self stock_data = Returns (Some r) →
    ∃ added,
      Results.portfolio_history r = history (portfolio self) ++ added
      ∧ length added = S (weeks_run (weeks self) (all_dates stock_data))
      ∧ ∀ k snapshot, added !! k = Some snapshot →
          all_dates stock_data !! (7 * k)%nat
          = Some (Snapshot.date snapshot).
Proof.
  intros np_sqrt self stock_data r Hrun.
  apply run_Some in Hrun
    as (start_date & later & final & log & Hdates & Hmany & Hsim & -> & _).
  destruct (simulate_snapshots np_sqrt (algorithm self) stock_data
              (start_date :: later) (weeks self) 7
              (record_state (portfolio self) start_date
                 (price_dict (λ prices, loc prices start_date) stock_data),
               trade_log self)) as (added & Hh & Hlen & Hadded).
  { intros d Hd. apply window_of_a_date. by rewrite Hdates. }
  rewrite Hsim in Hh. cbn [fst history record_state] in Hh.
  rewrite <-app_assoc in Hh. eexists. split; [exact Hh|]. split.
  - cbn [app length]. rewrite Hlen. unfold weeks_run. rewrite Hdates.
    rewrite Hdates in Hmany.
    replace (length (start_date :: later) + 6 - 7)%nat
      with (length (start_date :: later) - 1)%nat by lia.
    done.
  - rewrite Hdates. intros [|k] snapshot Hk.
    + cbn in Hk. by injection Hk as <-.
    + cbn [app lookup list_lookup] in Hk. specialize (Hadded k snapshot Hk).
      replace (7 * S k)%nat with (7 + 7 * k)%nat by lia. done.
Qed.

Lemma snapshots_of_run_witness :
  run sqrt_12 (Backtester_init ["A"%string] 52 (Num.of_Z 10000)) five_weeks
  = Returns (Some five_weeks_results)
  ∧ length (all_dates five_weeks) = 36%nat
  ∧ ∃ added,
      Results.portfolio_history five_weeks_results = added
      ∧ length added = 6%nat.
Proof.
  assert (run sqrt_12 (Backtester_init ["A"%string] 52 (Num.of_Z 10000))
              five_weeks
          = Returns (Some five_weeks_results)) as Hrun by by_compute.
  split; [exact Hrun|]. split; [by_compute|].
  destruct (snapshots_of_run sqrt_12
              (Backtester_init ["A"%string] 52 (Num.of_Z 10000))
              five_weeks five_weeks_results Hrun) as (added & Hh & Hlen & _).
  exists added. split; [exact Hh|].
  rewrite Hlen. by_compute.
Defined.

(** X17.  The results end on the last snapshot: the final holdings are the
    holdings of the last snapshot of the history, and the final value is
    its total value. *)
Theorem results_end_on_last_snapshot :
  ∀ (np_sqrt : num → num) (self : Backtester)
    (stock_data : list (string * Series)) (r : Results.t),
    run np_sqrt self stock_data = Returns (Some r) →
    ∃ snapshot,
      last (Results.portfolio_history r) = Some snapshot
      ∧ Snapshot.holdings snapshot = Results.final_holdings r
      ∧ Snapshot.total_value snapshot = Results.final_value r.
Proof.
  intros np_sqrt self stock_data r Hrun.
  apply run_Some in Hrun
    as (start_date & later & final & log & _ & _ & Hsim & -> & _ & -> & _
        & _ & _ & Hlast).
  pose proof (simulate_recorded np_sqrt (algorithm self) stock_data
                (start_date :: later) (weeks self) 7 _
                (record_state_recorded (portfolio self) (trade_log self)
                   start_date
                   (price_dict (λ prices, loc prices start_date) stock_data)))
    as (snapshot & Hsnapshot & Hholdings & _).
  rewrite Hsim in Hsnapshot, Hholdings. cbn [fst] in *.
  exists snapshot. split; [done|]. split; [done|].
  rewrite fmap_last, Hsnapshot in Hlast. by injection Hlast.
Qed.

Lemma results_end_on_last_snapshot_witness :
  run sqrt_12 (Backtester_init ["A"%string] 52 (Num.of_Z 10000)) five_weeks
  = Returns (Some five_weeks_results)
  ∧ ∃ snapshot,
      last (Results.portfolio_history five_weeks_results) = Some snapshot
      ∧ Snapshot.holdings snapshot
        = Results.final_holdings five_weeks_results.
Proof.
  assert (run sqrt_12 (Backtester_init ["A"%string] 52 (Num.of_Z 10000))
              five_weeks
          = Returns (Some five_weeks_results)) as Hrun by by_compute.
  split; [exact Hrun|].
  destruct (results_end_on_last_snapshot sqrt_12
              (Backtester_init ["A"%string] 52 (Num.of_Z 10000))
              five_weeks five_weeks_results Hrun)
    as (snapshot & Hlast & Hholdings & _).
  exists snapshot. exact (conj Hlast Hholdings).
Defined.

(** ** A longer run *)

Lemma run_enough_dates (np_sqrt : num → num) (self : Backtester)
    (stock_data : list (string * Series)) (start_date : Z) (later : list Z) :
  all_dates stock_data = start_date :: later →
  (14 ≤ length (all_dates stock_data))%nat →
  let final :=
    simulate np_sqrt (algorithm self) stock_data (start_date :: later)
      (weeks self) 7
      (record_state (portfolio self) start_date
         (price_dict (λ prices, loc prices start_date) stock_data),
       trade_log self) in
  run np_sqrt self stock_data
  = calculate_results
      {| symbols := symbols self;
         weeks := weeks self;
         initial_cash := initial_cash self;
         portfolio := final.1;
         algorithm := algorithm self;
         trade_log := final.2 |}.
Proof.
  intros Hdates Hmany. cbv zeta. unfold run.
  destruct stock_data as [|kv others] eqn:Hdata; [done|].
  rewrite <-Hdata in *. clear Hdata.
  rewrite decide_False by lia. rewrite Hdates.
  by destruct (simulate _ _ _ _ _ _ _) as [final log].
Qed.

(** X18.  A longer run extends a shorter one.  When the backtest of [n]
    weeks returns results, the backtest of [n + m] weeks of the same data
    with the same initial cash returns results too, with the same initial
    value; the history and the trade log of the shorter run are prefixes of
    those of the longer one. *)
Theorem longer_run_extends :
  ∀ (np_sqrt : num → num) (names : list string) (n m : nat)
    (initial_cash : num) (stock_data : list (string * Series))
    (r : Results.t),
    run np_sqrt (Backtester_init names n initial_cash) stock_data
    = Returns (Some r) →
    ∃ r',
      run np_sqrt (Backtester_init names (n + m) initial_cash) stock_data
      = Returns (Some r')
      ∧ Results.initial_value r' = Results.initial_value r
      ∧ Results.portfolio_history r `prefix_of` Results.portfolio_history r'
      ∧ Results.trade_log r `prefix_of` Results.trade_log r'.
Proof.
  intros np_sqrt names n m cash0 stock_data r Hrun.
  pose proof Hrun as Hfacts.
  apply run_Some in Hfacts
    as (start_date & later & final & log & Hdates & Hmany & Hsim & Hh & Hl
        & _).
  cbn [algorithm weeks portfolio trade_log Backtester_init] in Hsim.
  set (start := (record_state (Portfolio_init cash0) start_date
                   (price_dict (λ prices, loc prices start_date) stock_data),
                 @nil LogEntry.t)) in *.
  rewrite (run_enough_dates np_sqrt (Backtester_init names n cash0)
             stock_data start_date later Hdates Hmany) in Hrun.
  rewrite (run_enough_dates np_sqrt
             (Backtester_init names (n + m) cash0)
             stock_data start_date later Hdates Hmany).
  cbn [algorithm weeks portfolio trade_log symbols initial_cash
       Backtester_init] in Hrun |- *.
  fold start in Hrun |- *.
  rewrite simulate_more. rewrite Hsim in Hrun |- *. cbn [fst snd] in Hrun.
  destruct (simulate_history np_sqrt StockTradingAlgorithm_default stock_data
              (start_date :: later) m (7 + 7 * n) (final, log))
    as (more_history & Hmore).
  destruct (simulate_log np_sqrt StockTradingAlgorithm_default stock_data
              (start_date :: later) m (7 + 7 * n) (final, log))
    as (more_log & Hlog & _).
  destruct (simulate _ _ _ _ m _ (final, log)) as [final' log'].
  cbn [fst snd] in *. subst log'.
  apply calculate_results_Some in Hrun
    as (first & rest & Hfinal & Hz & Hinit & _).
  cbn [portfolio] in Hfinal. rewrite Hfinal in Hmore. cbn [app] in Hmore.
  destruct (calculate_results_nonzero
              {| symbols := names; weeks := n + m;
                 initial_cash := cash0; portfolio := final';
                 algorithm := StockTradingAlgorithm_default;
                 trade_log := log ++ more_log |}
              first (rest ++ more_history) Hmore Hz)
    as (r' & Hr' & Hinit' & Hh' & Hl').
  exists r'. split; [done|]. split; [by rewrite Hinit', Hinit|].
  rewrite Hh, Hl, Hh', Hl', Hfinal. cbn [trade_log]. split.
  - exists more_history. done.
  - by exists more_log.
Qed.

Lemma longer_run_extends_witness :
  let r :=
    results_of
      (run sqrt_12 (Backtester_init ["A"%string] 2 (Num.of_Z 10000))
           five_weeks) in
  run sqrt_12 (Backtester_init ["A"%string] 2 (Num.of_Z 10000)) five_weeks
  = Returns (Some r)
  ∧ length (Results.portfolio_history r) = 3%nat
  ∧ Results.portfolio_history r
      `prefix_of` Results.portfolio_history five_weeks_results.
Proof.
  intros r.
  assert (run sqrt_12 (Backtester_init ["A"%string] 2 (Num.of_Z 10000))
              five_weeks
          = Returns (Some r)) as Hrun by by_compute.
  split; [exact Hrun|]. split; [by_compute|].
  destruct (longer_run_extends sqrt_12 ["A"%string] 2 50 (Num.of_Z 10000)
              five_weeks r Hrun) as (r' & Hr' & _ & Hprefix & _).
  assert (run sqrt_12 (Backtester_init ["A"%string] (2 + 50) (Num.of_Z 10000))
              five_weeks
          = Returns (Some five_weeks_results)) as Hlong by by_compute.
  rewrite Hlong in Hr'. injection Hr' as <-. exact Hprefix.
Defined.

(** ** The range of the maximum drawdown *)

Lemma decline_range (vs : list Qc) (i : nat) (d : Qc) :
  Forall (λ v, 0 < v)%Qc vs → decline_at vs i d →
  (0 ≤ d)%Qc ∧ (d ≤ 1)%Qc.
Proof.
  intros Hpos (m & v & [_ Hpeak] & Hv & ->).
  pose proof (Hpeak i v (le_n i) Hv) as Hle.
  assert (0 < v)%Qc as Hv0.
  { rewrite Forall_forall in Hpos. apply Hpos.
    by apply list_elem_of_lookup_2 in Hv. }
  assert (0 < m)%Qc as Hm by qc_lra.
  assert (((m - v) / m * m = m - v)%Qc) as Hx
    by (field; intros ->; qc_lra).
  set (x := ((m - v) / m)%Qc) in *. clearbody x.
  split; qc_nra.
Qed.

(** X19.  For a history of positive rational totals the maximum drawdown
    of the results is a rational from 0 to 1: no decline is reported as a
    gain, and none as a loss of more than the whole value. *)
Theorem max_drawdown_range :
  ∀ (self : Backtester) (r : Results.t) (vs : list Qc),
    calculate_results self = Returns (Some r) →
    totals (history (portfolio self)) = Fin <$> vs →
    Forall (λ v, 0 < v)%Qc vs →
    ∃ d : Qc,
      Results.max_drawdown r = Fin d ∧ (0 ≤ d)%Qc ∧ (d ≤ 1)%Qc.
Proof.
  intros self r vs Hr Hvs Hpos.
  destruct (max_drawdown_largest_decline self r vs Hr Hvs Hpos)
    as (d & Hd & (i & Hi) & _).
  exists d. split; [done|]. by apply (decline_range vs i).
Qed.

Lemma max_drawdown_range_witness :
  calculate_results drawdown_example = Returns (Some drawdown_example_results)
  ∧ ∃ d : Qc,
      Results.max_drawdown drawdown_example_results = Fin d
      ∧ (0 ≤ d)%Qc ∧ (d ≤ 1)%Qc.
Proof.
  assert (calculate_results drawdown_example
          = Returns (Some drawdown_example_results)) as Hr by by_compute.
  split; [exact Hr|].
  apply (max_drawdown_range drawdown_example drawdown_example_results
           [Qc_of_Z 100; Qc_of_Z 120; Qc_of_Z 90; Qc_of_Z 110] Hr).
  - by_compute.
  - repeat constructor; by_compute.
Defined.

(** ** A run without a suitable stock *)

Lemma filter_stocks_none (np_sqrt : num → num) (self : StockSelector)
    (stock_data : list (string * Series)) :
  (∀ symbol prices, (symbol, prices) ∈ stock_data →
     is_suitable np_sqrt self prices = false) →
  filter_stocks np_sqrt self stock_data = [].
Proof.
  intros Hnone.
  destruct (filter_stocks np_sqrt self stock_data) as [|symbol rest] eqn:Hf;
    [done|].
  assert (symbol ∈ filter_stocks np_sqrt self stock_data) as Hin
    by (rewrite Hf; by apply elem_of_cons; left).
  apply elem_of_filter_stocks in Hin as (prices & Hin & Hs).
  by rewrite (Hnone symbol prices Hin) in Hs.
Qed.

Lemma window_data_shorter (stock_data : list (string * Series))
    (current_date : Z) (symbol : string) (window : Series) :
  (symbol, window) ∈ window_data stock_data current_date →
  ∃ prices, (symbol, prices) ∈ stock_data
            ∧ (length window ≤ length prices)%nat.
Proof.
  unfold window_data. intros Hin.
  apply list_elem_of_omap in Hin as ([k prices] & Hin & Hmake).
  case_decide; [|done]. injection Hmake as <- <-.
  exists prices. split; [done|]. apply length_filter.
Qed.

Section Idle.

Variable np_sqrt : num → num.
Variable algorithm : StockTradingAlgorithm.
Variable stock_data : list (string * Series).
Hypothesis short :
  ∀ symbol prices, (symbol, prices) ∈ stock_data →
    Z.of_nat (length prices) < min_data_points (selector algorithm).

Lemma week_step_idle (current_date : Z) (state : Portfolio * list LogEntry.t) :
  week_step np_sqrt algorithm stock_data current_date state = state
  ∨ ∃ current_prices,
      week_step np_sqrt algorithm stock_data current_date state
      = (record_state state.1 current_date current_prices, state.2).
Proof.
  unfold week_step.
  pose proof (window_data_shorter stock_data current_date) as Hshorter.
  destruct (window_data stock_data current_date) as [|w ws]; [by left|].
  right. unfold algorithm_run. rewrite filter_stocks_none.
  - cbn. destruct state. by eexists.
  - intros symbol window Hin.
    destruct (Hshorter symbol window Hin) as (prices & Hprices & Hlen).
    specialize (short symbol prices Hprices).
    unfold is_suitable. rewrite decide_True; [done|]. lia.
Qed.

Lemma simulate_idle (dates : list Z) (remaining i : nat)
    (state : Portfolio * list LogEntry.t) :
  let final := simulate np_sqrt algorithm stock_data dates remaining i state in
  final.2 = state.2
  ∧ cash final.1 = cash state.1
  ∧ holdings final.1 = holdings state.1
  ∧ ∃ added,
      history final.1 = history state.1 ++ added
      ∧ Forall (λ snapshot,
                  Snapshot.cash snapshot = cash state.1
                  ∧ Snapshot.holdings snapshot = holdings state.1) added.
Proof.
  revert i state. induction remaining as [|remaining IH]; intros i state.
  { cbn. do 3 (split; [done|]). exists []. by rewrite app_nil_r. }
  cbn [simulate]. destruct (dates !! i) as [current_date|].
  2: { cbn. do 3 (split; [done|]). exists []. by rewrite app_nil_r. }
  specialize (IH (i + 7)%nat
                (week_step np_sqrt algorithm stock_data current_date state)).
  destruct (week_step_idle current_date state) as [Hsame|[prices Hrecord]].
  - by rewrite Hsame in IH |- *.
  - rewrite Hrecord in IH |- *. cbn zeta in IH |- *.
    cbn [fst snd cash holdings history record_state] in IH.
    destruct IH as (Hlog & Hcash & Hholdings & added & Hh & Hall).
    do 3 (split; [done|]). eexists. rewrite Hh, <-app_assoc.
    split; [done|]. cbn [app]. by constructor.
Qed.

End Idle.

(** X20.  A run whose series are all shorter than [min_data_points] never
    trades, whatever the prices do: the trade log and the holdings are
    those that the backtester had, and every snapshot of the run records
    the cash and the holdings that it started with. *)
Theorem short_series_never_trade :
  ∀ (np_sqrt : num → num) (self : Backtester)
    (stock_data : list (string * Series)) (r : Results.t),
    (∀ symbol prices, (symbol, prices) ∈ stock_data →
       Z.of_nat (length prices) < min_data_points (selector (algorithm self))) →
    run np_sqrt self stock_data = Returns (Some r) →
    Results.trade_log r = trade_log self
    ∧ Results.final_holdings r = holdings (portfolio self)
    ∧ ∃ added,
        Results.portfolio_history r = history (portfolio self) ++ added
        ∧ Forall (λ snapshot,
                    Snapshot.cash snapshot = cash (portfolio self)
                    ∧ Snapshot.holdings snapshot = holdings (portfolio self))
                 added.
Proof.
  intros np_sqrt self stock_data r Hshort Hrun.
  apply run_Some in Hrun
    as (start_date & later & final & log & _ & _ & Hsim & -> & -> & -> & _).
  pose proof (simulate_idle np_sqrt (algorithm self) stock_data Hshort
                (start_date :: later) (weeks self) 7
                (record_state (portfolio self) start_date
                   (price_dict (λ prices, loc prices start_date) stock_data),
                 trade_log self)) as Hidle.
  cbn zeta in Hidle. rewrite Hsim in Hidle.
  cbn [fst snd cash holdings history record_state] in Hidle.
  destruct Hidle as (Hlog & _ & Hholdings & added & Hh & Hall).
  split; [done|]. split; [done|].
  eexists. rewrite Hh, <-app_assoc. split; [done|]. cbn [app].
  by constructor.
Qed.

Lemma short_series_never_trade_witness :
  let self := Backtester_init ["A"%string] 52 (Num.of_Z 10000) in
  let r := results_of (run sqrt_12 self short_drop) in
  generate_signal TradingEngine_default
    (daily (flat_then 20 (Qc_of_Z 100) (dec_q 94 2)))
  = (BUY, Num.of_Z 5, Some (Num.dec (-6) 2))
  ∧ run sqrt_12 self short_drop = Returns (Some r)
  ∧ length (Results.portfolio_history r) = 3%nat
  ∧ Results.trade_log r = [].
Proof.
  intros self r.
  assert (run sqrt_12 self short_drop = Returns (Some r)) as Hrun
    by by_compute.
  split; [by_compute|]. split; [exact Hrun|]. split; [by_compute|].
  refine (proj1 (short_series_never_trade sqrt_12 self short_drop r _ Hrun)).
  intros symbol prices Hin.
  apply list_elem_of_singleton in Hin. injection Hin as _ ->.
  vm_compute. reflexivity.
Defined.

(** ** No look-ahead *)

Lemma filter_up_to (prices : Series) (d d' : Z) :
  d ≤ d' →
  filter (λ row : Z * num, row.1 ≤ d) (filter (λ row : Z * num, row.1 ≤ d') prices)
  = filter (λ row : Z * num, row.1 ≤ d) prices.
Proof.
  intros Hd. induction prices as [|row prices IH]; [done|].
  destruct (decide (row.1 ≤ d')) as [Hin|Hout].
  - rewrite (filter_cons_True (λ row : Z * num, row.1 ≤ d')) by done.
    destruct (decide (row.1 ≤ d)) as [Hkept|Hcut].
    + rewrite !(filter_cons_True (λ row : Z * num, row.1 ≤ d)) by done.
      f_equal. exact IH.
    + rewrite !(filter_cons_False (λ row : Z * num, row.1 ≤ d)) by done.
      exact IH.
  - rewrite (filter_cons_False (λ row : Z * num, row.1 ≤ d')) by done.
    rewrite (filter_cons_False (λ row : Z * num, row.1 ≤ d)) by lia.
    exact IH.
Qed.

Lemma window_data_up_to (stock_data : list (string * Series)) (d d' : Z) :
  d ≤ d' →
  window_data (up_to d' stock_data) d = window_data stock_data d.
Proof.
  intros Hd. unfold window_data, up_to.
  induction stock_data as [|[symbol prices] rest IH]; [done|].
  rewrite fmap_cons. cbn [omap list_omap prod_map fst snd id].
  by rewrite filter_up_to, IH.
Qed.

Lemma week_step_up_to (np_sqrt : num → num)
    (algorithm : StockTradingAlgorithm) (stock_data : list (string * Series))
    (d d' : Z) (state : Portfolio * list LogEntry.t) :
  d ≤ d' →
  week_step np_sqrt algorithm (up_to d' stock_data) d state
  = week_step np_sqrt algorithm stock_data d state.
Proof. intros Hd. unfold week_step. by rewrite window_data_up_to. Qed.

Lemma sorted_same_elements (l1 l2 : list Z) :
  StronglySorted Z.lt l1 → StronglySorted Z.lt l2 →
  (∀ x, x ∈ l1 ↔ x ∈ l2) → l1 = l2.
Proof.
  intros H1. revert l2.
  induction H1 as [|x1 l1 Hs1 IH Hall1]; intros l2 H2 Hsame.
  { destruct l2 as [|x2 l2]; [done|].
    assert (x2 ∈ @nil Z) as Hin by (apply Hsame; by apply elem_of_cons; left).
    by apply elem_of_nil in Hin. }
  destruct H2 as [|x2 l2 Hs2 Hall2].
  { assert (x1 ∈ @nil Z) as Hin by (apply Hsame; by apply elem_of_cons; left).
    by apply elem_of_nil in Hin. }
  rewrite Forall_forall in Hall1, Hall2.
  assert (x1 = x2) as <-.
  { assert (x1 ∈ x2 :: l2) as Ha by (apply Hsame; by apply elem_of_cons; left).
    assert (x2 ∈ x1 :: l1) as Hb by (apply Hsame; by apply elem_of_cons; left).
    apply elem_of_cons in Ha as [Ha|Ha]; [done|].
    apply elem_of_cons in Hb as [Hb|Hb]; [done|].
    apply Hall2 in Ha. apply Hall1 in Hb. lia. }
  f_equal. apply IH; [done|]. intros y. split; intros Hy.
  - assert (y ∈ x1 :: l2) as Hin by (apply Hsame; by apply elem_of_cons; right).
    apply elem_of_cons in Hin as [->|Hin]; [|done].
    apply Hall1 in Hy. lia.
  - assert (y ∈ x1 :: l1) as Hin by (apply Hsame; by apply elem_of_cons; right).
    apply elem_of_cons in Hin as [->|Hin]; [|done].
    apply Hall2 in Hy. lia.
Qed.

Lemma filter_sorted (P : Z → Prop) `{∀ x, Decision (P x)} (l : list Z) :
  StronglySorted Z.lt l → StronglySorted Z.lt (filter P l).
Proof.
  induction 1 as [|x l Hs IH Hall]; [constructor|].
  rewrite filter_cons. case_decide; [|done].
  constructor; [done|]. apply Forall_forall. intros y Hy.
  apply list_elem_of_filter in Hy as [_ Hy].
  by apply (proj1 (Forall_forall _ _) Hall).
Qed.

Lemma filter_sorted_prefix (d' : Z) (l : list Z) :
  StronglySorted Z.lt l → filter (λ x, x ≤ d') l `prefix_of` l.
Proof.
  induction 1 as [|x l Hs IH Hall]; [done|].
  destruct (decide (x ≤ d')) as [Hin|Hout].
  - rewrite filter_cons_True by done. by apply prefix_cons.
  - rewrite filter_cons_False by done.
    replace (filter (λ x, x ≤ d') l) with (@nil Z); [apply prefix_nil|].
    symmetry. clear IH Hs.
    induction Hall as [|y l Hy Hall IH]; [done|].
    rewrite filter_cons_False by lia. exact IH.
Qed.

Lemma all_dates_up_to (stock_data : list (string * Series)) (d' : Z) :
  all_dates (up_to d' stock_data)
  = filter (λ x, x ≤ d') (all_dates stock_data).
Proof.
  apply sorted_same_elements.
  - apply sorted_set_sorted.
  - apply filter_sorted, sorted_set_sorted.
  - intros x. unfold all_dates.
    rewrite list_elem_of_filter, !elem_of_sorted_set, !list_elem_of_bind.
    unfold up_to, index. split.
    + intros ([symbol cut] & Hx & Hin).
      apply list_elem_of_fmap in Hin as ([k prices] & [= -> ->] & Hin).
      cbn [snd] in Hx.
      apply list_elem_of_fmap in Hx as (row & -> & Hrow).
      apply list_elem_of_filter in Hrow as [Hle Hrow].
      split; [done|]. exists (k, prices). split; [|done].
      cbn [snd]. apply list_elem_of_fmap. by exists row.
    + intros (Hle & [symbol prices] & Hx & Hin). cbn [snd] in Hx.
      apply list_elem_of_fmap in Hx as (row & -> & Hrow).
      exists (symbol, filter (λ r : Z * num, r.1 ≤ d') prices). split.
      * cbn [snd]. apply list_elem_of_fmap. exists row. split; [done|].
        by apply list_elem_of_filter.
      * apply list_elem_of_fmap. by exists (symbol, prices).
Qed.

Lemma loc_cons (row : Z * num) (prices : Series) (date : Z) :
  loc (row :: prices) date
  = if decide (row.1 = date) then Some row.2 else loc prices date.
Proof.
  unfold loc. cbn [list_find]. case_decide; [done|].
  rewrite <-option_fmap_compose. by destruct (list_find _ prices) as [[? ?]|].
Qed.

Lemma loc_up_to (prices : Series) (date d' : Z) :
  date ≤ d' →
  loc (filter (λ row : Z * num, row.1 ≤ d') prices) date = loc prices date.
Proof.
  intros Hd. induction prices as [|row prices IH]; [done|].
  destruct (decide (row.1 ≤ d')) as [Hin|Hout].
  - rewrite (filter_cons_True (λ row : Z * num, row.1 ≤ d')) by done.
    rewrite !loc_cons. case_decide; [done|]. exact IH.
  - rewrite (filter_cons_False (λ row : Z * num, row.1 ≤ d')) by done.
    rewrite loc_cons. rewrite decide_False by lia. exact IH.
Qed.

Lemma price_dict_up_to (stock_data : list (string * Series)) (date d' : Z) :
  date ≤ d' →
  price_dict (λ prices, loc prices date) (up_to d' stock_data)
  = price_dict (λ prices, loc prices date) stock_data.
Proof.
  intros Hd. unfold price_dict, up_to. rewrite foldl_fmap.
  generalize (∅ : gmap string num).
  induction stock_data as [|[symbol prices] rest IH]; intros acc; [done|].
  cbn [foldl prod_map fst snd id]. rewrite loc_up_to by done. apply IH.
Qed.

Section Cut.

Variable np_sqrt : num → num.
Variable algorithm : StockTradingAlgorithm.
Variable stock_data : list (string * Series).
Variable d' : Z.

Lemma simulate_up_to (seen dates : list Z) (n i : nat)
    (state : Portfolio * list LogEntry.t) :
  seen `prefix_of` dates → (∀ x, x ∈ seen → x ≤ d') →
  ∃ passes more,
    n = (passes + more)%nat
    ∧ simulate np_sqrt algorithm (up_to d' stock_data) seen n i state
      = simulate np_sqrt algorithm stock_data dates passes i state.
Proof.
  intros Hprefix Hseen. revert i state.
  induction n as [|n IH]; intros i state.
  { by exists 0%nat, 0%nat. }
  cbn [simulate]. destruct (seen !! i) as [d|] eqn:Hd.
  2: { by exists 0%nat, (S n). }
  pose proof (prefix_lookup_Some _ _ _ _ Hd Hprefix) as Hdate.
  rewrite week_step_up_to
    by (apply Hseen; by apply list_elem_of_lookup_2 in Hd).
  destruct (IH (i + 7)%nat
              (week_step np_sqrt algorithm stock_data d state))
    as (passes & more & -> & Heq).
  exists (S passes), more. split; [done|].
  cbn [simulate]. by rewrite Hdate.
Qed.

End Cut.

(** X21.  A run does not look ahead.  When the backtest of the data cut
    after some date returns results, the backtest of the whole data returns
    results too, with the same initial value, and begins as the run on the
    cut data did: the history and the trade log of the run on the cut data
    are prefixes of its history and of its trade log.  The rows dated
    after a snapshot have no part in it. *)
Theorem run_reads_the_past :
  ∀ (np_sqrt : num → num) (self : Backtester)
    (stock_data : list (string * Series)) (d' : Z) (r1 : Results.t),
    run np_sqrt self (up_to d' stock_data) = Returns (Some r1) →
    ∃ r,
      run np_sqrt self stock_data = Returns (Some r)
      ∧ Results.initial_value r = Results.initial_value r1
      ∧ Results.portfolio_history r1 `prefix_of` Results.portfolio_history r
      ∧ Results.trade_log r1 `prefix_of` Results.trade_log r.
Proof.
  intros np_sqrt self stock_data d' r1 Hrun.
  pose proof Hrun as Hfacts.
  apply run_Some in Hfacts
    as (start_date & seen & final1 & log1 & Hseen & Hmany & Hsim & Hh & Hl
        & _).
  pose proof (sorted_set_sorted (stock_data ≫= (λ kv, index kv.2))) as Hsorted.
  fold (all_dates stock_data) in Hsorted.
  pose proof (filter_sorted_prefix d' (all_dates stock_data) Hsorted)
    as Hprefix.
  rewrite <-all_dates_up_to, Hseen in Hprefix.
  assert (∀ x, x ∈ start_date :: seen → x ≤ d') as Hold.
  { intros x Hx. rewrite <-Hseen, all_dates_up_to in Hx.
    by apply list_elem_of_filter in Hx as [? _]. }
  destruct (all_dates stock_data) as [|first_date later] eqn:Hdates.
  { by apply prefix_nil_not in Hprefix. }
  pose proof (prefix_cons_inv_1 _ _ _ _ Hprefix) as <-.
  assert (14 ≤ length (all_dates stock_data))%nat as Hmany'.
  { apply prefix_length in Hprefix. rewrite Hseen in Hmany.
    rewrite Hdates. lia. }
  rewrite (run_enough_dates np_sqrt self (up_to d' stock_data) start_date seen
             Hseen Hmany) in Hrun.
  rewrite (run_enough_dates np_sqrt self stock_data start_date later
             Hdates Hmany').
  rewrite price_dict_up_to in Hsim, Hrun
    by (apply Hold; by apply elem_of_cons; left).
  set (start := (record_state (portfolio self) start_date
                   (price_dict (λ prices, loc prices start_date) stock_data),
                 trade_log self)) in *.
  destruct (simulate_up_to np_sqrt (algorithm self) stock_data d'
              (start_date :: seen) (start_date :: later) (weeks self) 7 start
              Hprefix Hold) as (passes & more & Hweeks & Hcut).
  rewrite Hsim in Hrun, Hcut. cbn [fst snd] in Hrun.
  rewrite Hweeks, simulate_more, <-Hcut.
  destruct (simulate_history np_sqrt (algorithm self) stock_data
              (start_date :: later) more (7 + 7 * passes) (final1, log1))
    as (more_history & Hmore).
  destruct (simulate_log np_sqrt (algorithm self) stock_data
              (start_date :: later) more (7 + 7 * passes) (final1, log1))
    as (more_log & Hlog & _).
  destruct (simulate _ _ _ _ more _ (final1, log1)) as [final log].
  cbn [fst snd] in *. subst log.
  apply calculate_results_Some in Hrun
    as (first & rest & Hfinal & Hz & Hinit & _).
  cbn [portfolio] in Hfinal. rewrite Hfinal in Hmore. cbn [app] in Hmore.
  destruct (calculate_results_nonzero
              {| symbols := symbols self; weeks := weeks self;
                 initial_cash := initial_cash self; portfolio := final;
                 algorithm := algorithm self;
                 trade_log := log1 ++ more_log |}
              first (rest ++ more_history) Hmore Hz)
    as (r & Hr & Hinit' & Hh' & Hl').
  exists r. split; [done|]. split; [by rewrite Hinit', Hinit|].
  rewrite Hh, Hl, Hh', Hl', Hfinal. cbn [trade_log]. split.
  - by exists more_history.
  - by exists more_log.
Qed.

Lemma run_reads_the_past_witness :
  let self := Backtester_init ["A"%string] 52 (Num.of_Z 10000) in
  let r1 := results_of (run sqrt_12 self (up_to 20 five_weeks)) in
  run sqrt_12 self (up_to 20 five_weeks) = Returns (Some r1)
  ∧ length (Results.portfolio_history r1) = 3%nat
  ∧ Results.portfolio_history r1
      `prefix_of` Results.portfolio_history five_weeks_results.
Proof.
  intros self r1.
  assert (run sqrt_12 self (up_to 20 five_weeks) = Returns (Some r1)) as Hrun
    by by_compute.
  split; [exact Hrun|]. split; [by_compute|].
  destruct (run_reads_the_past sqrt_12 self five_weeks 20 r1 Hrun)
    as (r & Hr & _ & Hprefix & _).
  assert (run sqrt_12 self five_weeks = Returns (Some five_weeks_results))
    as Hwhole by by_compute.
  rewrite Hwhole in Hr. injection Hr as <-. exact Hprefix.
Defined.
